(** * A limit order book: price levels, FIFO queues and an identifier index

    Shallow embedding of [src/orderbook/orderbook.cpp].

    - [double] prices are IEEE 754 binary64 numbers ([PrimFloat.float]);
      the two [std::map] comparators are [std::less] and [std::greater]
      on them.
    - [uint64_t] values are integers in [Z] with the wrap-around at [2^64]
      written out ([wrap64]).
    - An [OrderNode*] is an address in the pool: block number and slot.
      The objects constructed in pool storage are kept in a finite map
      from addresses, so that the index and the queues alias one record.
    - A [std::map] is an association list in iteration order; a
      [std::list<OrderNode*>] is a list of addresses, front first.
    - The prices that become keys are numbers: [std::map] requires a strict
      weak order of its comparator, which [<] and [>] are not on NaN, and
      what the map does with such a key is not defined.  The calls
      considered ([valid_call]) add orders whose price is not NaN. *)

From Stdlib Require Import ZArith Lia List Floats Sorting.Sorted.
From stdpp Require Import base option list sorting gmap.

Open Scope Z_scope.

(** ** Order on binary64 numbers *)

Module FloatOrder.

Definition sf_is_nan (x : spec_float) : bool :=
  match x with S754_nan => true | _ => false end.

(** An order embedding of the numbers into triples compared
    lexicographically: class and sign, then exponent, then mantissa. *)
Definition sf_key (x : spec_float) : Z * Z * Z :=
  match x with
  | S754_nan => (0, 0, 0)
  | S754_zero _ => (0, 0, 0)
  | S754_infinity true => (-2, 0, 0)
  | S754_infinity false => (2, 0, 0)
  | S754_finite true m e => (-1, - e, - Z.pos m)
  | S754_finite false m e => (1, e, Z.pos m)
  end.

Definition lex_lt (a b : Z * Z * Z) : Prop :=
  let '(a1, a2, a3) := a in
  let '(b1, b2, b3) := b in
  a1 < b1 \/ (a1 = b1 /\ (a2 < b2 \/ (a2 = b2 /\ a3 < b3))).

Definition not_nan (x : float) : Prop := is_nan x = false.

(** [a < b] on doubles, as [operator<] computes it. *)
Definition flt (a b : float) : bool := (a <? b)%float.

End FloatOrder.

Import FloatOrder.

(** ** Machine integers *)

Definition u64_modulus : Z := 2 ^ 64.

Definition wrap64 (z : Z) : Z := z mod u64_modulus.

Definition in_u64 (z : Z) : Prop := 0 <= z < u64_modulus.

(** ** Data *)

Record Order := mkOrder {
  order_id : Z;
  is_buy : bool;
  price : float;
  quantity : Z;
  timestamp_ns : Z
}.

(** The snapshot entry, [struct PriceLevel]. *)
Record PriceLevel := mkPriceLevel {
  pl_price : float;
  pl_total_quantity : Z
}.

(** Address of a slot of the pool: the block (numbered from the oldest)
    and the index of the slot in the block. *)
Definition ptr : Type := nat * nat.

Definition BlockSize : nat := 1024.

(** [MemoryPool<OrderNode, 1024>].  [blocks] counts the blocks allocated so
    far, the head block being the newest.  [free_list] is the vector of
    freed slots with its back first, so [push_back] is a cons and
    [back]/[pop_back] take the head.  [storage] holds the [OrderNode]
    objects that are currently constructed in the blocks; the
    [level_iterator] of a node is not stored: it designates the cell of the
    node in the queue of its level, which [list_erase] finds again. *)
Record MemoryPool := mkPool {
  blocks : nat;
  free_list : list ptr;
  current_index : nat;
  storage : gmap ptr Order
}.

(** [struct Level]. *)
Record Level := mkLevel {
  level_price : float;
  total_quantity : Z;
  orders : list ptr
}.

(** A [std::map<double, Level, Compare>] in iteration order. *)
Definition side_map : Type := list (float * Level).

Record OrderBook := mkBook {
  order_pool : MemoryPool;
  bid_levels : side_map;
  ask_levels : side_map;
  order_lookup : gmap Z ptr;
  total_orders : Z;
  total_cancels : Z;
  total_amends : Z
}.

(** ** Memory pool *)

Definition allocate_block (mp : MemoryPool) : MemoryPool :=
  {| blocks := S (blocks mp);
     free_list := free_list mp;
     current_index := 0%nat;
     storage := storage mp |}.

Definition pool_new : MemoryPool :=
  allocate_block
    {| blocks := 0; free_list := []; current_index := BlockSize; storage := ∅ |}.

Definition allocate (mp : MemoryPool) : ptr * MemoryPool :=
  match free_list mp with
  | p :: rest =>
      (p, {| blocks := blocks mp; free_list := rest;
             current_index := current_index mp; storage := storage mp |})
  | [] =>
      let mp1 := if (BlockSize <=? current_index mp)%nat
                 then allocate_block mp else mp in
      ((blocks mp1 - 1, current_index mp1)%nat,
       {| blocks := blocks mp1; free_list := free_list mp1;
          current_index := S (current_index mp1); storage := storage mp1 |})
  end.

(** Placement construction [new (node) OrderNode(order)]. *)
Definition construct (node : ptr) (o : Order) (mp : MemoryPool) : MemoryPool :=
  {| blocks := blocks mp; free_list := free_list mp;
     current_index := current_index mp;
     storage := <[node := o]> (storage mp) |}.

(** [deallocate]: the destructor ends the object, the slot is pushed on the
    free list. *)
Definition deallocate (node : ptr) (mp : MemoryPool) : MemoryPool :=
  {| blocks := blocks mp; free_list := node :: free_list mp;
     current_index := current_index mp;
     storage := delete node (storage mp) |}.

(** ** Ordered maps of price levels *)

Definition less (a b : float) : bool := flt a b.
Definition greater (a b : float) : bool := flt b a.

(** [Level(double p)]. *)
Definition new_level (p : float) : Level :=
  {| level_price := p; total_quantity := 0; orders := [] |}.

(** Removal of the cell of [node] from a queue. *)
Fixpoint list_erase (node : ptr) (q : list ptr) : list ptr :=
  match q with
  | [] => []
  | x :: q' => if decide (x = node) then q' else x :: list_erase node q'
  end.

Section StdMap.
Variable comp : float -> float -> bool.

(** [m.find(k)]: the first key not ordered before [k] is the lower bound;
    it is the result unless [k] is ordered before it. *)
Fixpoint map_find (k : float) (m : side_map) : option Level :=
  match m with
  | [] => None
  | (k', l) :: m' =>
      if comp k' k then map_find k m'
      else if comp k k' then None
      else Some l
  end.

(** [auto &level = m[k]] followed by the updates [f] made through the
    reference.  [Level] has the one constructor [Level(double)]: the level
    inserted for an absent key is taken to be [Level(k)], of zero aggregate
    and empty queue. *)
Fixpoint map_subscript (k : float) (f : Level -> Level) (m : side_map)
  : side_map :=
  match m with
  | [] => [(k, f (new_level k))]
  | (k', l) :: m' =>
      if comp k' k then (k', l) :: map_subscript k f m'
      else if comp k k' then (k, f (new_level k)) :: m
      else (k', f l) :: m'
  end.

(** [auto it = m.find(k); if (it != m.end()) ...]: the body [g] updates
    the level found, or erases it from the map when it answers [None]. *)
Fixpoint map_find_apply (k : float) (g : Level -> option Level)
    (m : side_map) : side_map :=
  match m with
  | [] => []
  | (k', l) :: m' =>
      if comp k' k then (k', l) :: map_find_apply k g m'
      else if comp k k' then m
      else match g l with
           | Some l' => (k', l') :: m'
           | None => m'
           end
  end.

(** [o] is the order held by [node], which the code reads through the
    pointer. *)
Definition add_to_side (side : side_map) (node : ptr) (o : Order)
  : side_map :=
  map_subscript (price o)
    (fun level =>
       {| level_price := price o;
          total_quantity := wrap64 (total_quantity level + quantity o);
          orders := orders level ++ [node] |})
    side.

Definition remove_from_side (side : side_map) (node : ptr) (o : Order)
  : side_map :=
  map_find_apply (price o)
    (fun level =>
       let orders' := list_erase node (orders level) in
       match orders' with
       | [] => None
       | _ :: _ =>
           Some {| level_price := level_price level;
                   total_quantity :=
                     wrap64 (total_quantity level - quantity o);
                   orders := orders' |}
       end)
    side.

(** The level aggregate and the node are updated together, and only when
    the level is found. *)
Definition update_quantity_in_place (side : side_map) (node : ptr)
    (o : Order) (new_quantity : Z) (mp : MemoryPool)
  : side_map * MemoryPool :=
  match map_find (price o) side with
  | Some _ =>
      (map_find_apply (price o)
         (fun level =>
            Some {| level_price := level_price level;
                    total_quantity :=
                      wrap64 (wrap64 (total_quantity level - quantity o)
                              + new_quantity);
                    orders := orders level |})
         side,
       construct node
         (mkOrder (order_id o) (is_buy o) (price o) new_quantity
                  (timestamp_ns o))
         mp)
  | None => (side, mp)
  end.
End StdMap.

(** ** The order book *)

Definition empty_book : OrderBook :=
  {| order_pool := pool_new;
     bid_levels := [];
     ask_levels := [];
     order_lookup := ∅;
     total_orders := 0;
     total_cancels := 0;
     total_amends := 0 |}.

(** [add_order]: a slot from the pool, the node constructed in it, the
    index entry written (over a previous one for the same identifier), the
    node queued on its side. *)
Definition add_order (o : Order) (b : OrderBook) : OrderBook :=
  let '(node, mp) := allocate (order_pool b) in
  let mp := construct node o mp in
  {| order_pool := mp;
     bid_levels := if is_buy o then add_to_side greater (bid_levels b) node o
                   else bid_levels b;
     ask_levels := if is_buy o then ask_levels b
                   else add_to_side less (ask_levels b) node o;
     order_lookup := <[order_id o := node]> (order_lookup b);
     total_orders := wrap64 (total_orders b + 1);
     total_cancels := total_cancels b;
     total_amends := total_amends b |}.

(** The result is [None] only if the index names a slot that holds no
    object, where the code would read a destroyed node. *)
Definition cancel_order (id : Z) (b : OrderBook) : option (bool * OrderBook) :=
  match order_lookup b !! id with
  | None => Some (false, b)
  | Some node =>
      o ← storage (order_pool b) !! node;
      Some (true,
            {| order_pool := deallocate node (order_pool b);
               bid_levels := if is_buy o
                             then remove_from_side greater (bid_levels b) node o
                             else bid_levels b;
               ask_levels := if is_buy o then ask_levels b
                             else remove_from_side less (ask_levels b) node o;
               order_lookup := delete id (order_lookup b);
               total_orders := total_orders b;
               total_cancels := wrap64 (total_cancels b + 1);
               total_amends := total_amends b |})
  end.

(** The tolerance [1e-9], that is the double nearest to it. *)
Definition price_tolerance : float := 0x1.12e0be826d695p-30%float.

(** [std::abs(old_price - new_price) > 1e-9]. *)
Definition price_changed (old_price new_price : float) : bool :=
  flt price_tolerance (PrimFloat.abs (old_price - new_price)%float).

Definition bump_amends (b : OrderBook) : OrderBook :=
  {| order_pool := order_pool b;
     bid_levels := bid_levels b;
     ask_levels := ask_levels b;
     order_lookup := order_lookup b;
     total_orders := total_orders b;
     total_cancels := total_cancels b;
     total_amends := wrap64 (total_amends b + 1) |}.

(** The branch of [amend_order] that updates the quantity in place. *)
Definition amended_in_place (b : OrderBook) (node : ptr) (o : Order)
    (new_quantity : Z) : OrderBook :=
  if is_buy o then
    let r := update_quantity_in_place greater (bid_levels b) node o
               new_quantity (order_pool b) in
    {| order_pool := r.2;
       bid_levels := r.1;
       ask_levels := ask_levels b;
       order_lookup := order_lookup b;
       total_orders := total_orders b;
       total_cancels := total_cancels b;
       total_amends := total_amends b |}
  else
    let r := update_quantity_in_place less (ask_levels b) node o
               new_quantity (order_pool b) in
    {| order_pool := r.2;
       bid_levels := bid_levels b;
       ask_levels := r.1;
       order_lookup := order_lookup b;
       total_orders := total_orders b;
       total_cancels := total_cancels b;
       total_amends := total_amends b |}.

(** [now] is the reading of the clock taken on the price-changing path. *)
Definition amend_order (id : Z) (new_price : float) (new_quantity : Z)
    (now : Z) (b : OrderBook) : option (bool * OrderBook) :=
  match order_lookup b !! id with
  | None => Some (false, b)
  | Some node =>
      o ← storage (order_pool b) !! node;
      b' ← (if price_changed (price o) new_price then
              let new_order :=
                mkOrder (order_id o) (is_buy o) new_price new_quantity now in
              r ← cancel_order id b;
              Some (add_order new_order r.2)
            else Some (amended_in_place b node o new_quantity));
      Some (true, bump_amends b')
  end.

(** The loop of [get_snapshot] over one side. *)
Fixpoint snapshot_side (depth count : nat) (m : side_map) : list PriceLevel :=
  match m with
  | [] => []
  | (p, level) :: m' =>
      if (depth <=? count)%nat then []
      else mkPriceLevel p (total_quantity level)
             :: snapshot_side depth (S count) m'
  end.

Definition get_snapshot (depth : nat) (b : OrderBook)
  : list PriceLevel * list PriceLevel :=
  (snapshot_side depth 0 (bid_levels b), snapshot_side depth 0 (ask_levels b)).

(** [std::numeric_limits<double>::max()]. *)
Definition double_max : float := 0x1.fffffffffffffp+1023%float.

Definition get_best_prices (b : OrderBook) : float * float :=
  (match bid_levels b with [] => 0%float | (p, _) :: _ => p end,
   match ask_levels b with [] => double_max | (p, _) :: _ => p end).

(** ** Sequences of calls *)

Inductive call :=
| Add (o : Order)
| Cancel (id : Z)
| Amend (id : Z) (new_price : float) (new_quantity : Z) (now : Z).

Definition exec (c : call) (b : OrderBook) : option OrderBook :=
  match c with
  | Add o => Some (add_order o b)
  | Cancel id => r ← cancel_order id b; Some r.2
  | Amend id p q now => r ← amend_order id p q now b; Some r.2
  end.

Fixpoint run (cs : list call) (b : OrderBook) : option OrderBook :=
  match cs with
  | [] => Some b
  | c :: cs' => b' ← exec c b; run cs' b'
  end.

(** Arguments of a call that the map and the integer types admit: numbers
    for the prices that become keys, and [uint64_t] values. *)
Definition valid_order (o : Order) : Prop :=
  in_u64 (order_id o) /\ not_nan (price o) /\ in_u64 (quantity o)
  /\ in_u64 (timestamp_ns o).

Definition valid_call (c : call) : Prop :=
  match c with
  | Add o => valid_order o
  | Cancel id => in_u64 id
  | Amend id _ q now => in_u64 id /\ in_u64 q /\ in_u64 now
  end.

Definition reachable (b : OrderBook) : Prop :=
  exists cs, Forall valid_call cs /\ run cs empty_book = Some b.

(** ** Invariants of the book *)

(** What [std::map] asks of its comparator on the keys it is given: a
    strict weak order.  [operator<] is one on numbers; NaN is incomparable
    to everything and is excluded by [not_nan]. *)
Class StrictWeak (comp : float -> float -> bool) : Prop := {
  sw_irrefl : forall a, comp a a = false;
  sw_trans : forall a b c, comp a b = true -> comp b c = true -> comp a c = true;
  sw_cotrans : forall a b c,
    not_nan b -> comp a c = true -> comp a b = true \/ comp b c = true;
  sw_numbers : forall a b, comp a b = true -> not_nan a /\ not_nan b
}.

(** Keys that the comparator does not separate name the same map entry. *)
Definition key_equiv (comp : float -> float -> bool) (a b : float) : Prop :=
  comp a b = false /\ comp b a = false.

Definition key_lt (comp : float -> float -> bool) (x y : float * Level) : Prop :=
  comp x.1 y.1 = true.

(** Iteration meets the keys in strictly increasing order of [comp]. *)
Definition sorted_map (comp : float -> float -> bool) (m : side_map) : Prop :=
  StronglySorted (key_lt comp) m.

Definition sumZ (l : list Z) : Z := foldr Z.add 0 l.

(** The record a queue cell points to, if the slot holds one. *)
Definition node_quantity (st : gmap ptr Order) (p : ptr) : Z :=
  from_option quantity 0 (st !! p).

Definition queue_quantities (st : gmap ptr Order) (q : list ptr) : list Z :=
  map (node_quantity st) q.

Definition queue_records (st : gmap ptr Order) (q : list ptr)
  : option (list Order) :=
  mapM (fun p => st !! p) q.

Definition node_ok (comp : float -> float -> bool) (buy : bool)
    (st : gmap ptr Order) (k : float) (p : ptr) : Prop :=
  exists o, st !! p = Some o /\ is_buy o = buy /\ not_nan (price o)
            /\ key_equiv comp (price o) k.

Record level_ok (comp : float -> float -> bool) (buy : bool)
    (st : gmap ptr Order) (kl : float * Level) : Prop := {
  lo_key : not_nan kl.1;
  lo_nonempty : orders kl.2 <> [];
  lo_total :
    total_quantity kl.2 = wrap64 (sumZ (queue_quantities st (orders kl.2)));
  lo_nodes : Forall (node_ok comp buy st kl.1) (orders kl.2)
}.

Definition side_ok (comp : float -> float -> bool) (buy : bool)
    (st : gmap ptr Order) (m : side_map) : Prop :=
  sorted_map comp m /\ Forall (level_ok comp buy st) m.

Definition side_ptrs (m : side_map) : list ptr :=
  flat_map (fun kl => orders kl.2) m.

Definition book_ptrs (b : OrderBook) : list ptr :=
  side_ptrs (bid_levels b) ++ side_ptrs (ask_levels b).

(** The quantities stored in the records are [uint64_t] values. *)
Definition quantities_ok (st : gmap ptr Order) : Prop :=
  forall p o, st !! p = Some o -> in_u64 (quantity o).

(** Slots the pool has handed out at least once. *)
Definition issued (mp : MemoryPool) (p : ptr) : Prop :=
  (S p.1 < blocks mp \/ (S p.1 = blocks mp /\ p.2 < current_index mp))%nat.

Record book_inv (b : OrderBook) : Prop := {
  inv_bids : side_ok greater true (storage (order_pool b)) (bid_levels b);
  inv_asks : side_ok less false (storage (order_pool b)) (ask_levels b);
  inv_nodup : NoDup (book_ptrs b);
  inv_index : forall id p,
    order_lookup b !! id = Some p ->
    p ∈ book_ptrs b
    /\ exists o, storage (order_pool b) !! p = Some o /\ order_id o = id;
  inv_free_nodup : NoDup (free_list (order_pool b));
  inv_free : forall p, p ∈ free_list (order_pool b) -> p ∉ book_ptrs b;
  inv_issued : forall p,
    p ∈ book_ptrs b \/ p ∈ free_list (order_pool b) ->
    issued (order_pool b) p;
  inv_blocks : (1 <= blocks (order_pool b))%nat
}.

(** ** Views used in the statements *)

(** The queue resting at price [k] on a side, empty when the side has no
    level there. *)
Definition queue_at (comp : float -> float -> bool) (k : float)
    (m : side_map) : list ptr :=
  from_option orders [] (map_find comp k m).

(** The aggregate at price [k] on a side. *)
Definition aggregate_at (comp : float -> float -> bool) (k : float)
    (m : side_map) : Z :=
  from_option total_quantity 0 (map_find comp k m).

(** Keys, aggregates and queues of a side, in iteration order. *)
Definition level_view (m : side_map) : list (float * Z * list ptr) :=
  map (fun kl => (kl.1, total_quantity kl.2, orders kl.2)) m.

(** Keys and queues of a side, in iteration order. *)
Definition queue_view (m : side_map) : list (float * list ptr) :=
  map (fun kl => (kl.1, orders kl.2)) m.

(** A recogniser [is_none] of the values that [get_best_prices] returns
    for a side tells the books whose side is empty from the others. *)
Definition signals_absence (is_none : float -> bool)
    (best : OrderBook -> float) (side : OrderBook -> side_map) : Prop :=
  forall b, reachable b -> (side b = [] <-> is_none (best b) = true).

(** The orders that the index names, and their quantity on a side. *)
Definition indexed_orders (b : OrderBook) : list Order :=
  omap (fun ip : Z * ptr => storage (order_pool b) !! ip.2)
    (map_to_list (order_lookup b)).

Definition indexed_quantity (buy : bool) (b : OrderBook) : Z :=
  sumZ (map quantity
          (filter (fun o => is_buy o = buy) (indexed_orders b))).

(** Additions of identifiers that are not resting. *)
Definition fresh_call (c : call) (b : OrderBook) : Prop :=
  match c with
  | Add o => order_lookup b !! order_id o = None
  | _ => True
  end.

Fixpoint fresh_run (cs : list call) (b : OrderBook) : Prop :=
  match cs with
  | [] => True
  | c :: cs' =>
      fresh_call c b
      /\ match exec c b with
         | Some b' => fresh_run cs' b'
         | None => True
         end
  end.

(** Every queued record is named by the index. *)
Definition index_covers (b : OrderBook) : Prop :=
  forall p, p ∈ book_ptrs b -> exists id, order_lookup b !! id = Some p.

(** The quantity that a pointer contributes to a side. *)
Definition side_quantity (st : gmap ptr Order) (buy : bool) (p : ptr) : Z :=
  match st !! p with
  | Some o => if decide (is_buy o = buy) then quantity o else 0
  | None => 0
  end.

(** The side of the buy orders or of the sell orders, and its comparator. *)
Definition side_of (buy : bool) (b : OrderBook) : side_map :=
  if buy then bid_levels b else ask_levels b.

Definition comp_of (buy : bool) : float -> float -> bool :=
  if buy then greater else less.

(** ** Arrival stamps

    A run is replayed with the number of each call as a clock.  A call that
    executes [add_order] (an addition, or an amendment that changes the
    price) stamps the record that the index names for its identifier
    afterwards. *)

Definition inserted_id (c : call) (b : OrderBook) : option Z :=
  match c with
  | Add o => Some (order_id o)
  | Cancel _ => None
  | Amend id new_price _ _ =>
      node ← order_lookup b !! id;
      o ← storage (order_pool b) !! node;
      if price_changed (price o) new_price then Some id else None
  end.

Definition stamp (n : nat) (c : call) (b b' : OrderBook)
    (arrival : gmap ptr nat) : gmap ptr nat :=
  match inserted_id c b with
  | Some id =>
      match order_lookup b' !! id with
      | Some p => <[p := n]> arrival
      | None => arrival
      end
  | None => arrival
  end.

Fixpoint run_stamped (n : nat) (cs : list call) (b : OrderBook)
    (arrival : gmap ptr nat) : option (OrderBook * gmap ptr nat) :=
  match cs with
  | [] => Some (b, arrival)
  | c :: cs' =>
      b' ← exec c b;
      run_stamped (S n) cs' b' (stamp n c b b' arrival)
  end.

(** [p] arrived before [q]. *)
Definition arrived_before (arrival : gmap ptr nat) (p q : ptr) : Prop :=
  exists tp tq, arrival !! p = Some tp /\ arrival !! q = Some tq /\ (tp < tq)%nat.

(** Every queue of a side is in order of arrival. *)
Definition side_arrivals (arrival : gmap ptr nat) (m : side_map) : Prop :=
  Forall (fun kl => StronglySorted (arrived_before arrival) (orders kl.2)) m.

Definition arrivals_ok (n : nat) (b : OrderBook) (arrival : gmap ptr nat)
  : Prop :=
  Forall (fun kl => StronglySorted (arrived_before arrival) (orders kl.2))
    (bid_levels b ++ ask_levels b)
  /\ forall p, p ∈ book_ptrs b -> exists t, arrival !! p = Some t /\ (t < n)%nat.

(** ** Worked books

    The additions of [OrderBookTester::run_basic_test], and the calls that
    follow them there. *)

Definition basic_test_adds : list call :=
  [ Add (mkOrder 1001 true 100 100 1000000);
    Add (mkOrder 1002 true 99.5 200 2000000);
    Add (mkOrder 1003 true 100 150 3000000);
    Add (mkOrder 1004 true 98 300 4000000);
    Add (mkOrder 2001 false 101 100 5000000);
    Add (mkOrder 2002 false 102 200 6000000);
    Add (mkOrder 2003 false 101 150 7000000);
    Add (mkOrder 2004 false 103.5 300 8000000) ].

Definition basic_test_calls : list call :=
  basic_test_adds
  ++ [ Cancel 1002; Amend 1003 100 500 9000000; Amend 2001 100.5 100 9500000 ].

Definition basic_book : OrderBook :=
  default empty_book (run basic_test_adds empty_book).

Definition basic_test_book : OrderBook :=
  default empty_book (run basic_test_calls empty_book).

(** Two buy orders of [2^63] units at one price. *)
Definition overflow_calls : list call :=
  [ Add (mkOrder 1 true 100 (2 ^ 63) 1); Add (mkOrder 2 true 100 (2 ^ 63) 2) ].

Definition overflow_book : OrderBook :=
  default empty_book (run overflow_calls empty_book).

(** Two buy orders under one identifier. *)
Definition duplicate_calls : list call :=
  [ Add (mkOrder 1 true 100 100 1); Add (mkOrder 1 true 100 5 2) ].

Definition duplicate_book : OrderBook :=
  default empty_book (run duplicate_calls empty_book).

(** A bid at [0.0] and an ask at the largest double. *)
Definition sentinel_calls : list call :=
  [ Add (mkOrder 1 true 0 10 1); Add (mkOrder 2 false double_max 10 2) ].

Definition sentinel_book : OrderBook :=
  default empty_book (run sentinel_calls empty_book).

(** ** The pool seen from the book *)

(** Number of slots handed out from the blocks, reused or not. *)
Definition issued_count (mp : MemoryPool) : nat :=
  ((blocks mp - 1) * BlockSize + current_index mp)%nat.

(** A slot of a block that the pool has allocated. *)
Definition in_block (mp : MemoryPool) (p : ptr) : Prop :=
  (p.1 < blocks mp)%nat /\ (p.2 < BlockSize)%nat.

Record pool_inv (b : OrderBook) : Prop := {
  pi_index : (current_index (order_pool b) <= BlockSize)%nat;
  pi_bounds : forall p,
    p ∈ book_ptrs b \/ p ∈ free_list (order_pool b) ->
    in_block (order_pool b) p;
  pi_count :
    (length (book_ptrs b) + length (free_list (order_pool b))
     = issued_count (order_pool b))%nat;
  pi_live : forall p,
    is_Some (storage (order_pool b) !! p) <-> p ∈ book_ptrs b;
  pi_counters :
    wrap64 (total_orders b - total_cancels b)
    = wrap64 (Z.of_nat (length (book_ptrs b)))
}.

(** [~OrderBook]: every node that the index names goes back to the pool.
    The order in which an [unordered_map] is iterated is unspecified; the
    order of the finite map is taken for it. *)
Definition destroy_book (b : OrderBook) : MemoryPool :=
  foldl (fun mp (ip : Z * ptr) => deallocate ip.2 mp) (order_pool b)
    (map_to_list (order_lookup b)).

(** ** What is printed

    [print_book] and [print_stats] write text; the values they write are
    kept, in the order of writing, without their formatting. *)

Record BookReport := mkReport {
  shown_asks : list PriceLevel;
  shown_spread : option float;
  shown_bids : list PriceLevel;
  shown_orders : nat;
  shown_bid_levels : nat;
  shown_ask_levels : nat
}.

Definition print_book (depth : nat) (b : OrderBook) : BookReport :=
  let '(bids, asks) := get_snapshot depth b in
  {| shown_asks := rev asks;
     shown_spread :=
       match bids, asks with
       | bid :: _, ask :: _ => Some (pl_price ask - pl_price bid)%float
       | _, _ => None
       end;
     shown_bids := bids;
     shown_orders := size (order_lookup b);
     shown_bid_levels := length (bid_levels b);
     shown_ask_levels := length (ask_levels b) |}.

Definition print_stats (b : OrderBook) : Z * Z * Z :=
  (total_orders b, total_cancels b, total_amends b).

(** ** Counting the calls of a run

    What each call of a run did, read off its return value: whether the
    cancellation or the amendment found its identifier, and whether the
    amendment took the price-changing path. *)

Definition cancel_found (id : Z) (b : OrderBook) : bool :=
  match cancel_order id b with
  | Some (true, _) => true
  | _ => false
  end.

Definition amend_found (id : Z) (new_price : float) (new_quantity now : Z)
    (b : OrderBook) : bool :=
  match amend_order id new_price new_quantity now b with
  | Some (true, _) => true
  | _ => false
  end.

(** Executions of [add_order], of the successful part of [cancel_order]
    and of [amend_order] during one call. *)
Definition tally_call (c : call) (b : OrderBook) : nat * nat * nat :=
  match c with
  | Add _ => (1, 0, 0)%nat
  | Cancel id => if cancel_found id b then (0, 1, 0)%nat else (0, 0, 0)%nat
  | Amend id new_price new_quantity now =>
      if amend_found id new_price new_quantity now b then
        match inserted_id c b with
        | Some _ => (1, 1, 1)%nat
        | None => (0, 0, 1)%nat
        end
      else (0, 0, 0)%nat
  end.

Fixpoint tally (cs : list call) (b : OrderBook) : nat * nat * nat :=
  match cs with
  | [] => (0, 0, 0)%nat
  | c :: cs' =>
      match exec c b with
      | Some b' =>
          let '(a, k, m) := tally_call c b in
          let '(a', k', m') := tally cs' b' in
          (a + a', k + k', m + m')%nat
      | None => (0, 0, 0)%nat
      end
  end.

(** [n] calls of [allocate] in a row: the slots returned and the pool
    left. *)
Fixpoint allocations (n : nat) (mp : MemoryPool) : list ptr * MemoryPool :=
  match n with
  | O => ([], mp)
  | S n' =>
      let '(p, mp1) := allocate mp in
      let '(ps, mp2) := allocations n' mp1 in
      (p :: ps, mp2)
  end.
(** * Properties *)

(** ** The order on doubles *)

Module FloatOrderFacts.
Import FloatOrder.

Lemma SFltb_key x y :
  sf_is_nan x = false -> sf_is_nan y = false ->
  SFltb x y = true <-> lex_lt (sf_key x) (sf_key y).
Proof.
  unfold SFltb.
  destruct x as [sx|sx| |sx mx ex], y as [sy|sy| |sy my ey]; try discriminate;
    intros _ _; try destruct sx; try destruct sy; cbn;
    try (split; [discriminate || lia | lia || discriminate]);
    try (split; [reflexivity || lia | reflexivity || lia]).
  all: change (Pos.compare_cont Eq mx my) with (Pos.compare mx my);
    destruct (Z.compare_spec ex ey); destruct (Pos.compare_spec mx my); cbn;
    split; intros; try discriminate; try reflexivity; try lia.
Qed.

Lemma SFltb_nan_l x y : sf_is_nan x = true -> SFltb x y = false.
Proof. destruct x; try discriminate. reflexivity. Qed.

Lemma SFltb_nan_r x y : sf_is_nan y = true -> SFltb x y = false.
Proof. destruct y; try discriminate. destruct x; reflexivity. Qed.

Lemma is_nan_spec x : is_nan x = sf_is_nan (Prim2SF x).
Proof.
  unfold is_nan. rewrite FloatAxioms.eqb_spec. unfold SFeqb.
  destruct (Prim2SF x) as [s|s| |s m e]; try destruct s; cbn; try reflexivity.
  all: rewrite Z.compare_refl; change (Pos.compare_cont Eq m m) with (Pos.compare m m);
    rewrite Pos.compare_refl; reflexivity.
Qed.

Lemma flt_key a b :
  not_nan a -> not_nan b ->
  flt a b = true <-> lex_lt (sf_key (Prim2SF a)) (sf_key (Prim2SF b)).
Proof.
  unfold not_nan, flt. rewrite !is_nan_spec, FloatAxioms.ltb_spec.
  apply SFltb_key.
Qed.

Lemma flt_numbers a b : flt a b = true -> not_nan a /\ not_nan b.
Proof.
  unfold not_nan, flt. rewrite !is_nan_spec, FloatAxioms.ltb_spec. intros H.
  split.
  - destruct (sf_is_nan (Prim2SF a)) eqn:E; [|reflexivity].
    rewrite SFltb_nan_l in H by assumption. discriminate.
  - destruct (sf_is_nan (Prim2SF b)) eqn:E; [|reflexivity].
    rewrite SFltb_nan_r in H by assumption. discriminate.
Qed.

Ltac lex_solve :=
  unfold lex_lt in *;
  repeat match goal with
         | |- context [sf_key ?x] => destruct (sf_key x) as [[? ?] ?]
         | H : context [sf_key ?x] |- _ => destruct (sf_key x) as [[? ?] ?]
         end; lia.

Lemma flt_irrefl a : flt a a = false.
Proof.
  destruct (flt a a) eqn:E; [|reflexivity].
  destruct (flt_numbers _ _ E) as [Ha _].
  apply flt_key in E; try assumption. lex_solve.
Qed.

Lemma flt_trans a b c : flt a b = true -> flt b c = true -> flt a c = true.
Proof.
  intros H1 H2.
  destruct (flt_numbers _ _ H1) as [Ha Hb], (flt_numbers _ _ H2) as [_ Hc].
  apply flt_key in H1, H2; try assumption. apply flt_key; try assumption.
  lex_solve.
Qed.

(** The numbers that [<] does not separate from [b] lie on one side of
    whatever [b] is separated from. *)
Lemma flt_cotrans a b c :
  not_nan b -> flt a c = true -> flt a b = true \/ flt b c = true.
Proof.
  intros Hb H. destruct (flt_numbers _ _ H) as [Ha Hc].
  apply flt_key in H; try assumption.
  destruct (flt a b) eqn:E1; [left; reflexivity|].
  destruct (flt b c) eqn:E2; [right; reflexivity|]. exfalso.
  assert (N1 : ~ lex_lt (sf_key (Prim2SF a)) (sf_key (Prim2SF b))).
  { intros K. apply flt_key in K; try assumption. congruence. }
  assert (N2 : ~ lex_lt (sf_key (Prim2SF b)) (sf_key (Prim2SF c))).
  { intros K. apply flt_key in K; try assumption. congruence. }
  lex_solve.
Qed.

Lemma sub_nan_r x y : sf_is_nan y = true -> sf_is_nan (SF64sub x y) = true.
Proof. destruct y; try discriminate. destruct x; reflexivity. Qed.

Lemma sub_nan_l x y : sf_is_nan x = true -> sf_is_nan (SF64sub x y) = true.
Proof. destruct x; try discriminate. reflexivity. Qed.

Lemma abs_nan x : sf_is_nan (SFabs x) = sf_is_nan x.
Proof. destruct x; reflexivity. Qed.

End FloatOrderFacts.

Import FloatOrderFacts.

(** A price that differs from another by more than the tolerance is a
    number, and so is the other: a NaN operand makes the comparison false. *)
Lemma price_changed_numbers old_price new_price :
  price_changed old_price new_price = true ->
  not_nan old_price /\ not_nan new_price.
Proof.
  unfold price_changed. intros H. apply flt_numbers in H as [_ H].
  unfold not_nan in *.
  rewrite is_nan_spec, FloatAxioms.abs_spec, abs_nan, FloatAxioms.sub_spec in H.
  rewrite !is_nan_spec. split.
  - destruct (sf_is_nan (Prim2SF old_price)) eqn:E; [|reflexivity].
    rewrite sub_nan_l in H by assumption. discriminate.
  - destruct (sf_is_nan (Prim2SF new_price)) eqn:E; [|reflexivity].
    rewrite sub_nan_r in H by assumption. discriminate.
Qed.

#[global] Instance less_strict_weak : StrictWeak less.
Proof.
  split; unfold less.
  - apply flt_irrefl.
  - apply flt_trans.
  - apply flt_cotrans.
  - apply flt_numbers.
Qed.

#[global] Instance greater_strict_weak : StrictWeak greater.
Proof.
  split; unfold greater.
  - apply flt_irrefl.
  - intros a b c H1 H2. exact (flt_trans _ _ _ H2 H1).
  - intros a b c Hb H. destruct (flt_cotrans _ _ _ Hb H); auto.
  - intros a b H. apply flt_numbers in H. tauto.
Qed.

(** ** Unsigned 64-bit arithmetic *)

Lemma wrap64_range z : in_u64 (wrap64 z).
Proof. unfold in_u64, wrap64, u64_modulus. apply Z.mod_pos_bound. lia. Qed.

Lemma wrap64_small z : in_u64 z -> wrap64 z = z.
Proof. unfold in_u64, wrap64. intros. apply Z.mod_small. assumption. Qed.

Lemma wrap64_idemp z : wrap64 (wrap64 z) = wrap64 z.
Proof. apply wrap64_small, wrap64_range. Qed.

Lemma wrap64_add_l a b : wrap64 (wrap64 a + b) = wrap64 (a + b).
Proof. unfold wrap64. apply Zplus_mod_idemp_l. Qed.

Lemma wrap64_add_r a b : wrap64 (a + wrap64 b) = wrap64 (a + b).
Proof. unfold wrap64. apply Zplus_mod_idemp_r. Qed.

Lemma wrap64_sub_l a b : wrap64 (wrap64 a - b) = wrap64 (a - b).
Proof. unfold wrap64. apply Zminus_mod_idemp_l. Qed.

Lemma sumZ_app l1 l2 : sumZ (l1 ++ l2) = sumZ l1 + sumZ l2.
Proof.
  induction l1 as [|x l1 IH]; [reflexivity|].
  change (x + sumZ (l1 ++ l2) = x + sumZ l1 + sumZ l2). rewrite IH. lia.
Qed.

(** ** Ordered maps *)

Section MapFacts.
Context (comp : float -> float -> bool) `{!StrictWeak comp}.

Lemma key_equiv_refl k : key_equiv comp k k.
Proof. split; apply sw_irrefl. Qed.

Lemma key_equiv_before a k k' :
  not_nan k -> key_equiv comp k k' -> comp a k' = true -> comp a k = true.
Proof.
  intros Hk [E1 E2] H. destruct (sw_cotrans a k k' Hk H) as [?|?]; congruence.
Qed.

Lemma key_equiv_after c k k' :
  not_nan k -> key_equiv comp k k' -> comp k' c = true -> comp k c = true.
Proof.
  intros Hk [E1 E2] H. destruct (sw_cotrans k' k c Hk H) as [?|?]; congruence.
Qed.

Lemma sorted_map_cons x m :
  sorted_map comp (x :: m) <-> Forall (key_lt comp x) m /\ sorted_map comp m.
Proof. apply StronglySorted_cons. Qed.

Lemma sorted_map_replace m1 k l l' m2 :
  sorted_map comp (m1 ++ (k, l) :: m2) -> sorted_map comp (m1 ++ (k, l') :: m2).
Proof.
  unfold sorted_map. rewrite !StronglySorted_app, !StronglySorted_cons.
  intros (H1 & H2 & H3 & H4). repeat split; try assumption.
  intros x1 x2 Hx1 Hx2. apply elem_of_cons in Hx2 as [->|Hx2].
  - apply (H1 x1 (k, l)); [assumption|left].
  - apply H1; [assumption|right; assumption].
Qed.

Lemma sorted_map_remove m1 x m2 :
  sorted_map comp (m1 ++ x :: m2) -> sorted_map comp (m1 ++ m2).
Proof.
  unfold sorted_map. rewrite !StronglySorted_app, !StronglySorted_cons.
  intros (H1 & H2 & H3 & H4). repeat split; try assumption.
  intros x1 x2 Hx1 Hx2. apply H1; [assumption|right; assumption].
Qed.

Lemma sorted_map_insert m1 x m2 :
  sorted_map comp (m1 ++ m2) ->
  Forall (fun y => key_lt comp y x) m1 ->
  Forall (key_lt comp x) m2 ->
  sorted_map comp (m1 ++ x :: m2).
Proof.
  unfold sorted_map. rewrite !StronglySorted_app, !StronglySorted_cons.
  intros (H1 & H2 & H3) B A. repeat split; try assumption.
  intros x1 x2 Hx1 Hx2. apply elem_of_cons in Hx2 as [->|Hx2].
  - rewrite Forall_forall in B. apply B. assumption.
  - apply H1; assumption.
Qed.

(** In a sorted map the entry whose key is equivalent to [k] is the one
    that [find], [operator[]] and the erasing update all reach. *)
Lemma map_find_at m1 k' l m2 k :
  sorted_map comp (m1 ++ (k', l) :: m2) -> not_nan k ->
  key_equiv comp k k' ->
  map_find comp k (m1 ++ (k', l) :: m2) = Some l.
Proof.
  intros S Hk E. induction m1 as [|[k1 l1] m1 IH]; cbn.
  - destruct E as [E1 E2]. rewrite E2, E1. reflexivity.
  - apply sorted_map_cons in S as [S1 S2].
    rewrite Forall_forall in S1.
    assert (C : comp k1 k' = true).
    { apply (S1 (k', l)). apply elem_of_app. right. left. }
    rewrite (key_equiv_before k1 k k' Hk E C). apply IH. assumption.
Qed.

Lemma map_find_apply_at m1 k' l m2 k g :
  sorted_map comp (m1 ++ (k', l) :: m2) -> not_nan k ->
  key_equiv comp k k' ->
  map_find_apply comp k g (m1 ++ (k', l) :: m2)
  = m1 ++ match g l with Some l' => (k', l') :: m2 | None => m2 end.
Proof.
  intros S Hk E. induction m1 as [|[k1 l1] m1 IH]; cbn.
  - destruct E as [E1 E2]. rewrite E2, E1. reflexivity.
  - apply sorted_map_cons in S as [S1 S2].
    rewrite Forall_forall in S1.
    assert (C : comp k1 k' = true).
    { apply (S1 (k', l)). apply elem_of_app. right. left. }
    rewrite (key_equiv_before k1 k k' Hk E C). f_equal. apply IH. assumption.
Qed.

(** [operator[]] either reaches the entry of an equivalent key, or
    inserts a fresh level between the keys before and after [k]. *)
Lemma map_subscript_spec k f m :
  sorted_map comp m ->
  (exists m1 k' l m2,
      m = m1 ++ (k', l) :: m2 /\ key_equiv comp k k'
      /\ map_subscript comp k f m = m1 ++ (k', f l) :: m2)
  \/ (exists m1 m2,
      m = m1 ++ m2
      /\ Forall (fun y => key_lt comp y (k, f (new_level k))) m1
      /\ Forall (key_lt comp (k, f (new_level k))) m2
      /\ map_subscript comp k f m = m1 ++ (k, f (new_level k)) :: m2).
Proof.
  induction m as [|[k1 l1] m IH]; intros S; cbn.
  - right. exists [], []. repeat split; constructor.
  - apply sorted_map_cons in S as [S1 S2].
    destruct (comp k1 k) eqn:C1.
    + destruct (IH S2) as [(m1 & k' & l & m2 & -> & E & R)
                          |(m1 & m2 & -> & B & A & R)].
      * left. exists ((k1, l1) :: m1), k', l, m2. rewrite R. auto.
      * right. exists ((k1, l1) :: m1), m2. rewrite R.
        repeat split; try assumption. constructor; assumption.
    + destruct (comp k k1) eqn:C2.
      * right. exists [], ((k1, l1) :: m). repeat split; try constructor.
        -- exact C2.
        -- eapply Forall_impl; [exact S1|]. intros [k2 l2] H.
           unfold key_lt in *; cbn in *. eapply sw_trans; eassumption.
      * left. exists [], k1, l1, m. repeat split; assumption.
Qed.

Lemma map_subscript_sorted k f m :
  sorted_map comp m -> sorted_map comp (map_subscript comp k f m).
Proof.
  intros S.
  destruct (map_subscript_spec k f m S)
    as [(m1 & k' & l & m2 & -> & E & ->)|(m1 & m2 & -> & B & A & ->)].
  - eapply sorted_map_replace; eassumption.
  - apply sorted_map_insert; assumption.
Qed.

(** The keys of a sorted map are pairwise inequivalent: no two levels of
    a side share a price. *)
Lemma sorted_map_keys_distinct m i j x y :
  sorted_map comp m -> m !! i = Some x -> m !! j = Some y ->
  (i < j)%nat -> comp x.1 y.1 = true /\ comp y.1 x.1 = false.
Proof.
  intros S Hi Hj Hij.
  assert (C : comp x.1 y.1 = true).
  { revert i j Hi Hj Hij. induction S as [|z m S IH F]; intros i j Hi Hj Hij.
    - discriminate.
    - destruct j as [|j]; [lia|]. destruct i as [|i]; cbn in *.
      + injection Hi as ->. rewrite Forall_forall in F. apply F.
        eapply list_elem_of_lookup_2. eassumption.
      + eapply IH; try eassumption. lia. }
  split; [assumption|].
  destruct (comp y.1 x.1) eqn:C'; [|reflexivity].
  pose proof (sw_trans _ _ _ C C') as K. rewrite sw_irrefl in K. discriminate.
Qed.
End MapFacts.

(** ** Queues and pointers *)

Lemma side_ptrs_app m1 m2 : side_ptrs (m1 ++ m2) = side_ptrs m1 ++ side_ptrs m2.
Proof. apply flat_map_app. Qed.

Lemma side_ptrs_cons k l m : side_ptrs ((k, l) :: m) = orders l ++ side_ptrs m.
Proof. reflexivity. Qed.

Lemma elem_of_side_ptrs p m :
  p ∈ side_ptrs m <->
  exists m1 k l m2, m = m1 ++ (k, l) :: m2 /\ p ∈ orders l.
Proof.
  split.
  - induction m as [|[k l] m IH]; intros H.
    + apply elem_of_nil in H. contradiction.
    + rewrite side_ptrs_cons in H. apply elem_of_app in H as [H|H].
      * exists [], k, l, m. auto.
      * destruct (IH H) as (m1 & k' & l' & m2 & -> & Hp).
        exists ((k, l) :: m1), k', l', m2. auto.
  - intros (m1 & k & l & m2 & -> & Hp).
    rewrite side_ptrs_app, side_ptrs_cons, !elem_of_app. auto.
Qed.

Lemma list_erase_snoc p q : p ∉ q -> list_erase p (q ++ [p]) = q.
Proof.
  induction q as [|x q IH]; intros H; cbn.
  - destruct (decide (p = p)); congruence.
  - apply not_elem_of_cons in H as [H1 H2].
    destruct (decide (x = p)); [congruence|]. rewrite IH; auto.
Qed.

Lemma list_erase_perm p q : p ∈ q -> q ≡ₚ p :: list_erase p q.
Proof.
  induction q as [|x q IH]; intros H; cbn.
  - apply elem_of_nil in H. contradiction.
  - destruct (decide (x = p)) as [->|N]; [reflexivity|].
    apply elem_of_cons in H as [->|H]; [congruence|].
    rewrite (IH H) at 1. apply Permutation_swap.
Qed.

(** Erasing a cell keeps the other cells in their order. *)
Lemma list_erase_sublist p q : list_erase p q `sublist_of` q.
Proof.
  induction q as [|x q IH]; cbn; [constructor|].
  destruct (decide (x = p)).
  - apply sublist_cons. reflexivity.
  - apply sublist_skip. assumption.
Qed.

Lemma elem_of_list_erase x p q : x ∈ list_erase p q -> x ∈ q.
Proof. intros H. eapply elem_of_sublist; [exact H|apply list_erase_sublist]. Qed.

Lemma list_erase_gone p q : NoDup q -> p ∉ list_erase p q.
Proof.
  induction q as [|x q IH]; intros N; cbn.
  - apply not_elem_of_nil.
  - apply NoDup_cons in N as [N1 N2].
    destruct (decide (x = p)) as [->|D]; [assumption|].
    apply not_elem_of_cons. split; [congruence|auto].
Qed.

Lemma sumZ_perm l1 l2 : l1 ≡ₚ l2 -> sumZ l1 = sumZ l2.
Proof.
  induction 1 as [|x l1 l2 _ IH|x y l|l1 l2 l3 _ IH1 _ IH2]; cbn.
  - reflexivity.
  - change (x + sumZ l1 = x + sumZ l2). lia.
  - change (y + (x + sumZ l) = x + (y + sumZ l)). lia.
  - congruence.
Qed.

Lemma queue_quantities_ext st st' q :
  (forall p, p ∈ q -> st' !! p = st !! p) ->
  queue_quantities st' q = queue_quantities st q.
Proof.
  intros H. unfold queue_quantities. apply map_ext_in. intros p Hp.
  unfold node_quantity. rewrite H; [reflexivity|].
  apply list_elem_of_In. assumption.
Qed.

Lemma queue_quantities_erase st p o q :
  p ∈ q -> st !! p = Some o ->
  sumZ (queue_quantities st q)
  = quantity o + sumZ (queue_quantities st (list_erase p q)).
Proof.
  intros Hp Ho. unfold queue_quantities.
  rewrite (sumZ_perm _ (map (node_quantity st) (p :: list_erase p q))).
  - cbn. unfold node_quantity at 1. rewrite Ho. reflexivity.
  - apply Permutation_map, list_erase_perm. assumption.
Qed.

Lemma queue_quantities_update st p o o' q :
  NoDup q -> p ∈ q -> st !! p = Some o ->
  sumZ (queue_quantities (<[p := o']> st) q)
  = sumZ (queue_quantities st q) - quantity o + quantity o'.
Proof.
  intros N Hp Ho.
  rewrite (queue_quantities_erase st p o q Hp Ho).
  rewrite (queue_quantities_erase (<[p := o']> st) p o' q Hp)
    by apply lookup_insert_eq.
  rewrite (queue_quantities_ext st (<[p := o']> st) (list_erase p q)); [lia|].
  intros x Hx. apply lookup_insert_ne. intros ->.
  exact (list_erase_gone _ _ N Hx).
Qed.

Section LevelFacts.
Context (comp : float -> float -> bool) `{!StrictWeak comp}.
Variable buy : bool.

Lemma node_ok_ext st st' k p :
  st' !! p = st !! p -> node_ok comp buy st k p -> node_ok comp buy st' k p.
Proof. intros E (o & H & R). exists o. rewrite E. auto. Qed.

Lemma level_ok_ext st st' kl :
  (forall p, p ∈ orders kl.2 -> st' !! p = st !! p) ->
  level_ok comp buy st kl -> level_ok comp buy st' kl.
Proof.
  intros E [H1 H2 H3 H4]. split; try assumption.
  - rewrite (queue_quantities_ext st st'); assumption.
  - rewrite Forall_forall in *. intros p Hp.
    apply (node_ok_ext st); auto.
Qed.

Lemma levels_ok_ext st st' m :
  (forall p, p ∈ side_ptrs m -> st' !! p = st !! p) ->
  Forall (level_ok comp buy st) m -> Forall (level_ok comp buy st') m.
Proof.
  intros E F. rewrite Forall_forall in *. intros [k l] Hkl.
  apply (level_ok_ext st); [|auto].
  intros p Hp. apply E. apply elem_of_side_ptrs.
  apply list_elem_of_split in Hkl as (m1 & m2 & ->). eauto 6.
Qed.

Lemma side_ok_ext st st' m :
  (forall p, p ∈ side_ptrs m -> st' !! p = st !! p) ->
  side_ok comp buy st m -> side_ok comp buy st' m.
Proof. intros E [S F]. split; [assumption|]. eapply levels_ok_ext; eauto. Qed.

(** A queued node is found under its own price. *)
Lemma side_ok_locate st m p :
  side_ok comp buy st m -> p ∈ side_ptrs m ->
  exists m1 k l m2 o,
    m = m1 ++ (k, l) :: m2 /\ p ∈ orders l /\ st !! p = Some o
    /\ is_buy o = buy /\ not_nan (price o) /\ key_equiv comp (price o) k.
Proof.
  intros [S F] Hp. apply elem_of_side_ptrs in Hp as (m1 & k & l & m2 & -> & Hp).
  rewrite Forall_app, Forall_cons in F. destruct F as (_ & [_ _ _ N] & _).
  rewrite Forall_forall in N. destruct (N p Hp) as (o & Ho & R).
  exists m1, k, l, m2, o. tauto.
Qed.
End LevelFacts.

Lemma perm_snoc_middle {A} (x : A) l1 l2 l3 :
  l1 ++ (l2 ++ [x]) ++ l3 ≡ₚ x :: l1 ++ l2 ++ l3.
Proof.
  rewrite <- (app_assoc l2 [x] l3). cbn.
  rewrite (app_assoc l1 l2 (x :: l3)), (app_assoc l1 l2 l3).
  symmetry. apply Permutation_middle.
Qed.

Lemma perm_erase_middle (p : ptr) l1 q l3 :
  p ∈ q -> l1 ++ q ++ l3 ≡ₚ p :: l1 ++ list_erase p q ++ l3.
Proof.
  intros H. rewrite (list_erase_perm p q H) at 1. cbn.
  symmetry. apply Permutation_middle.
Qed.

(** ** The three updates of a side *)

Section SideUpdates.
Context (comp : float -> float -> bool) `{!StrictWeak comp}.
Variable buy : bool.

Lemma add_to_side_ok st side p o :
  side_ok comp buy st side -> p ∉ side_ptrs side ->
  not_nan (price o) -> is_buy o = buy ->
  side_ok comp buy (<[p := o]> st) (add_to_side comp side p o)
  /\ side_ptrs (add_to_side comp side p o) ≡ₚ p :: side_ptrs side.
Proof.
  intros [S F] Hp Hn Hb. unfold add_to_side.
  assert (Ext : forall x, x ∈ side_ptrs side -> <[p := o]> st !! x = st !! x).
  { intros x Hx. apply lookup_insert_ne. intros ->. contradiction. }
  pose proof (levels_ok_ext comp buy st _ side Ext F) as F'.
  destruct (map_subscript_spec comp (price o)
              (fun level =>
                 {| level_price := price o;
                    total_quantity := wrap64 (total_quantity level + quantity o);
                    orders := orders level ++ [p] |}) side S)
    as [(m1 & k' & l & m2 & -> & E & ->)|(m1 & m2 & -> & B & A & ->)].
  - split; [split|].
    + eapply sorted_map_replace; eassumption.
    + rewrite Forall_app, Forall_cons in *.
      destruct F' as (F1 & [L1 L2 L3 L4] & F2). cbn in *.
      repeat split; try assumption; cbn.
      * intros C. apply app_eq_nil in C as [_ C]. discriminate.
      * rewrite L3. unfold queue_quantities. rewrite map_app, sumZ_app. cbn.
        unfold node_quantity at 3. rewrite lookup_insert_eq. cbn.
        rewrite wrap64_add_l. f_equal. lia.
      * apply Forall_app. split; [assumption|]. constructor; [|constructor].
        exists o. rewrite lookup_insert_eq. auto.
    + rewrite !side_ptrs_app, !side_ptrs_cons. cbn. apply perm_snoc_middle.
  - split; [split|].
    + apply sorted_map_insert; assumption.
    + rewrite Forall_app in *. destruct F' as [F1 F2].
      split; [assumption|]. constructor; [|assumption].
      split; cbn; try assumption; try discriminate.
      * unfold node_quantity. rewrite lookup_insert_eq. cbn.
        f_equal. lia.
      * constructor; [|constructor]. exists o. rewrite lookup_insert_eq.
        repeat split; try assumption; apply sw_irrefl.
    + rewrite !side_ptrs_app, !side_ptrs_cons. cbn.
      symmetry. apply Permutation_middle.
Qed.

(** The shape of a side after the removal of a queued node. *)
Lemma remove_from_side_shape st side p o :
  side_ok comp buy st side -> p ∈ side_ptrs side -> st !! p = Some o ->
  exists m1 k l m2,
    side = m1 ++ (k, l) :: m2 /\ p ∈ orders l /\ key_equiv comp (price o) k
    /\ not_nan (price o)
    /\ remove_from_side comp side p o
       = m1 ++ match list_erase p (orders l) with
               | [] => m2
               | x :: q =>
                   (k, {| level_price := level_price l;
                          total_quantity :=
                            wrap64 (total_quantity l - quantity o);
                          orders := x :: q |}) :: m2
               end.
Proof.
  intros Ok Hp Ho.
  destruct (side_ok_locate comp buy st side p Ok Hp)
    as (m1 & k & l & m2 & o' & -> & Hl & Ho' & _ & Hn & E).
  assert (o' = o) as -> by congruence.
  exists m1, k, l, m2. repeat split; try assumption; try apply E.
  unfold remove_from_side. destruct Ok as [S _].
  rewrite (map_find_apply_at comp m1 k l m2 (price o) _ S Hn E).
  destruct (list_erase p (orders l)); reflexivity.
Qed.

Lemma remove_from_side_ok st side p o :
  side_ok comp buy st side -> NoDup (side_ptrs side) ->
  p ∈ side_ptrs side -> st !! p = Some o ->
  side_ok comp buy (delete p st) (remove_from_side comp side p o)
  /\ side_ptrs side ≡ₚ p :: side_ptrs (remove_from_side comp side p o).
Proof.
  intros Ok N Hp Ho.
  destruct (remove_from_side_shape st side p o Ok Hp Ho)
    as (m1 & k & l & m2 & -> & Hl & E & Hn & ->).
  destruct Ok as [S F].
  assert (P : side_ptrs (m1 ++ (k, l) :: m2)
              ≡ₚ p :: side_ptrs m1 ++ list_erase p (orders l) ++ side_ptrs m2).
  { rewrite side_ptrs_app, side_ptrs_cons. apply perm_erase_middle, Hl. }
  assert (N' : NoDup (p :: side_ptrs m1 ++ list_erase p (orders l)
                        ++ side_ptrs m2)).
  { rewrite <- P. assumption. }
  apply NoDup_cons in N' as [Np N'].
  assert (Ext : forall x, x ∈ side_ptrs m1 ++ list_erase p (orders l)
                            ++ side_ptrs m2 ->
                          delete p st !! x = st !! x).
  { intros x Hx. apply lookup_delete_ne. intros ->. contradiction. }
  rewrite Forall_app, Forall_cons in F. destruct F as (F1 & [L1 L2 L3 L4] & F2).
  cbn in *.
  assert (F1' : Forall (level_ok comp buy (delete p st)) m1).
  { eapply levels_ok_ext; [|exact F1]. intros x Hx. apply Ext.
    rewrite elem_of_app. auto. }
  assert (F2' : Forall (level_ok comp buy (delete p st)) m2).
  { eapply levels_ok_ext; [|exact F2]. intros x Hx. apply Ext.
    rewrite !elem_of_app. auto. }
  destruct (list_erase p (orders l)) as [|x q] eqn:Eq.
  - split; [split|].
    + eapply sorted_map_remove; eassumption.
    + apply Forall_app. auto.
    + rewrite P, side_ptrs_app. reflexivity.
  - split; [split|].
    + eapply sorted_map_replace; eassumption.
    + apply Forall_app. split; [assumption|]. constructor; [|assumption].
      split; cbn [fst snd level_price total_quantity orders];
        try assumption; try discriminate.
      * rewrite L3, (queue_quantities_erase st p o (orders l) Hl Ho), Eq.
        rewrite (queue_quantities_ext st (delete p st) (x :: q)).
        -- rewrite wrap64_sub_l. f_equal. lia.
        -- intros y Hy. apply Ext. rewrite !elem_of_app. auto.
      * rewrite Forall_forall in *. intros y Hy.
        apply (node_ok_ext comp buy st).
        -- apply Ext. rewrite !elem_of_app. auto.
        -- apply L4. apply (elem_of_list_erase y p). rewrite Eq. assumption.
    + rewrite P, side_ptrs_app, side_ptrs_cons. reflexivity.
Qed.

(** The shape of a side after a quantity update in place. *)
Lemma update_quantity_in_place_shape st side p o new_quantity mp :
  side_ok comp buy st side -> p ∈ side_ptrs side -> st !! p = Some o ->
  exists m1 k l m2,
    side = m1 ++ (k, l) :: m2 /\ p ∈ orders l /\ key_equiv comp (price o) k
    /\ update_quantity_in_place comp side p o new_quantity mp
       = (m1 ++ (k, {| level_price := level_price l;
                       total_quantity :=
                         wrap64 (wrap64 (total_quantity l - quantity o)
                                 + new_quantity);
                       orders := orders l |}) :: m2,
          construct p (mkOrder (order_id o) (is_buy o) (price o) new_quantity
                               (timestamp_ns o)) mp).
Proof.
  intros Ok Hp Ho.
  destruct (side_ok_locate comp buy st side p Ok Hp)
    as (m1 & k & l & m2 & o' & -> & Hl & Ho' & _ & Hn & E).
  assert (o' = o) as -> by congruence.
  exists m1, k, l, m2. repeat split; try assumption; try apply E.
  unfold update_quantity_in_place. destruct Ok as [S _].
  rewrite (map_find_at comp m1 k l m2 (price o) S Hn E).
  rewrite (map_find_apply_at comp m1 k l m2 (price o) _ S Hn E).
  reflexivity.
Qed.

Lemma update_quantity_in_place_ok st side p o new_quantity mp :
  side_ok comp buy st side -> NoDup (side_ptrs side) ->
  p ∈ side_ptrs side -> st !! p = Some o -> storage mp = st ->
  let r := update_quantity_in_place comp side p o new_quantity mp in
  side_ok comp buy (storage r.2) r.1
  /\ side_ptrs r.1 = side_ptrs side
  /\ r.2 = construct p (mkOrder (order_id o) (is_buy o) (price o)
                                new_quantity (timestamp_ns o)) mp.
Proof.
  intros Ok N Hp Ho Hst.
  destruct (update_quantity_in_place_shape st side p o new_quantity mp
              Ok Hp Ho) as (m1 & k & l & m2 & -> & Hl & E & ->).
  cbn. rewrite Hst. set (o' := mkOrder _ _ _ _ _).
  destruct (side_ok_locate comp buy st _ p Ok Hp)
    as (_ & _ & _ & _ & o2 & _ & _ & Ho2 & Hb & Hn & _).
  assert (o2 = o) as -> by congruence.
  destruct Ok as [S F].
  rewrite side_ptrs_app, side_ptrs_cons in N.
  apply NoDup_app in N as (N1 & N2 & N3). apply NoDup_app in N3 as (N3 & N4 & N5).
  rewrite Forall_app, Forall_cons in F. destruct F as (F1 & [L1 L2 L3 L4] & F2).
  cbn in *.
  split; [split|split].
  - eapply sorted_map_replace; eassumption.
  - apply Forall_app. split; [|constructor].
    + eapply levels_ok_ext; [|exact F1]. intros x Hx.
      apply lookup_insert_ne. intros ->. apply (N2 x Hx).
      rewrite elem_of_app. auto.
    + split; cbn [fst snd level_price total_quantity orders];
        try assumption.
      * rewrite (queue_quantities_update st p o o' (orders l) N3 Hl Ho), L3.
        rewrite wrap64_sub_l, wrap64_add_l. reflexivity.
      * rewrite Forall_forall in *. intros y Hy.
        destruct (decide (y = p)) as [->|D].
        -- exists o'. rewrite lookup_insert_eq. cbn.
           repeat split; try assumption; apply E.
        -- apply (node_ok_ext comp buy st); [|auto].
           apply lookup_insert_ne. congruence.
    + eapply levels_ok_ext; [|exact F2]. intros x Hx.
      apply lookup_insert_ne. intros ->. apply (N4 x Hl Hx).
  - rewrite !side_ptrs_app, !side_ptrs_cons. reflexivity.
  - reflexivity.
Qed.
End SideUpdates.

(** ** The pool *)

Lemma allocate_spec mp p mp' :
  allocate mp = (p, mp') ->
  NoDup (free_list mp) -> (1 <= blocks mp)%nat ->
  storage mp' = storage mp
  /\ (forall q, issued mp q -> issued mp' q)
  /\ NoDup (free_list mp')
  /\ (p ∉ free_list mp')
  /\ (forall q, q ∈ free_list mp' -> q ∈ free_list mp)
  /\ (p ∈ free_list mp \/ (issued mp' p /\ ~ issued mp p))
  /\ (1 <= blocks mp')%nat.
Proof.
  unfold allocate. intros A N B. destruct (free_list mp) as [|x rest] eqn:Fl.
  - destruct (BlockSize <=? current_index mp)%nat eqn:Full;
      injection A as <- <-; unfold issued; cbn; rewrite ?Fl;
      (repeat split;
       [ intros; lia | constructor | apply not_elem_of_nil
       | intros q Hq; apply elem_of_nil in Hq; contradiction
       | right; lia | lia ]).
  - injection A as <- <-. apply NoDup_cons in N as [N1 N2].
    unfold issued; cbn.
    repeat split; try assumption; try tauto.
    + intros q Hq. right. assumption.
    + left. left.
Qed.

(** ** Preservation of the invariant *)

Lemma book_inv_empty : book_inv empty_book.
Proof.
  split; cbn.
  - split; constructor.
  - split; constructor.
  - constructor.
  - intros i q H. rewrite lookup_empty in H. discriminate.
  - constructor.
  - intros q H. apply elem_of_nil in H. contradiction.
  - intros q [H|H]; apply elem_of_nil in H; contradiction.
  - lia.
Qed.

Lemma allocate_fresh b p mp' :
  book_inv b -> allocate (order_pool b) = (p, mp') -> p ∉ book_ptrs b.
Proof.
  intros I A.
  destruct (allocate_spec _ _ _ A (inv_free_nodup b I) (inv_blocks b I))
    as (_ & _ & _ & _ & _ & [Hf|[_ Hn]] & _).
  - apply (inv_free b I). assumption.
  - intros Hp. apply Hn. apply (inv_issued b I). auto.
Qed.

Lemma add_order_ptrs o b :
  book_inv b -> not_nan (price o) ->
  book_ptrs (add_order o b) ≡ₚ (allocate (order_pool b)).1 :: book_ptrs b.
Proof.
  intros I Hn. unfold add_order.
  destruct (allocate (order_pool b)) as [p mp'] eqn:A.
  pose proof (allocate_fresh b p mp' I A) as Fr.
  unfold book_ptrs in *. rewrite not_elem_of_app in Fr. destruct Fr as [Fb Fa].
  cbn. destruct (is_buy o) eqn:Hb.
  - destruct (add_to_side_ok greater true _ _ p o (inv_bids b I) Fb Hn Hb)
      as [_ P]. rewrite P. reflexivity.
  - destruct (add_to_side_ok less false _ _ p o (inv_asks b I) Fa Hn Hb)
      as [_ P]. rewrite P. symmetry. apply Permutation_middle.
Qed.

Lemma add_order_fields o b p mp' :
  allocate (order_pool b) = (p, mp') ->
  order_pool (add_order o b) = construct p o mp'
  /\ bid_levels (add_order o b)
     = (if is_buy o then add_to_side greater (bid_levels b) p o
        else bid_levels b)
  /\ ask_levels (add_order o b)
     = (if is_buy o then ask_levels b
        else add_to_side less (ask_levels b) p o)
  /\ order_lookup (add_order o b) = <[order_id o := p]> (order_lookup b)
  /\ total_orders (add_order o b) = wrap64 (total_orders b + 1)
  /\ total_cancels (add_order o b) = total_cancels b
  /\ total_amends (add_order o b) = total_amends b.
Proof. intros A. unfold add_order. rewrite A. cbn. tauto. Qed.

Lemma add_order_index o b :
  order_lookup (add_order o b)
  = <[order_id o := (allocate (order_pool b)).1]> (order_lookup b)
  /\ storage (order_pool (add_order o b))
     = <[(allocate (order_pool b)).1 := o]> (storage (order_pool b)).
Proof.
  unfold add_order, allocate.
  destruct (free_list (order_pool b)); [|cbn; auto].
  destruct (BlockSize <=? current_index (order_pool b))%nat; cbn; auto.
Qed.

Lemma add_order_inv o b :
  book_inv b -> not_nan (price o) -> book_inv (add_order o b).
Proof.
  intros I Hn.
  pose proof (add_order_ptrs o b I Hn) as P.
  destruct (allocate (order_pool b)) as [p mp'] eqn:A. cbn [fst] in P.
  destruct (add_order_fields o b p mp' A) as (Ep & Eb & Ea & El & _).
  pose proof (allocate_fresh b p mp' I A) as Fr.
  destruct (allocate_spec _ _ _ A (inv_free_nodup b I) (inv_blocks b I))
    as (St & Iss & Nd & Pf & Sub & Pi & Bl).
  assert (Ext : forall x, x ∈ book_ptrs b ->
                          <[p := o]> (storage mp') !! x = storage (order_pool b) !! x).
  { intros x Hx. rewrite St. apply lookup_insert_ne. intros ->. contradiction. }
  assert (Fb : p ∉ side_ptrs (bid_levels b)).
  { intros H. apply Fr. unfold book_ptrs. rewrite elem_of_app. auto. }
  assert (Fa : p ∉ side_ptrs (ask_levels b)).
  { intros H. apply Fr. unfold book_ptrs. rewrite elem_of_app. auto. }
  split; rewrite ?Ep, ?Eb, ?Ea, ?El; cbn [construct storage free_list].
  - destruct (is_buy o) eqn:Hb.
    + rewrite St. apply (add_to_side_ok greater true); try assumption.
      apply (inv_bids b I).
    + eapply (side_ok_ext greater); [|apply (inv_bids b I)].
      intros x Hx. apply Ext. unfold book_ptrs. rewrite elem_of_app. auto.
  - destruct (is_buy o) eqn:Hb.
    + eapply (side_ok_ext less); [|apply (inv_asks b I)].
      intros x Hx. apply Ext. unfold book_ptrs. rewrite elem_of_app. auto.
    + rewrite St. apply (add_to_side_ok less false); try assumption.
      apply (inv_asks b I).
  - rewrite P. apply NoDup_cons. split; [assumption|apply (inv_nodup b I)].
  - intros id q Hq. rewrite P.
    destruct (decide (id = order_id o)) as [->|D].
    + rewrite lookup_insert_eq in Hq. injection Hq as <-.
      split; [left|]. exists o. rewrite lookup_insert_eq. auto.
    + rewrite lookup_insert_ne in Hq by congruence.
      destruct (inv_index b I id q Hq) as (Hin & o' & Ho' & Hid).
      split; [right; assumption|]. exists o'. rewrite Ext; auto.
  - assumption.
  - intros q Hq. rewrite P.
    apply not_elem_of_cons. split; [intros ->; contradiction|].
    apply (inv_free b I), Sub, Hq.
  - intros q. rewrite P.
    change (issued (construct p o mp') q) with (issued mp' q). intros [Hq|Hq].
    + apply elem_of_cons in Hq as [->|Hq].
      * destruct Pi as [Hf|[Hi _]]; [|exact Hi].
        apply Iss, (inv_issued b I). auto.
      * apply Iss, (inv_issued b I). auto.
    + apply Iss, (inv_issued b I). right. apply Sub, Hq.
  - assumption.
Qed.

Lemma side_of_node b p o :
  book_inv b -> p ∈ book_ptrs b -> storage (order_pool b) !! p = Some o ->
  if is_buy o
  then p ∈ side_ptrs (bid_levels b) /\ p ∉ side_ptrs (ask_levels b)
  else p ∈ side_ptrs (ask_levels b) /\ p ∉ side_ptrs (bid_levels b).
Proof.
  intros I Hp Ho. pose proof (inv_nodup b I) as N. unfold book_ptrs in *.
  apply NoDup_app in N as (_ & N & _). apply elem_of_app in Hp as [Hp|Hp].
  - destruct (side_ok_locate greater true _ _ p (inv_bids b I) Hp)
      as (_ & _ & _ & _ & o' & _ & _ & Ho' & Hb & _).
    assert (o' = o) as -> by congruence. rewrite Hb. auto.
  - destruct (side_ok_locate less false _ _ p (inv_asks b I) Hp)
      as (_ & _ & _ & _ & o' & _ & _ & Ho' & Hb & _).
    assert (o' = o) as -> by congruence. rewrite Hb. split; [assumption|].
    intros H. exact (N p H Hp).
Qed.

(** The book after the cancellation of the node [p] holding [o]. *)
Lemma cancel_order_resting id b p o :
  order_lookup b !! id = Some p -> storage (order_pool b) !! p = Some o ->
  cancel_order id b
  = Some (true,
          {| order_pool := deallocate p (order_pool b);
             bid_levels := if is_buy o
                           then remove_from_side greater (bid_levels b) p o
                           else bid_levels b;
             ask_levels := if is_buy o then ask_levels b
                           else remove_from_side less (ask_levels b) p o;
             order_lookup := delete id (order_lookup b);
             total_orders := total_orders b;
             total_cancels := wrap64 (total_cancels b + 1);
             total_amends := total_amends b |}).
Proof. intros Hl Ho. unfold cancel_order. rewrite Hl, Ho. reflexivity. Qed.

Lemma cancel_order_unknown id b :
  order_lookup b !! id = None -> cancel_order id b = Some (false, b).
Proof. intros Hl. unfold cancel_order. rewrite Hl. reflexivity. Qed.

Lemma cancel_order_total id b :
  book_inv b -> exists r b', cancel_order id b = Some (r, b').
Proof.
  intros I. destruct (order_lookup b !! id) as [p|] eqn:Hl.
  - destruct (inv_index b I id p Hl) as (_ & o & Ho & _).
    rewrite (cancel_order_resting id b p o Hl Ho). eauto.
  - rewrite (cancel_order_unknown id b Hl). eauto.
Qed.

Lemma cancel_order_ptrs id b p b' :
  book_inv b -> order_lookup b !! id = Some p ->
  cancel_order id b = Some (true, b') ->
  book_ptrs b ≡ₚ p :: book_ptrs b'.
Proof.
  intros I Hl C. destruct (inv_index b I id p Hl) as (Hp & o & Ho & Hid).
  rewrite (cancel_order_resting id b p o Hl Ho) in C. injection C as <-.
  pose proof (side_of_node b p o I Hp Ho) as Sd.
  pose proof (inv_nodup b I) as N. unfold book_ptrs in *.
  cbn [bid_levels ask_levels].
  apply NoDup_app in N as (Nb & _ & Na).
  destruct (is_buy o).
  - destruct Sd as [Sb _].
    destruct (remove_from_side_ok greater true _ _ p o (inv_bids b I) Nb Sb Ho)
      as [_ P]. rewrite P. reflexivity.
  - destruct Sd as [Sa _].
    destruct (remove_from_side_ok less false _ _ p o (inv_asks b I) Na Sa Ho)
      as [_ P]. rewrite P. symmetry. apply Permutation_middle.
Qed.

Lemma cancel_order_inv id b r b' :
  book_inv b -> cancel_order id b = Some (r, b') -> book_inv b'.
Proof.
  intros I C. destruct (order_lookup b !! id) as [p|] eqn:Hl.
  2:{ rewrite (cancel_order_unknown id b Hl) in C. congruence. }
  destruct (inv_index b I id p Hl) as (Hp & o & Ho & Hid).
  assert (r = true) as ->.
  { rewrite (cancel_order_resting id b p o Hl Ho) in C. congruence. }
  pose proof (cancel_order_ptrs id b p b' I Hl C) as P.
  rewrite (cancel_order_resting id b p o Hl Ho) in C. injection C as <-.
  pose proof (side_of_node b p o I Hp Ho) as Sd.
  pose proof (inv_nodup b I) as N.
  assert (N' := N). rewrite P in N'. apply NoDup_cons in N' as [Np N'].
  unfold book_ptrs in N. apply NoDup_app in N as (Nb & Nba & Na).
  set (b' := mkBook _ _ _ _ _ _ _) in *.
  assert (Ext : forall x, x ∈ book_ptrs b' ->
                  delete p (storage (order_pool b)) !! x
                  = storage (order_pool b) !! x).
  { intros x Hx. apply lookup_delete_ne. intros ->. contradiction. }
  split; cbn [b' order_pool bid_levels ask_levels order_lookup deallocate
                storage free_list].
  - destruct (is_buy o).
    + apply (remove_from_side_ok greater true); try tauto. apply (inv_bids b I).
    + eapply (side_ok_ext greater); [|apply (inv_bids b I)].
      intros x Hx. apply lookup_delete_ne. intros ->. tauto.
  - destruct (is_buy o).
    + eapply (side_ok_ext less); [|apply (inv_asks b I)].
      intros x Hx. apply lookup_delete_ne. intros ->. tauto.
    + apply (remove_from_side_ok less false); try tauto. apply (inv_asks b I).
  - exact N'.
  - intros id' q Hq.
    destruct (decide (id' = id)) as [->|D].
    { rewrite lookup_delete_eq in Hq. discriminate. }
    rewrite lookup_delete_ne in Hq by congruence.
    destruct (inv_index b I id' q Hq) as (Hin & o' & Ho' & Hid').
    assert (q <> p) by (intros ->; congruence).
    assert (Hq' : q ∈ book_ptrs b').
    { rewrite P in Hin. apply elem_of_cons in Hin as [?|?]; [congruence|auto]. }
    split; [exact Hq'|]. exists o'. rewrite Ext; auto.
  - apply NoDup_cons. split; [|apply (inv_free_nodup b I)].
    intros Hf. exact (inv_free b I p Hf Hp).
  - intros q Hq. apply elem_of_cons in Hq as [->|Hq]; [assumption|].
    intros Hq'. apply (inv_free b I q Hq). rewrite P. right. assumption.
  - intros q Hq.
    change (issued (deallocate p (order_pool b)) q) with (issued (order_pool b) q).
    apply (inv_issued b I). destruct Hq as [Hq|Hq].
    + left. rewrite P. right. assumption.
    + apply elem_of_cons in Hq as [->|Hq]; auto.
  - apply (inv_blocks b I).
Qed.

Lemma bump_amends_inv b : book_inv b -> book_inv (bump_amends b).
Proof. intros [? ? ? ? ? ? ? ?]. split; assumption. Qed.

Lemma amend_order_unknown id new_price new_quantity now b :
  order_lookup b !! id = None ->
  amend_order id new_price new_quantity now b = Some (false, b).
Proof. intros Hl. unfold amend_order. rewrite Hl. reflexivity. Qed.

(** The price-changing path: the cancellation, then the addition of the
    re-priced order. *)
Lemma amend_order_price_path id new_price new_quantity now b p o b1 :
  order_lookup b !! id = Some p -> storage (order_pool b) !! p = Some o ->
  price_changed (price o) new_price = true ->
  cancel_order id b = Some (true, b1) ->
  amend_order id new_price new_quantity now b
  = Some (true,
          bump_amends
            (add_order (mkOrder (order_id o) (is_buy o) new_price new_quantity
                                now) b1)).
Proof.
  intros Hl Ho Hc C. unfold amend_order. rewrite Hl, Ho.
  cbn [mbind option_bind]. rewrite Hc, C. reflexivity.
Qed.

Lemma amend_order_quantity_path id new_price new_quantity now b p o :
  order_lookup b !! id = Some p -> storage (order_pool b) !! p = Some o ->
  price_changed (price o) new_price = false ->
  amend_order id new_price new_quantity now b
  = Some (true, bump_amends (amended_in_place b p o new_quantity)).
Proof.
  intros Hl Ho Hc. unfold amend_order.
  rewrite Hl, Ho. cbn [mbind option_bind]. rewrite Hc. reflexivity.
Qed.

Lemma amended_in_place_inv b id p o new_quantity :
  book_inv b -> order_lookup b !! id = Some p ->
  storage (order_pool b) !! p = Some o ->
  book_inv (amended_in_place b p o new_quantity)
  /\ book_ptrs (amended_in_place b p o new_quantity) = book_ptrs b
  /\ order_pool (amended_in_place b p o new_quantity)
     = construct p (mkOrder (order_id o) (is_buy o) (price o) new_quantity
                            (timestamp_ns o)) (order_pool b).
Proof.
  intros I Hl Ho. destruct (inv_index b I id p Hl) as (Hp & _).
  pose proof (side_of_node b p o I Hp Ho) as Sd.
  pose proof (inv_nodup b I) as N. unfold book_ptrs in N.
  apply NoDup_app in N as (Nb & Nba & Na).
  unfold amended_in_place.
  set (o' := mkOrder _ _ _ _ _).
  assert (Pool : forall c s, s = (if is_buy o then bid_levels b else ask_levels b) ->
            side_ok c (is_buy o) (storage (order_pool b)) s ->
            StrictWeak c -> NoDup (side_ptrs s) -> p ∈ side_ptrs s ->
            let r := update_quantity_in_place c s p o new_quantity (order_pool b) in
            side_ok c (is_buy o) (<[p := o']> (storage (order_pool b))) r.1
            /\ side_ptrs r.1 = side_ptrs s /\ r.2 = construct p o' (order_pool b)).
  { intros c s _ Ok SW Ns Hs.
    destruct (update_quantity_in_place_ok c (is_buy o) _ s p o new_quantity
                (order_pool b) Ok Ns Hs Ho eq_refl) as (K1 & K2 & K3).
    cbn zeta. rewrite K3 in K1. auto. }
  assert (Rest : forall q, q ∈ book_ptrs b \/ q ∈ free_list (order_pool b) ->
                   issued (order_pool b) q) by apply (inv_issued b I).
  destruct (is_buy o) eqn:Hb.
  - destruct Sd as [Sb Sa].
    destruct (Pool greater (bid_levels b) eq_refl (inv_bids b I) _ Nb Sb)
      as (K1 & K2 & K3).
    split; [|split].
    + split; cbn [order_pool bid_levels ask_levels order_lookup];
        rewrite ?K3; cbn [construct storage free_list]; try apply I.
      * exact K1.
      * eapply (side_ok_ext less); [|apply (inv_asks b I)].
        intros x Hx. apply lookup_insert_ne. intros ->. contradiction.
      * unfold book_ptrs. cbn [bid_levels ask_levels]. rewrite K2. apply I.
      * intros id' q Hq. unfold book_ptrs. cbn [bid_levels ask_levels].
        rewrite K2. destruct (inv_index b I id' q Hq) as (Hin & o2 & Ho2 & Hid).
        split; [exact Hin|]. destruct (decide (q = p)) as [->|D].
        -- exists o'. rewrite lookup_insert_eq. split; [reflexivity|].
           cbn. congruence.
        -- exists o2. rewrite lookup_insert_ne by congruence. auto.
      * intros q Hq. unfold book_ptrs. cbn [bid_levels ask_levels].
        rewrite K2. apply (inv_free b I q Hq).
      * intros q. unfold book_ptrs. cbn [bid_levels ask_levels].
        rewrite K2. apply Rest.
    + unfold book_ptrs. cbn [bid_levels ask_levels]. rewrite K2. reflexivity.
    + exact K3.
  - destruct Sd as [Sa Sb].
    destruct (Pool less (ask_levels b) eq_refl (inv_asks b I) _ Na Sa)
      as (K1 & K2 & K3).
    split; [|split].
    + split; cbn [order_pool bid_levels ask_levels order_lookup];
        rewrite ?K3; cbn [construct storage free_list]; try apply I.
      * eapply (side_ok_ext greater); [|apply (inv_bids b I)].
        intros x Hx. apply lookup_insert_ne. intros ->. contradiction.
      * exact K1.
      * unfold book_ptrs. cbn [bid_levels ask_levels]. rewrite K2. apply I.
      * intros id' q Hq. unfold book_ptrs. cbn [bid_levels ask_levels].
        rewrite K2. destruct (inv_index b I id' q Hq) as (Hin & o2 & Ho2 & Hid).
        split; [exact Hin|]. destruct (decide (q = p)) as [->|D].
        -- exists o'. rewrite lookup_insert_eq. split; [reflexivity|].
           cbn. congruence.
        -- exists o2. rewrite lookup_insert_ne by congruence. auto.
      * intros q Hq. unfold book_ptrs. cbn [bid_levels ask_levels].
        rewrite K2. apply (inv_free b I q Hq).
      * intros q. unfold book_ptrs. cbn [bid_levels ask_levels].
        rewrite K2. apply Rest.
    + unfold book_ptrs. cbn [bid_levels ask_levels]. rewrite K2. reflexivity.
    + exact K3.
Qed.

Lemma amend_order_total id new_price new_quantity now b :
  book_inv b -> exists r b', amend_order id new_price new_quantity now b = Some (r, b').
Proof.
  intros I. destruct (order_lookup b !! id) as [p|] eqn:Hl.
  - destruct (inv_index b I id p Hl) as (_ & o & Ho & _).
    destruct (price_changed (price o) new_price) eqn:Hc.
    + pose proof (cancel_order_resting id b p o Hl Ho) as C.
      rewrite (amend_order_price_path _ _ _ _ _ _ _ _ Hl Ho Hc C). eauto.
    + rewrite (amend_order_quantity_path _ _ _ _ _ _ _ Hl Ho Hc). eauto.
  - rewrite (amend_order_unknown _ _ _ _ _ Hl). eauto.
Qed.

Lemma amend_order_inv id new_price new_quantity now b r b' :
  book_inv b -> amend_order id new_price new_quantity now b = Some (r, b') ->
  book_inv b'.
Proof.
  intros I A. destruct (order_lookup b !! id) as [p|] eqn:Hl.
  2:{ rewrite (amend_order_unknown _ _ _ _ _ Hl) in A. congruence. }
  destruct (inv_index b I id p Hl) as (_ & o & Ho & _).
  destruct (price_changed (price o) new_price) eqn:Hc.
  - pose proof (cancel_order_resting id b p o Hl Ho) as C.
    rewrite (amend_order_price_path _ _ _ _ _ _ _ _ Hl Ho Hc C) in A.
    injection A as _ <-. apply bump_amends_inv, add_order_inv.
    + eapply cancel_order_inv; eassumption.
    + cbn. apply price_changed_numbers in Hc. tauto.
  - rewrite (amend_order_quantity_path _ _ _ _ _ _ _ Hl Ho Hc) in A.
    injection A as _ <-. apply bump_amends_inv.
    eapply amended_in_place_inv; eassumption.
Qed.

(** ** Reachable books *)

Lemma exec_inv c b b' :
  book_inv b -> valid_call c -> exec c b = Some b' -> book_inv b'.
Proof.
  intros I V E. destruct c as [o|id|id np nq now]; cbn in E.
  - injection E as <-. apply add_order_inv; [assumption|]. apply V.
  - destruct (cancel_order id b) as [[r b1]|] eqn:C; [|discriminate].
    injection E as <-. eapply cancel_order_inv; eassumption.
  - destruct (amend_order id np nq now b) as [[r b1]|] eqn:C; [|discriminate].
    injection E as <-. eapply amend_order_inv; eassumption.
Qed.

Lemma exec_total c b : book_inv b -> exists b', exec c b = Some b'.
Proof.
  intros I. destruct c as [o|id|id np nq now]; cbn.
  - eauto.
  - destruct (cancel_order_total id b I) as (r & b' & ->). cbn. eauto.
  - destruct (amend_order_total id np nq now b I) as (r & b' & ->). cbn. eauto.
Qed.

Lemma run_inv cs b b' :
  book_inv b -> Forall valid_call cs -> run cs b = Some b' -> book_inv b'.
Proof.
  revert b. induction cs as [|c cs IH]; intros b I V R; cbn in R.
  - congruence.
  - apply Forall_cons in V as [V1 V2].
    destruct (exec c b) as [b1|] eqn:E; [|discriminate]. cbn in R.
    eapply IH; [|eassumption|eassumption]. eapply exec_inv; eassumption.
Qed.

Lemma reachable_inv b : reachable b -> book_inv b.
Proof.
  intros (cs & V & R). eapply run_inv; [apply book_inv_empty|eassumption..].
Qed.

(** Every call returns on a book that satisfies the invariant: no sequence
    of valid calls from the empty book ever reads a slot without object. *)
Lemma run_total cs b :
  book_inv b -> Forall valid_call cs -> exists b', run cs b = Some b'.
Proof.
  revert b. induction cs as [|c cs IH]; intros b I V; cbn.
  - eauto.
  - apply Forall_cons in V as [V1 V2].
    destruct (exec_total c b I) as (b1 & E). rewrite E. cbn.
    apply IH; [|assumption]. eapply exec_inv; eassumption.
Qed.

(** ** Snapshots *)

Lemma snapshot_side_take depth count m :
  snapshot_side depth count m
  = take (depth - count)
      (map (fun kl => mkPriceLevel kl.1 (total_quantity kl.2)) m).
Proof.
  revert count. induction m as [|[p l] m IH]; intros count; cbn.
  - rewrite take_nil. reflexivity.
  - destruct (depth <=? count)%nat eqn:E.
    + apply Nat.leb_le in E. replace (depth - count)%nat with 0%nat by lia.
      reflexivity.
    + apply Nat.leb_gt in E. rewrite IH.
      replace (depth - count)%nat with (S (depth - S count)) by lia.
      reflexivity.
Qed.

(** [get_snapshot] returns the first [depth] levels of each side in the
    iteration order of the maps, and all of them when there are fewer. *)
Lemma get_snapshot_take depth b :
  get_snapshot depth b
  = (take depth (map (fun kl => mkPriceLevel kl.1 (total_quantity kl.2))
                   (bid_levels b)),
     take depth (map (fun kl => mkPriceLevel kl.1 (total_quantity kl.2))
                   (ask_levels b))).
Proof.
  unfold get_snapshot. rewrite !snapshot_side_take, Nat.sub_0_r. reflexivity.
Qed.

(** ** Stored quantities *)

Lemma quantities_ok_insert st p o :
  quantities_ok st -> in_u64 (quantity o) -> quantities_ok (<[p := o]> st).
Proof.
  intros Q Ho q o' H. destruct (decide (q = p)) as [->|D].
  - rewrite lookup_insert_eq in H. congruence.
  - rewrite lookup_insert_ne in H by congruence. eapply Q, H.
Qed.

Lemma quantities_ok_delete st p : quantities_ok st -> quantities_ok (delete p st).
Proof.
  intros Q q o H. apply lookup_delete_Some in H as [_ H]. eapply Q, H.
Qed.

Lemma add_order_quantities o b :
  quantities_ok (storage (order_pool b)) -> in_u64 (quantity o) ->
  quantities_ok (storage (order_pool (add_order o b))).
Proof.
  intros Q Ho. destruct (add_order_index o b) as [_ ->].
  apply quantities_ok_insert; assumption.
Qed.

Lemma cancel_order_quantities id b r b' :
  quantities_ok (storage (order_pool b)) ->
  cancel_order id b = Some (r, b') ->
  quantities_ok (storage (order_pool b')).
Proof.
  intros Q C. unfold cancel_order in C.
  destruct (order_lookup b !! id) as [p|]; [|injection C as _ <-; exact Q].
  destruct (storage (order_pool b) !! p) as [o|]; [|discriminate].
  cbn in C. injection C as _ <-. cbn. apply quantities_ok_delete, Q.
Qed.

Lemma amended_in_place_quantities b p o new_quantity :
  quantities_ok (storage (order_pool b)) -> in_u64 new_quantity ->
  quantities_ok (storage (order_pool (amended_in_place b p o new_quantity))).
Proof.
  intros Q Hq. unfold amended_in_place, update_quantity_in_place.
  destruct (is_buy o).
  - destruct (map_find greater (price o) (bid_levels b)); cbn; [|exact Q].
    apply quantities_ok_insert; assumption.
  - destruct (map_find less (price o) (ask_levels b)); cbn; [|exact Q].
    apply quantities_ok_insert; assumption.
Qed.

Lemma exec_quantities c b b' :
  valid_call c -> quantities_ok (storage (order_pool b)) ->
  exec c b = Some b' -> quantities_ok (storage (order_pool b')).
Proof.
  intros V Q E. destruct c as [o|id|id new_price new_quantity now]; cbn in E.
  - injection E as <-. apply add_order_quantities; [assumption|apply V].
  - destruct (cancel_order id b) as [[r b1]|] eqn:C; [|discriminate].
    injection E as <-. eapply cancel_order_quantities; eassumption.
  - destruct (amend_order id new_price new_quantity now b) as [[r b1]|] eqn:M;
      [|discriminate].
    injection E as <-. unfold amend_order in M.
    destruct (order_lookup b !! id) as [p|] eqn:Hl;
      [|injection M as _ <-; exact Q].
    destruct (storage (order_pool b) !! p) as [o|] eqn:Ho; [|discriminate].
    cbn [mbind option_bind] in M.
    destruct (price_changed (price o) new_price).
    + destruct (cancel_order id b) as [[r' b2]|] eqn:C; [|discriminate].
      cbn in M. injection M as _ <-.
      change (quantities_ok (storage (order_pool
                (add_order (mkOrder (order_id o) (is_buy o) new_price
                                    new_quantity now) b2)))).
      apply add_order_quantities; [|apply V].
      eapply cancel_order_quantities; eassumption.
    + cbn in M. injection M as _ <-.
      change (quantities_ok (storage (order_pool
                (amended_in_place b p o new_quantity)))).
      apply amended_in_place_quantities; [assumption|apply V].
Qed.

Lemma reachable_quantities b :
  reachable b -> quantities_ok (storage (order_pool b)).
Proof.
  intros (cs & V & R).
  assert (G : forall b0, quantities_ok (storage (order_pool b0)) ->
                run cs b0 = Some b -> quantities_ok (storage (order_pool b))).
  { clear R. induction cs as [|c cs IH]; intros b0 Q R; cbn in R.
    - injection R as <-. exact Q.
    - apply Forall_cons in V as [V1 V2].
      destruct (exec c b0) as [b1|] eqn:E; [|discriminate]. cbn in R.
      apply (IH V2 b1); [|exact R]. eapply exec_quantities; eassumption. }
  apply (G empty_book); [|exact R]. intros p o H. cbn in H.
  rewrite lookup_empty in H. discriminate.
Qed.

Lemma queue_quantities_nonneg st q :
  quantities_ok st -> 0 <= sumZ (queue_quantities st q).
Proof.
  intros Q. induction q as [|p q IH]; [cbn; lia|].
  change (0 <= node_quantity st p + sumZ (queue_quantities st q)).
  unfold node_quantity at 1. destruct (st !! p) as [o|] eqn:H; cbn.
  - destruct (Q p o H). lia.
  - lia.
Qed.

Lemma side_total_exact comp buy st m :
  side_ok comp buy st m -> quantities_ok st ->
  sumZ (queue_quantities st (side_ptrs m)) < u64_modulus ->
  sumZ (map (fun kl => total_quantity kl.2) m)
  = sumZ (queue_quantities st (side_ptrs m)).
Proof.
  intros [_ F] Q. induction F as [|[k l] m [_ _ T _] _ IH]; [reflexivity|].
  rewrite side_ptrs_cons. unfold queue_quantities in *.
  rewrite map_app, sumZ_app. intros Hlt. cbn in T.
  pose proof (queue_quantities_nonneg st (orders l) Q) as N1.
  pose proof (queue_quantities_nonneg st (side_ptrs m) Q) as N2.
  unfold queue_quantities in N1, N2.
  change (total_quantity l + sumZ (map (fun kl => total_quantity kl.2) m)
          = sumZ (map (node_quantity st) (orders l))
            + sumZ (map (node_quantity st) (side_ptrs m))).
  rewrite IH by lia. rewrite T, wrap64_small; [reflexivity|].
  split; [assumption|lia].
Qed.

(** ** Aggregates (C1) *)

Lemma queue_records_ok st q :
  Forall (fun p => is_Some (st !! p)) q ->
  exists recs, queue_records st q = Some recs
               /\ map quantity recs = queue_quantities st q.
Proof.
  unfold queue_records. induction 1 as [|p q [o Ho] _ (recs & IH1 & IH2)].
  - exists []. split; reflexivity.
  - exists (o :: recs). split.
    + cbn. rewrite Ho. cbn. rewrite IH1. reflexivity.
    + cbn. unfold node_quantity at 1. rewrite Ho, IH2. reflexivity.
Qed.

Lemma level_ok_records comp buy st kl :
  level_ok comp buy st kl -> Forall (fun p => is_Some (st !! p)) (orders kl.2).
Proof.
  intros [_ _ _ N]. eapply Forall_impl; [exact N|].
  intros p (o & Ho & _). rewrite Ho. eauto.
Qed.

Lemma side_ok_records comp buy st m :
  side_ok comp buy st m -> Forall (fun p => is_Some (st !! p)) (side_ptrs m).
Proof.
  intros [_ F]. induction F as [|[k l] m L _ IH]; [constructor|].
  rewrite side_ptrs_cons. apply Forall_app. split; [|assumption].
  apply (level_ok_records _ _ _ _ L).
Qed.

Lemma side_ok_total comp buy st m :
  side_ok comp buy st m ->
  wrap64 (sumZ (map (fun kl => total_quantity kl.2) m))
  = wrap64 (sumZ (queue_quantities st (side_ptrs m))).
Proof.
  intros [_ F]. induction F as [|[k l] m [_ _ T _] _ IH]; [reflexivity|].
  rewrite side_ptrs_cons. unfold queue_quantities in *.
  rewrite map_app, sumZ_app. cbn in *.
  change (wrap64 (total_quantity l + sumZ (map (fun kl => total_quantity kl.2) m))
          = wrap64 (sumZ (map (node_quantity st) (orders l))
                    + sumZ (map (node_quantity st) (side_ptrs m)))).
  rewrite T, wrap64_add_l, <- wrap64_add_r, IH, wrap64_add_r. reflexivity.
Qed.

Lemma book_inv_side b side :
  book_inv b -> side = bid_levels b \/ side = ask_levels b ->
  exists comp buy, side_ok comp buy (storage (order_pool b)) side.
Proof.
  intros I [->| ->].
  - exists greater, true. apply I.
  - exists less, false. apply I.
Qed.

(** ** Price order (C7) *)

Lemma flt_not_eqb a b : flt a b = true -> (a =? b)%float = false.
Proof.
  unfold flt. rewrite FloatAxioms.ltb_spec, FloatAxioms.eqb_spec.
  unfold SFltb, SFeqb. destruct (SFcompare _ _) as [[]|]; congruence.
Qed.

Lemma flt_not_eqb_sym a b : flt a b = true -> (b =? a)%float = false.
Proof.
  unfold flt. rewrite FloatAxioms.ltb_spec, FloatAxioms.eqb_spec.
  unfold SFltb, SFeqb.
  destruct (Prim2SF a) as [s1|s1| |s1 m1 e1], (Prim2SF b) as [s2|s2| |s2 m2 e2];
    try destruct s1; try destruct s2; cbn; try congruence.
  all: change (Pos.compare_cont Eq m2 m1) with (Pos.compare m2 m1);
    change (Pos.compare_cont Eq m1 m2) with (Pos.compare m1 m2);
    rewrite (Z.compare_antisym e1 e2), (Pos.compare_antisym m1 m2);
    destruct (e1 ?= e2); cbn; try congruence;
    destruct (Pos.compare m1 m2); cbn; congruence.
Qed.

(** C7.  In every reachable book the bid map is iterated in strictly
    descending price order and the ask map in strictly ascending price
    order; two levels of a side never have equal prices. *)
Theorem C7_price_order b :
  reachable b ->
  (forall i j x y,
      bid_levels b !! i = Some x -> bid_levels b !! j = Some y -> (i < j)%nat ->
      flt y.1 x.1 = true /\ (x.1 =? y.1)%float = false)
  /\ (forall i j x y,
      ask_levels b !! i = Some x -> ask_levels b !! j = Some y -> (i < j)%nat ->
      flt x.1 y.1 = true /\ (x.1 =? y.1)%float = false).
Proof.
  intros R. apply reachable_inv in R. split; intros i j x y Hi Hj Hij.
  - destruct (inv_bids b R) as [S _].
    destruct (sorted_map_keys_distinct greater _ i j x y S Hi Hj Hij) as [C _].
    unfold greater in C. split; [assumption|]. apply flt_not_eqb_sym, C.
  - destruct (inv_asks b R) as [S _].
    destruct (sorted_map_keys_distinct less _ i j x y S Hi Hj Hij) as [C _].
    unfold less in C. split; [assumption|]. apply flt_not_eqb, C.
Qed.

(** ** Unknown identifiers (C3) *)

(** C3.  For an identifier that is not in the index, [cancel_order] and
    [amend_order] answer false and return the book as it was, pool and
    counters included.  In a reachable book, cancelling a resting
    identifier answers true, and cancelling it again answers false and
    changes nothing. *)
Theorem C3_unknown_identifier b id :
  (order_lookup b !! id = None ->
   cancel_order id b = Some (false, b)
   /\ forall new_price new_quantity now,
        amend_order id new_price new_quantity now b = Some (false, b))
  /\ (reachable b -> is_Some (order_lookup b !! id) ->
      exists b1, cancel_order id b = Some (true, b1)
                 /\ cancel_order id b1 = Some (false, b1)).
Proof.
  split.
  - intros Hl. split.
    + apply cancel_order_unknown, Hl.
    + intros. apply amend_order_unknown, Hl.
  - intros R [p Hl]. apply reachable_inv in R.
    destruct (inv_index b R id p Hl) as (_ & o & Ho & _).
    pose proof (cancel_order_resting id b p o Hl Ho) as C.
    eexists. split; [exact C|].
    apply cancel_order_unknown. cbn. apply lookup_delete_eq.
Qed.

(** ** Counters (C10) *)

(** C10.  An amendment of a resting order that changes the price
    increments the three counters, the added and cancelled ones through
    the calls of [cancel_order] and [add_order] it makes; an amendment in
    place increments the amended counter alone.  The increments are those
    of [uint64_t] counters: by one, short of the wrap-around at [2^64]. *)
Theorem C10_amend_counters b id new_price new_quantity now p o :
  order_lookup b !! id = Some p -> storage (order_pool b) !! p = Some o ->
  exists b',
    amend_order id new_price new_quantity now b = Some (true, b')
    /\ total_amends b' = wrap64 (total_amends b + 1)
    /\ (if price_changed (price o) new_price
        then total_orders b' = wrap64 (total_orders b + 1)
             /\ total_cancels b' = wrap64 (total_cancels b + 1)
        else total_orders b' = total_orders b
             /\ total_cancels b' = total_cancels b)
    /\ (in_u64 (total_orders b + 1) -> in_u64 (total_cancels b + 1) ->
        in_u64 (total_amends b + 1) ->
        total_amends b' = total_amends b + 1
        /\ if price_changed (price o) new_price
           then total_orders b' = total_orders b + 1
                /\ total_cancels b' = total_cancels b + 1
           else total_orders b' = total_orders b
                /\ total_cancels b' = total_cancels b).
Proof.
  intros Hl Ho. destruct (price_changed (price o) new_price) eqn:Hc.
  - pose proof (cancel_order_resting id b p o Hl Ho) as C.
    rewrite (amend_order_price_path _ _ _ _ _ _ _ _ Hl Ho Hc C).
    eexists. split; [reflexivity|].
    set (b1 := mkBook _ _ _ _ _ _ _).
    set (o' := mkOrder _ _ _ _ _).
    destruct (allocate (order_pool b1)) as [p' mp'] eqn:A.
    destruct (add_order_fields o' b1 p' mp' A) as (_ & _ & _ & _ & E1 & E2 & E3).
    cbn [bump_amends total_orders total_cancels total_amends].
    rewrite E1, E2, E3. cbn [b1 total_orders total_cancels total_amends].
    repeat split; try reflexivity;
      intros; rewrite wrap64_small by assumption; reflexivity.
  - rewrite (amend_order_quantity_path _ _ _ _ _ _ _ Hl Ho Hc).
    eexists. split; [reflexivity|].
    unfold amended_in_place.
    destruct (is_buy o); cbn [bump_amends total_orders total_cancels total_amends];
      repeat split; try reflexivity;
      intros; rewrite wrap64_small by assumption; reflexivity.
Qed.

(** ** Best prices (C2) *)

Lemma sorted_map_head_best comp `{!StrictWeak comp} k0 l0 m k l :
  sorted_map comp ((k0, l0) :: m) -> (k, l) ∈ (k0, l0) :: m -> comp k k0 = false.
Proof.
  intros S H. apply elem_of_cons in H as [H|H].
  - injection H as -> ->. apply sw_irrefl.
  - apply sorted_map_cons in S as [F _]. rewrite Forall_forall in F.
    pose proof (F _ H) as C. unfold key_lt in C. cbn in C.
    destruct (comp k k0) eqn:C'; [|reflexivity].
    pose proof (sw_trans _ _ _ C C') as K. rewrite sw_irrefl in K. discriminate.
Qed.

(** C2, as the code has it.  [get_best_prices] returns a pair of doubles:
    for an empty bid side the best bid is [0.0], for an empty ask side the
    best ask is the largest finite double; for a side with levels it is the
    price of a level of the side, no bid being higher and no ask lower. *)
Theorem C2_best_prices b :
  reachable b ->
  (bid_levels b = [] -> (get_best_prices b).1 = 0%float)
  /\ (ask_levels b = [] -> (get_best_prices b).2 = double_max)
  /\ (bid_levels b <> [] ->
      (exists l, (((get_best_prices b).1, l) : float * Level) ∈ bid_levels b)
      /\ forall k l, (k, l) ∈ bid_levels b ->
                     flt (get_best_prices b).1 k = false)
  /\ (ask_levels b <> [] ->
      (exists l, (((get_best_prices b).2, l) : float * Level) ∈ ask_levels b)
      /\ forall k l, (k, l) ∈ ask_levels b ->
                     flt k (get_best_prices b).2 = false).
Proof.
  intros R. apply reachable_inv in R. unfold get_best_prices.
  destruct (inv_bids b R) as [Sb _], (inv_asks b R) as [Sa _].
  repeat split.
  - intros ->. reflexivity.
  - intros ->. reflexivity.
  - destruct (bid_levels b) as [|[k0 l0] m]; [congruence|].
    exists l0. left.
  - destruct (bid_levels b) as [|[k0 l0] m]; [congruence|]. cbn.
    intros k l Hkl.
    exact (sorted_map_head_best greater k0 l0 m k l Sb Hkl).
  - destruct (ask_levels b) as [|[k0 l0] m]; [congruence|].
    exists l0. left.
  - destruct (ask_levels b) as [|[k0 l0] m]; [congruence|]. cbn.
    intros k l Hkl.
    exact (sorted_map_head_best less k0 l0 m k l Sa Hkl).
Qed.

(** ** Queues and aggregates at a price *)

Section AtPrice.
Context (comp : float -> float -> bool) `{!StrictWeak comp}.

Lemma comp_asym a b : comp a b = true -> comp b a = false.
Proof.
  intros C. destruct (comp b a) eqn:C'; [|reflexivity].
  pose proof (sw_trans _ _ _ C C') as K. rewrite sw_irrefl in K. discriminate.
Qed.

Lemma map_find_gap k m1 m2 :
  Forall (fun y : float * Level => comp y.1 k = true) m1 ->
  Forall (fun y : float * Level => comp k y.1 = true) m2 ->
  map_find comp k (m1 ++ m2) = None.
Proof.
  intros B A. induction B as [|[k1 l1] m1 C _ IH]; cbn.
  - destruct A as [|[k2 l2] m2 C _]; cbn; [reflexivity|].
    cbn in C. rewrite (comp_asym _ _ C), C. reflexivity.
  - cbn in C. rewrite C. assumption.
Qed.

(** Around an entry of a sorted map, the keys before it come before any
    equivalent key and the keys after it come after. *)
Lemma sorted_map_around m1 k' l m2 k :
  sorted_map comp (m1 ++ (k', l) :: m2) -> not_nan k -> key_equiv comp k k' ->
  Forall (fun y : float * Level => comp y.1 k = true) m1
  /\ Forall (fun y : float * Level => comp k y.1 = true) m2.
Proof.
  intros S Hk E. unfold sorted_map in S.
  rewrite StronglySorted_app, StronglySorted_cons in S.
  destruct S as (S1 & _ & S2 & _). split.
  - apply Forall_forall. intros y Hy.
    apply (key_equiv_before comp y.1 k k' Hk E).
    apply (S1 y (k', l) Hy). left.
  - eapply Forall_impl; [exact S2|]. intros y Hy.
    exact (key_equiv_after comp y.1 k k' Hk E Hy).
Qed.

Lemma map_find_removed m1 k' l m2 k :
  sorted_map comp (m1 ++ (k', l) :: m2) -> not_nan k -> key_equiv comp k k' ->
  map_find comp k (m1 ++ m2) = None.
Proof.
  intros S Hk E. destruct (sorted_map_around _ _ _ _ _ S Hk E).
  apply map_find_gap; assumption.
Qed.

Lemma queue_at_add side p o :
  sorted_map comp side -> not_nan (price o) ->
  queue_at comp (price o) (add_to_side comp side p o)
  = queue_at comp (price o) side ++ [p]
  /\ aggregate_at comp (price o) (add_to_side comp side p o)
     = wrap64 (aggregate_at comp (price o) side + quantity o).
Proof.
  intros S Hn. pose proof (map_subscript_sorted comp (price o)
    (fun level =>
       {| level_price := price o;
          total_quantity := wrap64 (total_quantity level + quantity o);
          orders := orders level ++ [p] |}) side S) as S'.
  unfold add_to_side, queue_at, aggregate_at in *.
  destruct (map_subscript_spec comp (price o)
              (fun level =>
                 {| level_price := price o;
                    total_quantity := wrap64 (total_quantity level + quantity o);
                    orders := orders level ++ [p] |}) side S)
    as [(m1 & k' & l & m2 & -> & E & R)|(m1 & m2 & -> & B & A & R)];
    rewrite R in *.
  - rewrite (map_find_at comp m1 k' _ m2 (price o) S' Hn E).
    rewrite (map_find_at comp m1 k' _ m2 (price o) S Hn E). auto.
  - rewrite (map_find_at comp m1 (price o) _ m2 (price o) S' Hn
               (key_equiv_refl comp _)).
    rewrite (map_find_gap (price o) m1 m2); auto.
Qed.

Lemma queue_at_remove buy st side p o :
  side_ok comp buy st side -> p ∈ side_ptrs side -> st !! p = Some o ->
  p ∈ queue_at comp (price o) side
  /\ queue_at comp (price o) (remove_from_side comp side p o)
     = list_erase p (queue_at comp (price o) side)
  /\ (list_erase p (queue_at comp (price o) side) = [] ->
      map_find comp (price o) (remove_from_side comp side p o) = None)
  /\ (list_erase p (queue_at comp (price o) side) <> [] ->
      aggregate_at comp (price o) (remove_from_side comp side p o)
      = wrap64 (aggregate_at comp (price o) side - quantity o)).
Proof.
  intros Ok Hp Ho.
  destruct (remove_from_side_shape comp buy st side p o Ok Hp Ho)
    as (m1 & k & l & m2 & -> & Hl & E & Hn & R).
  destruct Ok as [S _]. unfold queue_at, aggregate_at. rewrite R.
  rewrite (map_find_at comp m1 k l m2 (price o) S Hn E). cbn.
  split; [assumption|].
  destruct (list_erase p (orders l)) as [|x q] eqn:Eq.
  - rewrite (map_find_removed m1 k l m2 (price o) S Hn E). cbn.
    repeat split; congruence.
  - rewrite (map_find_at comp m1 k _ m2 (price o)
               (sorted_map_replace comp _ _ _ _ _ S) Hn E). cbn.
    repeat split; congruence.
Qed.
End AtPrice.

(** ** A changed price is another key *)

Lemma SFsub_equal x y :
  SFcompare x y = Some Eq ->
  match SF64sub x y with
  | S754_zero _ | S754_nan => True
  | _ => False
  end.
Proof.
  destruct x as [sx|sx| |sx mx ex], y as [sy|sy| |sy my ey];
    try destruct sx; try destruct sy; cbn; try discriminate; try tauto.
  all: change (Pos.compare_cont Eq mx my) with (Pos.compare mx my);
    destruct (Z.compare_spec ex ey) as [->| |]; try discriminate;
    destruct (Pos.compare_spec mx my) as [->| |]; try discriminate;
    intros _; unfold SF64sub, SFsub; rewrite Z.sub_diag; exact I.
Qed.

Lemma price_changed_separates old_price new_price :
  price_changed old_price new_price = true ->
  flt old_price new_price = true \/ flt new_price old_price = true.
Proof.
  intros H. destruct (price_changed_numbers _ _ H) as [Ho Hn].
  destruct (flt old_price new_price) eqn:C1; [auto|].
  destruct (flt new_price old_price) eqn:C2; [auto|]. exfalso.
  unfold price_changed, flt, not_nan in *.
  rewrite is_nan_spec in Ho, Hn.
  rewrite FloatAxioms.ltb_spec in *.
  rewrite FloatAxioms.abs_spec, FloatAxioms.sub_spec in H.
  assert (E : SFcompare (Prim2SF old_price) (Prim2SF new_price) = Some Eq).
  { revert C1 C2 Ho Hn. unfold SFltb.
    destruct (Prim2SF old_price) as [s1|s1| |s1 m1 e1],
             (Prim2SF new_price) as [s2|s2| |s2 m2 e2];
      try destruct s1; try destruct s2; cbn; try congruence.
    all: change (Pos.compare_cont Eq m2 m1) with (Pos.compare m2 m1);
      change (Pos.compare_cont Eq m1 m2) with (Pos.compare m1 m2);
      rewrite (Z.compare_antisym e1 e2), (Pos.compare_antisym m1 m2);
      destruct (e1 ?= e2); cbn; try congruence;
      destruct (Pos.compare m1 m2); cbn; congruence. }
  apply SFsub_equal in E.
  destruct (SF64sub (Prim2SF old_price) (Prim2SF new_price)); try contradiction;
    vm_compute in H; discriminate.
Qed.

Lemma price_changed_inequivalent comp `{!StrictWeak comp} old_price new_price :
  comp = less \/ comp = greater ->
  price_changed old_price new_price = true ->
  ~ key_equiv comp new_price old_price.
Proof.
  intros Hc H [E1 E2]. apply price_changed_separates in H.
  destruct Hc as [-> | ->]; unfold less, greater in *; destruct H; congruence.
Qed.

(** ** The two sides, uniformly *)

#[global] Instance comp_of_strict_weak buy : StrictWeak (comp_of buy).
Proof. destruct buy; cbn; apply _. Qed.

Lemma side_of_ok b buy :
  book_inv b -> side_ok (comp_of buy) buy (storage (order_pool b)) (side_of buy b).
Proof. intros I. destruct buy; cbn; apply I. Qed.

Lemma side_of_node_buy b p o :
  book_inv b -> p ∈ book_ptrs b -> storage (order_pool b) !! p = Some o ->
  p ∈ side_ptrs (side_of (is_buy o) b).
Proof.
  intros I Hp Ho. pose proof (side_of_node b p o I Hp Ho) as H.
  destruct (is_buy o); cbn; tauto.
Qed.

Lemma add_order_sides o b :
  side_of (is_buy o) (add_order o b)
  = add_to_side (comp_of (is_buy o)) (side_of (is_buy o) b)
      (allocate (order_pool b)).1 o
  /\ side_of (negb (is_buy o)) (add_order o b) = side_of (negb (is_buy o)) b.
Proof.
  unfold add_order. destruct (allocate (order_pool b)) as [p mp'].
  destruct (is_buy o); cbn; auto.
Qed.

Lemma cancel_order_sides id b p o b1 :
  order_lookup b !! id = Some p -> storage (order_pool b) !! p = Some o ->
  cancel_order id b = Some (true, b1) ->
  side_of (is_buy o) b1
  = remove_from_side (comp_of (is_buy o)) (side_of (is_buy o) b) p o
  /\ side_of (negb (is_buy o)) b1 = side_of (negb (is_buy o)) b
  /\ order_lookup b1 = delete id (order_lookup b)
  /\ order_pool b1 = deallocate p (order_pool b).
Proof.
  intros Hl Ho C. rewrite (cancel_order_resting id b p o Hl Ho) in C.
  injection C as <-. destruct (is_buy o); cbn; auto.
Qed.

Section OtherKeys.
Context (comp : float -> float -> bool) `{!StrictWeak comp}.

Lemma key_equiv_trans a b c :
  not_nan b -> key_equiv comp a b -> key_equiv comp b c -> key_equiv comp a c.
Proof.
  intros Hb [E1 E2] [E3 E4]. split.
  - destruct (comp a c) eqn:C; [|reflexivity].
    destruct (sw_cotrans a b c Hb C); congruence.
  - destruct (comp c a) eqn:C; [|reflexivity].
    destruct (sw_cotrans c b a Hb C); congruence.
Qed.

Lemma key_equiv_sym a b : key_equiv comp a b -> key_equiv comp b a.
Proof. intros [? ?]. split; assumption. Qed.

(** An entry whose key is not equivalent to [k] does not matter to the
    search for [k]. *)
Lemma map_find_skip m1 k0 l m2 k :
  sorted_map comp (m1 ++ (k0, l) :: m2) -> ~ key_equiv comp k k0 ->
  map_find comp k (m1 ++ (k0, l) :: m2) = map_find comp k (m1 ++ m2).
Proof.
  intros S N. induction m1 as [|[k1 l1] m1 IH]; cbn.
  - destruct (comp k0 k) eqn:C1; [reflexivity|].
    destruct (comp k k0) eqn:C2.
    + apply sorted_map_cons in S as [F _].
      destruct F as [|[k2 l2] m2 C _]; [reflexivity|]. cbn.
      unfold key_lt in C. cbn in C.
      pose proof (sw_trans _ _ _ C2 C) as C3.
      rewrite (comp_asym comp _ _ C3), C3. reflexivity.
    + exfalso. apply N. split; assumption.
  - apply sorted_map_cons in S as [_ S].
    destruct (comp k1 k); [auto|reflexivity].
Qed.

Lemma map_find_remove_other buy st side p o k :
  side_ok comp buy st side -> p ∈ side_ptrs side -> st !! p = Some o ->
  ~ key_equiv comp k (price o) ->
  map_find comp k (remove_from_side comp side p o) = map_find comp k side.
Proof.
  intros Ok Hp Ho N.
  destruct (remove_from_side_shape comp buy st side p o Ok Hp Ho)
    as (m1 & k0 & l & m2 & -> & Hl & E & Hn & ->).
  destruct Ok as [S F].
  assert (N0 : ~ key_equiv comp k k0).
  { intros E'. apply N.
    rewrite Forall_app, Forall_cons in F. destruct F as (_ & [Hk0 _ _ _] & _).
    apply (key_equiv_trans k k0 (price o) Hk0 E'). apply key_equiv_sym, E. }
  rewrite (map_find_skip m1 k0 l m2 k S N0).
  destruct (list_erase p (orders l)); [reflexivity|].
  apply map_find_skip; [|assumption].
  eapply sorted_map_replace; eassumption.
Qed.

End OtherKeys.

Lemma map_find_add_other comp `{!StrictWeak comp} buy st side p o k :
  side_ok comp buy st side -> not_nan (price o) ->
  ~ key_equiv comp k (price o) ->
  map_find comp k (add_to_side comp side p o) = map_find comp k side.
Proof.
  intros [S F] Hn N. pose proof (map_subscript_sorted comp (price o)
    (fun level =>
       {| level_price := price o;
          total_quantity := wrap64 (total_quantity level + quantity o);
          orders := orders level ++ [p] |}) side S) as S'.
  unfold add_to_side in *.
  destruct (map_subscript_spec comp (price o)
              (fun level =>
                 {| level_price := price o;
                    total_quantity := wrap64 (total_quantity level + quantity o);
                    orders := orders level ++ [p] |}) side S)
    as [(m1 & k' & l & m2 & -> & E & R)|(m1 & m2 & -> & B & A & R)];
    rewrite R in *.
  - assert (N0 : ~ key_equiv comp k k').
    { intros E'. apply N.
      rewrite Forall_app, Forall_cons in F. destruct F as (_ & [Hk' _ _ _] & _).
      apply (key_equiv_trans comp k k' (price o) Hk' E').
      apply key_equiv_sym, E. }
    rewrite (map_find_skip comp m1 k' _ m2 k S' N0).
    rewrite (map_find_skip comp m1 k' l m2 k S N0). reflexivity.
  - apply map_find_skip; assumption.
Qed.

(** ** Amendment in place (C5) *)

Lemma queue_view_app m1 m2 : queue_view (m1 ++ m2) = queue_view m1 ++ queue_view m2.
Proof. apply map_app. Qed.


(** ** Addition followed by cancellation (C8) *)

Lemma level_view_app m1 m2 : level_view (m1 ++ m2) = level_view m1 ++ level_view m2.
Proof. apply map_app. Qed.

Lemma remove_after_add comp `{!StrictWeak comp} buy st side p o :
  side_ok comp buy st side -> p ∉ side_ptrs side -> not_nan (price o) ->
  level_view (remove_from_side comp (add_to_side comp side p o) p o)
  = level_view side.
Proof.
  intros [S F] Hp Hn. pose proof (map_subscript_sorted comp (price o)
    (fun level =>
       {| level_price := price o;
          total_quantity := wrap64 (total_quantity level + quantity o);
          orders := orders level ++ [p] |}) side S) as S'.
  unfold add_to_side in *.
  destruct (map_subscript_spec comp (price o)
              (fun level =>
                 {| level_price := price o;
                    total_quantity := wrap64 (total_quantity level + quantity o);
                    orders := orders level ++ [p] |}) side S)
    as [(m1 & k' & l & m2 & -> & E & R)|(m1 & m2 & -> & B & A & R)];
    rewrite R in *; unfold remove_from_side.
  - rewrite (map_find_apply_at comp m1 k' _ m2 (price o) _ S' Hn E).
    cbn [orders level_price total_quantity].
    assert (Hl : p ∉ orders l).
    { intros H. apply Hp. apply elem_of_side_ptrs. eauto 6. }
    rewrite (list_erase_snoc p (orders l) Hl).
    rewrite Forall_app, Forall_cons in F. destruct F as (_ & [_ Ne T _] & _).
    cbn in Ne, T.
    destruct (orders l) as [|x q] eqn:Eq; [congruence|].
    rewrite !level_view_app. cbn. rewrite Eq, wrap64_sub_l.
    replace (total_quantity l + quantity o - quantity o) with (total_quantity l)
      by lia.
    rewrite T, wrap64_idemp. reflexivity.
  - rewrite (map_find_apply_at comp m1 (price o) _ m2 (price o) _ S' Hn
               (key_equiv_refl comp _)).
    cbn. destruct (decide (p = p)); [reflexivity|congruence].
Qed.

(** C8.  In a reachable book, adding an order whose identifier is not in
    the index and cancelling it at once gives back the keys, the aggregates
    and the queues of both sides and the index; the counters and the free
    list of the pool are not compared. *)
Theorem C8_add_then_cancel b o :
  reachable b -> order_lookup b !! order_id o = None -> not_nan (price o) ->
  exists b2,
    cancel_order (order_id o) (add_order o b) = Some (true, b2)
    /\ level_view (bid_levels b2) = level_view (bid_levels b)
    /\ level_view (ask_levels b2) = level_view (ask_levels b)
    /\ order_lookup b2 = order_lookup b.
Proof.
  intros R Hl Hn. apply reachable_inv in R.
  destruct (allocate (order_pool b)) as [p mp'] eqn:A.
  pose proof (allocate_fresh b p mp' R A) as Fr.
  destruct (add_order_fields o b p mp' A) as (Ep & Eb & Ea & El & _).
  destruct (allocate_spec _ _ _ A (inv_free_nodup b R) (inv_blocks b R))
    as (St & _).
  assert (Hl' : order_lookup (add_order o b) !! order_id o = Some p).
  { rewrite El. apply lookup_insert_eq. }
  assert (Ho' : storage (order_pool (add_order o b)) !! p = Some o).
  { rewrite Ep. cbn. apply lookup_insert_eq. }
  rewrite (cancel_order_resting _ _ p o Hl' Ho').
  eexists. split; [reflexivity|].
  cbn [bid_levels ask_levels order_lookup order_pool].
  rewrite Eb, Ea, El.
  unfold book_ptrs in Fr. rewrite not_elem_of_app in Fr. destruct Fr as [Fb Fa].
  repeat split.
  - destruct (is_buy o) eqn:Hb; [|reflexivity].
    apply (remove_after_add greater true _ _ p o (inv_bids b R) Fb Hn).
  - destruct (is_buy o) eqn:Hb; [reflexivity|].
    apply (remove_after_add less false _ _ p o (inv_asks b R) Fa Hn).
  - rewrite delete_insert_eq. apply delete_id. exact Hl.
Qed.
(** ** What the erasure of a cell leaves *)

(** The queue without the cell of [p], said without [list_erase]: the
    cells before it and the cells after it, in their order. *)
Lemma list_erase_split p q :
  p ∈ q ->
  exists q1 q2, q = q1 ++ p :: q2 /\ (p ∉ q1) /\ list_erase p q = q1 ++ q2.
Proof.
  induction q as [|x q IH]; intros H.
  - apply elem_of_nil in H. contradiction.
  - cbn. destruct (decide (x = p)) as [->|D].
    + exists [], q. repeat split. apply not_elem_of_nil.
    + apply elem_of_cons in H as [->|H]; [congruence|].
      destruct (IH H) as (q1 & q2 & -> & N & ->).
      exists (x :: q1), q2. repeat split.
      apply not_elem_of_cons. split; [congruence|exact N].
Qed.

Lemma queue_at_sublist comp k m : queue_at comp k m `sublist_of` side_ptrs m.
Proof.
  unfold queue_at. induction m as [|[k' l] m IH].
  - constructor.
  - rewrite side_ptrs_cons. cbn [map_find]. destruct (comp k' k).
    + apply sublist_inserts_l, IH.
    + destruct (comp k k'); cbn.
      * apply sublist_nil_l.
      * apply sublist_inserts_r. reflexivity.
Qed.

Lemma queue_at_nodup comp k m : NoDup (side_ptrs m) -> NoDup (queue_at comp k m).
Proof. intros N. eapply sublist_NoDup; [exact N|apply queue_at_sublist]. Qed.

Lemma side_of_nodup b buy : book_inv b -> NoDup (side_ptrs (side_of buy b)).
Proof.
  intros I. pose proof (inv_nodup b I) as N. unfold book_ptrs in N.
  apply NoDup_app in N as (Nb & _ & Na). destruct buy; assumption.
Qed.

(** A queue from which the cell of [p] has been erased: [p] is no longer
    in it, and the other cells stand as they stood. *)
Lemma queue_erased p q q' :
  NoDup q -> p ∈ q -> q' = list_erase p q ->
  (p ∉ q') /\ exists q1 q2, q = q1 ++ p :: q2 /\ q' = q1 ++ q2.
Proof.
  intros N H ->. split; [apply list_erase_gone, N|].
  destruct (list_erase_split p q H) as (q1 & q2 & E & _ & E').
  exists q1, q2. auto.
Qed.


(** ** Price-changing amendment (C4) *)

(** C4.  An amendment of a resting order whose new price differs from the
    current one by more than the tolerance answers true and is the
    cancellation followed by the addition of the order with the new price,
    the new quantity and the clock reading as timestamp.  The record leaves
    the queue of its level, the level leaving the map when the queue
    becomes empty: the cancellation leaves the node in no queue, and the
    queue at the old price is afterwards the cells that stood before the
    node followed by those that stood behind it, the node not among them.
    The new record, under the same identifier, is the last of the queue at
    the new price, behind whatever that queue held, and no node is queued
    twice. *)
Theorem C4_price_changing_amend b id new_price new_quantity now p o :
  reachable b ->
  order_lookup b !! id = Some p -> storage (order_pool b) !! p = Some o ->
  price_changed (price o) new_price = true ->
  let buy := is_buy o in
  let comp := comp_of buy in
  let new_order := mkOrder id buy new_price new_quantity now in
  exists b1 b' p',
    cancel_order id b = Some (true, b1)
    /\ amend_order id new_price new_quantity now b = Some (true, b')
    /\ b' = bump_amends (add_order new_order b1)
    /\ p ∈ queue_at comp (price o) (side_of buy b)
    /\ queue_at comp (price o) (side_of buy b')
       = list_erase p (queue_at comp (price o) (side_of buy b))
    /\ (list_erase p (queue_at comp (price o) (side_of buy b)) = [] ->
        map_find comp (price o) (side_of buy b') = None)
    /\ queue_at comp new_price (side_of buy b')
       = queue_at comp new_price (side_of buy b) ++ [p']
    /\ aggregate_at comp new_price (side_of buy b')
       = wrap64 (aggregate_at comp new_price (side_of buy b) + new_quantity)
    /\ order_lookup b' !! id = Some p'
    /\ storage (order_pool b') !! p' = Some new_order
    /\ side_of (negb buy) b' = side_of (negb buy) b
    /\ (p ∉ queue_at comp (price o) (side_of buy b'))
    /\ (exists q1 q2,
          queue_at comp (price o) (side_of buy b) = q1 ++ p :: q2
          /\ queue_at comp (price o) (side_of buy b') = q1 ++ q2)
    /\ (p ∉ book_ptrs b1)
    /\ NoDup (book_ptrs b').
Proof.
  intros R Hl Ho Hc buy comp new_order. apply reachable_inv in R.
  destruct (inv_index b R id p Hl) as (Hp & o0 & Ho0 & Hid).
  assert (o0 = o) as -> by congruence.
  pose proof (cancel_order_resting id b p o Hl Ho) as C.
  set (b1 := mkBook _ _ _ _ _ _ _) in C.
  pose proof (cancel_order_inv id b true b1 R C) as R1.
  pose proof (amend_order_price_path _ _ new_quantity now _ _ _ _ Hl Ho Hc C) as A.
  rewrite Hid in A. fold buy new_order in A.
  destruct (cancel_order_sides id b p o b1 Hl Ho C) as (Es & Eo & El & Epool).
  fold buy comp in Es, Eo.
  destruct (add_order_sides new_order b1) as (As & Ao).
  destruct (add_order_index new_order b1) as (Al & Ast).
  cbn [is_buy new_order price order_id] in As, Ao, Al, Ast.
  fold comp in As.
  set (p' := (allocate (order_pool b1)).1) in *.
  exists b1, (bump_amends (add_order new_order b1)), p'.
  assert (Sb : forall s, side_of s (bump_amends (add_order new_order b1))
                         = side_of s (add_order new_order b1)).
  { intros []; reflexivity. }
  pose proof (side_of_node_buy b p o R Hp Ho) as Hs. fold buy in Hs.
  pose proof (side_of_ok b buy R) as Ok. fold comp in Ok.
  pose proof (side_of_ok b1 buy R1) as Ok1. fold comp in Ok1.
  destruct (price_changed_numbers _ _ Hc) as [_ Hn].
  assert (Hcomp : comp = less \/ comp = greater).
  { unfold comp, comp_of. destruct buy; auto. }
  pose proof (comp_of_strict_weak buy) as SW. fold comp in SW.
  assert (N1 : ~ key_equiv comp new_price (price o)).
  { exact (price_changed_inequivalent comp (price o) new_price Hcomp Hc). }
  assert (N2 : ~ key_equiv comp (price o) new_price).
  { intros E. apply N1, key_equiv_sym, E. }
  destruct (queue_at_remove comp buy _ _ p o Ok Hs Ho) as (Q1 & Q2 & Q3 & _).
  destruct (queue_at_add comp (side_of buy b1) p' new_order (proj1 Ok1) Hn)
    as (Q4 & Q5).
  cbn [price quantity new_order] in Q4, Q5.
  assert (Fsrc : map_find comp (price o) (side_of buy (add_order new_order b1))
                 = map_find comp (price o) (side_of buy b1)).
  { rewrite As.
    apply (map_find_add_other comp buy _ _ p' new_order (price o) Ok1 Hn N2). }
  assert (Fdst : map_find comp new_price (side_of buy b1)
                 = map_find comp new_price (side_of buy b)).
  { rewrite Es.
    apply (map_find_remove_other comp buy _ _ p o new_price Ok Hs Ho N1). }
  assert (Qold : queue_at comp (price o)
                   (side_of buy (add_order new_order b1))
                 = list_erase p (queue_at comp (price o) (side_of buy b))).
  { unfold queue_at in *. rewrite Fsrc, Es. exact Q2. }
  destruct (queue_erased p _ _
              (queue_at_nodup comp (price o) _ (side_of_nodup b buy R))
              Q1 Qold) as (Gone & Split).
  assert (Fr : p ∉ book_ptrs b1).
  { pose proof (inv_nodup b R) as N.
    rewrite (cancel_order_ptrs id b p b1 R Hl C) in N.
    apply NoDup_cons in N as [N _]. exact N. }
  assert (R' : book_inv (bump_amends (add_order new_order b1))).
  { apply bump_amends_inv, add_order_inv; [exact R1|exact Hn]. }
  split; [exact C|]. split; [exact A|]. split; [reflexivity|].
  split; [exact Q1|]. rewrite !Sb.
  split; [exact Qold|].
  split; [intros H; rewrite Fsrc, Es; exact (Q3 H)|].
  split; [rewrite As, Q4; unfold queue_at; rewrite Fdst; reflexivity|].
  split; [rewrite As, Q5; unfold aggregate_at; rewrite Fdst; reflexivity|].
  split; [cbn [bump_amends order_lookup]; rewrite Al; apply lookup_insert_eq|].
  split; [cbn [bump_amends order_pool]; rewrite Ast; apply lookup_insert_eq|].
  split; [rewrite Ao; exact Eo|].
  split; [exact Gone|]. split; [exact Split|].
  split; [exact Fr|]. exact (inv_nodup _ R').
Qed.

(** ** Duplicate identifiers (C9) *)

(** C9.  In a reachable book where an identifier is resting, [add_order]
    with an order of the same identifier returns a book in which the index
    names the new record for it; the previous record is named by no
    identifier any more, and still stands in a queue of its side, at its
    price, its quantity counted in the aggregate of that level. *)
Theorem C9_duplicate_identifier b o p_old o_old :
  reachable b ->
  order_lookup b !! order_id o = Some p_old ->
  storage (order_pool b) !! p_old = Some o_old ->
  not_nan (price o) ->
  let b' := add_order o b in
  let p_new := (allocate (order_pool b)).1 in
  order_lookup b' !! order_id o = Some p_new
  /\ p_new <> p_old
  /\ storage (order_pool b') !! p_new = Some o
  /\ storage (order_pool b') !! p_old = Some o_old
  /\ (forall id, order_lookup b' !! id <> Some p_old)
  /\ exists k l,
       (k, l) ∈ side_of (is_buy o_old) b'
       /\ p_old ∈ orders l
       /\ key_equiv (comp_of (is_buy o_old)) (price o_old) k
       /\ total_quantity l
          = wrap64 (quantity o_old
                    + sumZ (queue_quantities (storage (order_pool b'))
                              (list_erase p_old (orders l)))).
Proof.
  intros R Hl Ho Hn b' p_new. apply reachable_inv in R.
  pose proof (add_order_inv o b R Hn) as R'. fold b' in R'.
  pose proof (add_order_ptrs o b R Hn) as P. fold b' p_new in P.
  destruct (add_order_index o b) as (Al & Ast). fold b' p_new in Al, Ast.
  destruct (inv_index b R _ p_old Hl) as (Hp & o0 & Ho0 & Hid).
  assert (o0 = o_old) as -> by congruence.
  assert (Fr : p_new ∉ book_ptrs b).
  { unfold p_new. destruct (allocate (order_pool b)) as [q mp'] eqn:A.
    exact (allocate_fresh b q mp' R A). }
  assert (Ne : p_new <> p_old) by (intros E; apply Fr; rewrite E; exact Hp).
  assert (Ho' : storage (order_pool b') !! p_old = Some o_old).
  { rewrite Ast, lookup_insert_ne by exact Ne. exact Ho. }
  assert (Hp' : p_old ∈ book_ptrs b') by (rewrite P; right; exact Hp).
  repeat split.
  - rewrite Al. apply lookup_insert_eq.
  - exact Ne.
  - rewrite Ast. apply lookup_insert_eq.
  - exact Ho'.
  - intros id H. rewrite Al in H.
    destruct (decide (id = order_id o)) as [->|D].
    + rewrite lookup_insert_eq in H. congruence.
    + rewrite lookup_insert_ne in H by congruence.
      destruct (inv_index b R id p_old H) as (_ & o1 & Ho1 & Hid1). congruence.
  - pose proof (side_of_node_buy b' p_old o_old R' Hp' Ho') as Hs.
    pose proof (side_of_ok b' (is_buy o_old) R') as Ok.
    destruct (side_ok_locate _ _ _ _ p_old Ok Hs)
      as (m1 & k & l & m2 & o2 & Es & Hq & Ho2 & _ & _ & E).
    assert (o2 = o_old) as -> by congruence.
    exists k, l. rewrite Es. repeat split; try assumption; try apply E.
    + apply elem_of_app. right. left.
    + destruct Ok as [_ F]. rewrite Es, Forall_app, Forall_cons in F.
      destruct F as (_ & [_ _ T _] & _). cbn in T. rewrite T.
      rewrite (queue_quantities_erase _ p_old o_old (orders l) Hq Ho').
      reflexivity.
Qed.

(** ** Time priority (C6) *)

Lemma StronglySorted_lookup {A} (R : A -> A -> Prop) l i j x y :
  StronglySorted R l -> l !! i = Some x -> l !! j = Some y -> (i < j)%nat ->
  R x y.
Proof.
  intros S. revert i j. induction S as [|z l S IH F]; intros i j Hi Hj Hij.
  - discriminate.
  - destruct j as [|j]; [lia|]. destruct i as [|i]; cbn in *.
    + injection Hi as ->. rewrite Forall_forall in F. apply F.
      eapply list_elem_of_lookup_2. eassumption.
    + eapply IH; try eassumption. lia.
Qed.

Lemma StronglySorted_weaken {A} (R R' : A -> A -> Prop) l :
  (forall x y, x ∈ l -> y ∈ l -> R x y -> R' x y) ->
  StronglySorted R l -> StronglySorted R' l.
Proof.
  intros H S. induction S as [|z l S IH F]; constructor.
  - apply IH. intros x y Hx Hy. apply H; right; assumption.
  - rewrite Forall_forall in *. intros y Hy. apply H; [left|right; exact Hy|].
    apply F, Hy.
Qed.

Lemma StronglySorted_sub {A} (R : A -> A -> Prop) l l' :
  l' `sublist_of` l -> StronglySorted R l -> StronglySorted R l'.
Proof.
  intros Sub S. revert l' Sub. induction S as [|z l S IH F]; intros l' Sub.
  - apply sublist_nil_r in Sub as ->. constructor.
  - apply sublist_cons_r in Sub as [Sub|(l'' & -> & Sub)].
    + apply IH, Sub.
    + constructor; [apply IH, Sub|].
      rewrite Forall_forall in *. intros y Hy. apply F.
      eapply elem_of_sublist; eassumption.
Qed.

Lemma arrived_before_insert arrival p n x y :
  x <> p -> y <> p ->
  arrived_before arrival x y -> arrived_before (<[p := n]> arrival) x y.
Proof.
  intros Hx Hy (tx & ty & H1 & H2 & H3). exists tx, ty.
  rewrite !lookup_insert_ne by congruence. auto.
Qed.

Lemma queue_arrivals_insert arrival p n q :
  p ∉ q -> StronglySorted (arrived_before arrival) q ->
  StronglySorted (arrived_before (<[p := n]> arrival)) q.
Proof.
  intros Hp. apply StronglySorted_weaken. intros x y Hx Hy.
  apply arrived_before_insert; intros ->; contradiction.
Qed.

Lemma queue_arrivals_snoc arrival p n q :
  p ∉ q -> StronglySorted (arrived_before arrival) q ->
  (forall x, x ∈ q -> exists t, arrival !! x = Some t /\ (t < n)%nat) ->
  StronglySorted (arrived_before (<[p := n]> arrival)) (q ++ [p]).
Proof.
  intros Hp S B. apply StronglySorted_app. repeat split.
  - intros x y Hx Hy. apply list_elem_of_singleton in Hy as ->.
    destruct (B x Hx) as (t & Ht & Hlt). exists t, n.
    rewrite lookup_insert_eq, lookup_insert_ne by (intros ->; contradiction).
    auto.
  - apply queue_arrivals_insert; assumption.
  - repeat constructor.
Qed.

Lemma side_arrivals_insert arrival p n m :
  p ∉ side_ptrs m -> side_arrivals arrival m ->
  side_arrivals (<[p := n]> arrival) m.
Proof.
  intros Hp F. unfold side_arrivals in *. rewrite Forall_forall in *.
  intros [k l] Hkl. apply queue_arrivals_insert; [|apply (F _ Hkl)].
  intros H. apply Hp. apply elem_of_side_ptrs.
  apply list_elem_of_split in Hkl as (m1 & m2 & ->). eauto 6.
Qed.

Lemma side_arrivals_add comp `{!StrictWeak comp} arrival p n m o :
  sorted_map comp m -> p ∉ side_ptrs m -> side_arrivals arrival m ->
  (forall x, x ∈ side_ptrs m -> exists t, arrival !! x = Some t /\ (t < n)%nat) ->
  side_arrivals (<[p := n]> arrival) (add_to_side comp m p o).
Proof.
  intros S Hp F B. pose proof (side_arrivals_insert arrival p n m Hp F) as F'.
  unfold add_to_side, side_arrivals in *.
  destruct (map_subscript_spec comp (price o)
              (fun level =>
                 {| level_price := price o;
                    total_quantity := wrap64 (total_quantity level + quantity o);
                    orders := orders level ++ [p] |}) m S)
    as [(m1 & k' & l & m2 & -> & E & ->)|(m1 & m2 & -> & _ & _ & ->)].
  - rewrite Forall_app, Forall_cons in *. destruct F as (_ & Fl & _).
    destruct F' as (F1 & _ & F2). repeat split; try assumption. cbn in *.
    apply queue_arrivals_snoc; try assumption.
    + intros H. apply Hp. apply elem_of_side_ptrs. eauto 6.
    + intros x Hx. apply B. apply elem_of_side_ptrs. eauto 6.
  - rewrite Forall_app in *. destruct F' as [F1 F2].
    split; [assumption|]. constructor; [|assumption]. cbn.
    repeat constructor.
Qed.

Lemma side_arrivals_remove comp `{!StrictWeak comp} buy st arrival m p o :
  side_ok comp buy st m -> p ∈ side_ptrs m -> st !! p = Some o ->
  side_arrivals arrival m ->
  side_arrivals arrival (remove_from_side comp m p o).
Proof.
  intros Ok Hp Ho F.
  destruct (remove_from_side_shape comp buy st m p o Ok Hp Ho)
    as (m1 & k & l & m2 & -> & Hl & E & Hn & ->).
  unfold side_arrivals in *. rewrite Forall_app, Forall_cons in F.
  destruct F as (F1 & Fl & F2). apply Forall_app. split; [assumption|].
  destruct (list_erase p (orders l)) as [|x q] eqn:Eq; [assumption|].
  constructor; [|assumption]. cbn in *. rewrite <- Eq.
  eapply StronglySorted_sub; [apply list_erase_sublist|exact Fl].
Qed.

Lemma side_arrivals_view arrival m m' :
  queue_view m' = queue_view m -> side_arrivals arrival m ->
  side_arrivals arrival m'.
Proof.
  unfold side_arrivals, queue_view. revert m'.
  induction m as [|[k l] m IH]; intros [|[k' l'] m'] E F; try discriminate.
  - constructor.
  - cbn in E. injection E as _ El Em. apply Forall_cons in F as [Fl F].
    constructor; [cbn in *; rewrite El; exact Fl|]. apply IH; assumption.
Qed.

Lemma arrivals_ok_sides n b arrival :
  arrivals_ok n b arrival <->
  side_arrivals arrival (bid_levels b) /\ side_arrivals arrival (ask_levels b)
  /\ forall p, p ∈ book_ptrs b -> exists t, arrival !! p = Some t /\ (t < n)%nat.
Proof. unfold arrivals_ok, side_arrivals. rewrite Forall_app. tauto. Qed.

Lemma arrivals_ok_later n b arrival :
  arrivals_ok n b arrival -> arrivals_ok (S n) b arrival.
Proof.
  intros [F B]. split; [assumption|]. intros p Hp.
  destruct (B p Hp) as (t & Ht & Hlt). exists t. split; [assumption|lia].
Qed.

Lemma add_order_arrivals n b arrival o :
  book_inv b -> not_nan (price o) -> arrivals_ok n b arrival ->
  arrivals_ok (S n) (add_order o b)
    (<[(allocate (order_pool b)).1 := n]> arrival).
Proof.
  intros I Hn A. apply arrivals_ok_sides in A as (Ab & Aa & B).
  pose proof (add_order_ptrs o b I Hn) as P.
  destruct (allocate (order_pool b)) as [p mp'] eqn:Al. cbn [fst] in *.
  pose proof (allocate_fresh b p mp' I Al) as Fr.
  destruct (add_order_fields o b p mp' Al) as (_ & Eb & Ea & _).
  assert (Fb : p ∉ side_ptrs (bid_levels b)).
  { intros H. apply Fr. unfold book_ptrs. rewrite elem_of_app. auto. }
  assert (Fa : p ∉ side_ptrs (ask_levels b)).
  { intros H. apply Fr. unfold book_ptrs. rewrite elem_of_app. auto. }
  apply arrivals_ok_sides. rewrite Eb, Ea. repeat split.
  - destruct (is_buy o).
    + apply (side_arrivals_add greater); try assumption; [apply I|].
      intros x Hx. apply B. unfold book_ptrs. rewrite elem_of_app. auto.
    + apply side_arrivals_insert; assumption.
  - destruct (is_buy o).
    + apply side_arrivals_insert; assumption.
    + apply (side_arrivals_add less); try assumption; [apply I|].
      intros x Hx. apply B. unfold book_ptrs. rewrite elem_of_app. auto.
  - intros x Hx. rewrite P in Hx. apply elem_of_cons in Hx as [->|Hx].
    + exists n. rewrite lookup_insert_eq. split; [reflexivity|lia].
    + destruct (B x Hx) as (t & Ht & Hlt). exists t.
      rewrite lookup_insert_ne by (intros ->; contradiction).
      split; [assumption|lia].
Qed.

Lemma cancel_order_arrivals n b arrival id r b' :
  book_inv b -> arrivals_ok n b arrival ->
  cancel_order id b = Some (r, b') -> arrivals_ok n b' arrival.
Proof.
  intros I A C. destruct (order_lookup b !! id) as [p|] eqn:Hl.
  2:{ rewrite (cancel_order_unknown id b Hl) in C. congruence. }
  destruct (inv_index b I id p Hl) as (Hp & o & Ho & _).
  assert (r = true) as ->.
  { rewrite (cancel_order_resting id b p o Hl Ho) in C. congruence. }
  pose proof (cancel_order_ptrs id b p b' I Hl C) as P.
  pose proof (side_of_node b p o I Hp Ho) as Sd.
  rewrite (cancel_order_resting id b p o Hl Ho) in C. injection C as <-.
  apply arrivals_ok_sides in A as (Ab & Aa & B).
  apply arrivals_ok_sides. cbn [bid_levels ask_levels]. repeat split.
  - destruct (is_buy o); [|assumption].
    apply (side_arrivals_remove greater true _ _ _ p o (inv_bids b I));
      tauto.
  - destruct (is_buy o); [assumption|].
    apply (side_arrivals_remove less false _ _ _ p o (inv_asks b I));
      tauto.
  - intros x Hx. apply B. rewrite P. right. exact Hx.
Qed.

Lemma bump_amends_arrivals n b arrival :
  arrivals_ok n b arrival -> arrivals_ok n (bump_amends b) arrival.
Proof. intros A. exact A. Qed.

Lemma amended_in_place_arrivals n b arrival id p o new_quantity :
  book_inv b -> order_lookup b !! id = Some p ->
  storage (order_pool b) !! p = Some o ->
  arrivals_ok n b arrival ->
  arrivals_ok n (amended_in_place b p o new_quantity) arrival.
Proof.
  intros I Hl Ho A. apply arrivals_ok_sides in A as (Ab & Aa & B).
  destruct (amended_in_place_inv b id p o new_quantity I Hl Ho) as (_ & P & _).
  destruct (inv_index b I id p Hl) as (Hp & _).
  pose proof (side_of_node b p o I Hp Ho) as Sd.
  apply arrivals_ok_sides. rewrite P. split; [|split]; [| |exact B].
  - unfold amended_in_place. destruct (is_buy o) eqn:Hb; [|exact Ab].
    cbn [bid_levels].
    destruct (update_quantity_in_place_shape greater true _ _ p o new_quantity
                (order_pool b) (inv_bids b I) (proj1 Sd) Ho)
      as (m1 & k & l & m2 & Es & _ & _ & ->).
    cbn [fst]. eapply side_arrivals_view; [|exact Ab].
    rewrite Es, !queue_view_app. reflexivity.
  - unfold amended_in_place. destruct (is_buy o) eqn:Hb; [exact Aa|].
    cbn [ask_levels].
    destruct (update_quantity_in_place_shape less false _ _ p o new_quantity
                (order_pool b) (inv_asks b I) (proj1 Sd) Ho)
      as (m1 & k & l & m2 & Es & _ & _ & ->).
    cbn [fst]. eapply side_arrivals_view; [|exact Aa].
    rewrite Es, !queue_view_app. reflexivity.
Qed.

Lemma exec_arrivals n c b b' arrival :
  book_inv b -> valid_call c -> arrivals_ok n b arrival ->
  exec c b = Some b' ->
  arrivals_ok (S n) b' (stamp n c b b' arrival).
Proof.
  intros I V A E. unfold stamp.
  destruct c as [o|id|id new_price new_quantity now]; cbn in E.
  - injection E as <-. cbn [inserted_id].
    destruct (add_order_index o b) as [-> _]. rewrite lookup_insert_eq.
    apply add_order_arrivals; [assumption|apply V|assumption].
  - cbn [inserted_id].
    destruct (cancel_order id b) as [[r b1]|] eqn:C; [|discriminate].
    injection E as <-. apply arrivals_ok_later.
    eapply cancel_order_arrivals; eassumption.
  - destruct (amend_order id new_price new_quantity now b) as [[r b1]|] eqn:M;
      [|discriminate].
    injection E as <-. cbn [inserted_id].
    destruct (order_lookup b !! id) as [p|] eqn:Hl.
    2:{ rewrite (amend_order_unknown _ _ _ _ _ Hl) in M. injection M as _ <-.
        cbn. apply arrivals_ok_later, A. }
    destruct (inv_index b I id p Hl) as (_ & o & Ho & Hid).
    cbn [mbind option_bind]. rewrite Ho. cbn [mbind option_bind].
    destruct (price_changed (price o) new_price) eqn:Hc.
    + pose proof (cancel_order_resting id b p o Hl Ho) as C.
      rewrite (amend_order_price_path _ _ _ _ _ _ _ _ Hl Ho Hc C) in M.
      injection M as _ <-. set (b1 := mkBook _ _ _ _ _ _ _) in *.
      set (o' := mkOrder _ _ _ _ _).
      cbn [bump_amends order_lookup].
      destruct (add_order_index o' b1) as [-> _]. cbn [order_id o'].
      rewrite Hid, lookup_insert_eq.
      apply bump_amends_arrivals, add_order_arrivals.
      * eapply cancel_order_inv; eassumption.
      * cbn. apply price_changed_numbers in Hc. tauto.
      * eapply cancel_order_arrivals; eassumption.
    + rewrite (amend_order_quantity_path _ _ _ _ _ _ _ Hl Ho Hc) in M.
      injection M as _ <-. apply arrivals_ok_later, bump_amends_arrivals.
      eapply amended_in_place_arrivals; eassumption.
Qed.

Lemma run_stamped_arrivals cs n b arrival :
  book_inv b -> Forall valid_call cs -> arrivals_ok n b arrival ->
  forall b', run cs b = Some b' ->
  exists arrival',
    run_stamped n cs b arrival = Some (b', arrival')
    /\ arrivals_ok (n + length cs) b' arrival'.
Proof.
  revert n b arrival. induction cs as [|c cs IH]; intros n b arrival I V A b' R.
  - cbn in *. injection R as <-. exists arrival. rewrite Nat.add_0_r. auto.
  - apply Forall_cons in V as [V1 V2]. cbn in R.
    destruct (exec c b) as [b1|] eqn:E; [|discriminate]. cbn in R.
    destruct (IH (S n) b1 (stamp n c b b1 arrival)
                (exec_inv c b b1 I V1 E) V2
                (exec_arrivals n c b b1 arrival I V1 A E) b' R)
      as (arrival' & R' & A').
    exists arrival'. cbn. rewrite E. cbn. split; [exact R'|].
    replace (n + S (length cs))%nat with (S n + length cs)%nat by lia.
    exact A'.
Qed.

Lemma arrivals_ok_empty : arrivals_ok 0 empty_book ∅.
Proof.
  split; [constructor|]. intros p H. apply elem_of_nil in H. contradiction.
Qed.

(** ** An insertion is made at the tail *)

Lemma run_app cs1 cs2 b :
  run (cs1 ++ cs2) b = b1 ← run cs1 b; run cs2 b1.
Proof.
  revert b. induction cs1 as [|c cs1 IH]; intros b; cbn; [reflexivity|].
  destruct (exec c b) as [b1|]; cbn; [apply IH|reflexivity].
Qed.

Lemma add_order_tail o b :
  book_inv b -> not_nan (price o) ->
  order_lookup (add_order o b) !! order_id o
  = Some (allocate (order_pool b)).1
  /\ storage (order_pool (add_order o b)) !! (allocate (order_pool b)).1
     = Some o
  /\ queue_at (comp_of (is_buy o)) (price o) (side_of (is_buy o) (add_order o b))
     = queue_at (comp_of (is_buy o)) (price o) (side_of (is_buy o) b)
       ++ [(allocate (order_pool b)).1].
Proof.
  intros I Hn. destruct (add_order_sides o b) as (As & _).
  destruct (add_order_index o b) as (Al & Ast).
  pose proof (side_of_ok b (is_buy o) I) as Ok.
  pose proof (comp_of_strict_weak (is_buy o)) as SW.
  destruct (queue_at_add (comp_of (is_buy o)) (side_of (is_buy o) b)
              (allocate (order_pool b)).1 o (proj1 Ok) Hn) as (Q & _).
  split; [rewrite Al; apply lookup_insert_eq|].
  split; [rewrite Ast; apply lookup_insert_eq|].
  rewrite As. exact Q.
Qed.

(** A call that executes [add_order] leaves the record that the index
    names for its identifier behind the records that rested at its price
    on its side before the call. *)
Lemma exec_inserts_at_tail c b b' id :
  book_inv b -> valid_call c -> exec c b = Some b' ->
  inserted_id c b = Some id ->
  exists p o,
    order_lookup b' !! id = Some p
    /\ storage (order_pool b') !! p = Some o
    /\ order_id o = id
    /\ queue_at (comp_of (is_buy o)) (price o) (side_of (is_buy o) b')
       = queue_at (comp_of (is_buy o)) (price o) (side_of (is_buy o) b) ++ [p].
Proof.
  intros I V E Hi.
  destruct c as [o|id0|id0 new_price new_quantity now];
    cbn [exec] in E; cbn [inserted_id] in Hi.
  - injection E as <-. injection Hi as <-.
    destruct (add_order_tail o b I (proj1 (proj2 V))) as (L & S & Q).
    exists (allocate (order_pool b)).1, o. auto.
  - discriminate.
  - destruct (order_lookup b !! id0) as [p|] eqn:Hl; [|discriminate].
    cbn [mbind option_bind] in Hi.
    destruct (storage (order_pool b) !! p) as [o|] eqn:Ho; [|discriminate].
    cbn [mbind option_bind] in Hi.
    destruct (price_changed (price o) new_price) eqn:Hc; [|discriminate Hi].
    injection Hi as <-.
    destruct (inv_index b I id0 p Hl) as (Hp & o0 & Ho0 & Hid).
    assert (o0 = o) as -> by congruence.
    pose proof (cancel_order_resting id0 b p o Hl Ho) as C.
    set (b1 := mkBook _ _ _ _ _ _ _) in C.
    pose proof (cancel_order_inv id0 b true b1 I C) as I1.
    rewrite (amend_order_price_path _ _ new_quantity now _ _ _ _ Hl Ho Hc C)
      in E.
    cbn [mbind option_bind snd] in E. injection E as <-.
    set (o' := mkOrder (order_id o) (is_buy o) new_price new_quantity now).
    destruct (price_changed_numbers _ _ Hc) as [_ Hn].
    destruct (add_order_tail o' b1 I1 Hn) as (L & S & Q).
    cbn [o' order_id is_buy price] in L, Q.
    destruct (cancel_order_sides id0 b p o b1 Hl Ho C) as (Es & _).
    pose proof (side_of_node_buy b p o I Hp Ho) as Hs.
    pose proof (side_of_ok b (is_buy o) I) as Ok.
    pose proof (comp_of_strict_weak (is_buy o)) as SW.
    assert (Hcomp : comp_of (is_buy o) = less \/ comp_of (is_buy o) = greater).
    { unfold comp_of. destruct (is_buy o); auto. }
    assert (N1 : ~ key_equiv (comp_of (is_buy o)) new_price (price o)).
    { exact (price_changed_inequivalent _ (price o) new_price Hcomp Hc). }
    assert (Fdst : map_find (comp_of (is_buy o)) new_price
                     (side_of (is_buy o) b1)
                   = map_find (comp_of (is_buy o)) new_price
                       (side_of (is_buy o) b)).
    { rewrite Es.
      apply (map_find_remove_other _ (is_buy o) _ _ p o new_price Ok Hs Ho N1). }
    exists (allocate (order_pool b1)).1, o'.
    split; [rewrite <- Hid; exact L|]. split; [exact S|].
    split; [exact Hid|].
    cbn [o' is_buy price].
    assert (Sb : forall s, side_of s (bump_amends (add_order o' b1))
                           = side_of s (add_order o' b1)).
    { intros []; reflexivity. }
    rewrite Sb, Q. unfold queue_at. rewrite Fdst. reflexivity.
Qed.

(** C6.  Replay any sequence of calls from the empty book, stamping each
    record with the number of the call that added it, or added it again at
    a new price.  In the book reached every queued record has a stamp, and
    along every queue of either side from front to back the stamps
    increase: of two orders resting at one price, the one that arrived
    earlier comes first.  Every insertion is made at the tail: whichever
    call of the sequence executes [add_order], the record that it stamps
    stands, when the call returns, behind the records that rested at its
    price on its side before the call. *)
Theorem C6_time_priority cs b :
  Forall valid_call cs -> run cs empty_book = Some b ->
  exists arrival,
    run_stamped 0 cs empty_book ∅ = Some (b, arrival)
    /\ (forall k l, (k, l) ∈ bid_levels b ++ ask_levels b ->
        forall i j p q,
          orders l !! i = Some p -> orders l !! j = Some q ->
          ((i < j)%nat <-> arrived_before arrival p q))
    /\ (forall p, p ∈ book_ptrs b ->
        exists t, arrival !! p = Some t /\ (t < length cs)%nat)
    /\ (forall cs1 c cs2, cs = cs1 ++ c :: cs2 ->
        exists b1 b2,
          run cs1 empty_book = Some b1
          /\ exec c b1 = Some b2
          /\ run cs2 b2 = Some b
          /\ forall id, inserted_id c b1 = Some id ->
             exists p o,
               order_lookup b2 !! id = Some p
               /\ storage (order_pool b2) !! p = Some o
               /\ order_id o = id
               /\ queue_at (comp_of (is_buy o)) (price o)
                    (side_of (is_buy o) b2)
                  = queue_at (comp_of (is_buy o)) (price o)
                      (side_of (is_buy o) b1) ++ [p]
               /\ forall arrival1,
                    stamp (length cs1) c b1 b2 arrival1 !! p
                    = Some (length cs1)).
Proof.
  intros V R.
  destruct (run_stamped_arrivals cs 0 empty_book ∅ book_inv_empty V
              arrivals_ok_empty b R) as (arrival & Rs & [F St]).
  exists arrival. split; [exact Rs|]. split; [|split; [exact St|]].
  - intros k l Hkl i j p q Hi Hj. rewrite Forall_forall in F.
    pose proof (F _ Hkl) as S. cbn in S. split.
    + intros Hij. exact (StronglySorted_lookup _ _ i j p q S Hi Hj Hij).
    + intros (tp & tq & Hp & Hq & Hlt).
      destruct (lt_eq_lt_dec i j) as [[Hij|Hij]|Hij]; [exact Hij| |].
      * subst j. assert (p = q) by congruence. subst q.
        rewrite Hp in Hq. injection Hq as ->. lia.
      * destruct (StronglySorted_lookup _ _ j i q p S Hj Hi Hij)
          as (tq' & tp' & Hq' & Hp' & Hlt').
        rewrite Hp in Hp'. rewrite Hq in Hq'.
        injection Hp' as <-. injection Hq' as <-. lia.
  - intros cs1 c cs2 ->.
    apply Forall_app in V as [V1 V2]. apply Forall_cons in V2 as [Vc V2].
    destruct (run_total cs1 empty_book book_inv_empty V1) as (b1 & R1).
    pose proof (run_inv cs1 empty_book b1 book_inv_empty V1 R1) as I1.
    destruct (exec_total c b1 I1) as (b2 & E).
    exists b1, b2. split; [exact R1|]. split; [exact E|].
    split.
    { rewrite run_app, R1 in R. cbn in R. rewrite E in R. exact R. }
    intros id Hi.
    destruct (exec_inserts_at_tail c b1 b2 id I1 Vc E Hi)
      as (p & o & L & S & Hid & Q).
    exists p, o. split; [exact L|]. split; [exact S|]. split; [exact Hid|].
    split; [exact Q|].
    intros arrival1. unfold stamp. rewrite Hi, L. apply lookup_insert_eq.
Qed.

(** ** Worked books *)

Ltac solve_valid_calls :=
  repeat constructor;
  try (unfold in_u64, u64_modulus; cbn; lia);
  try (unfold not_nan; vm_compute; reflexivity).

Lemma reachable_run cs b :
  Forall valid_call cs -> run cs empty_book = Some b -> reachable b.
Proof. intros V R. exists cs. split; assumption. Defined.

Lemma basic_book_reachable : reachable basic_book.
Proof.
  apply (reachable_run basic_test_adds).
  - unfold basic_test_adds. solve_valid_calls.
  - vm_compute. reflexivity.
Defined.

Lemma overflow_book_reachable : reachable overflow_book.
Proof.
  apply (reachable_run overflow_calls).
  - unfold overflow_calls. solve_valid_calls.
  - vm_compute. reflexivity.
Defined.

Lemma duplicate_book_reachable : reachable duplicate_book.
Proof.
  apply (reachable_run duplicate_calls).
  - unfold duplicate_calls. solve_valid_calls.
  - vm_compute. reflexivity.
Defined.

Lemma sentinel_book_reachable : reachable sentinel_book.
Proof.
  apply (reachable_run sentinel_calls).
  - unfold sentinel_calls. solve_valid_calls.
  - vm_compute. reflexivity.
Defined.

Lemma empty_book_reachable : reachable empty_book.
Proof. apply (reachable_run []); [constructor|reflexivity]. Defined.

(** Scenarios A to E of the specification. *)
Example scenario_A :
  option_map (fun b => level_view (bid_levels b))
    (run [Add (mkOrder 1 true 100 100 1); Add (mkOrder 3 true 100 150 2)]
       empty_book)
  = Some [(100%float, 250, [(0, 0); (0, 1)]%nat)].
Proof. vm_compute. reflexivity. Qed.

Example scenario_B :
  option_map (fun b => level_view (bid_levels b))
    (run [Add (mkOrder 1 true 100 100 1); Add (mkOrder 3 true 100 150 2);
          Cancel 1] empty_book)
  = Some [(100%float, 150, [(0, 1)]%nat)].
Proof. vm_compute. reflexivity. Qed.

Example scenario_C :
  option_map (fun b => level_view (bid_levels b))
    (run [Add (mkOrder 1 true 100 100 1); Add (mkOrder 3 true 100 150 2);
          Cancel 1; Amend 3 100 500 3] empty_book)
  = Some [(100%float, 500, [(0, 1)]%nat)].
Proof. vm_compute. reflexivity. Qed.

Example scenario_D :
  option_map (fun b => level_view (ask_levels b))
    (run [Add (mkOrder 2001 false 101 100 1); Amend 2001 100.5 100 2]
       empty_book)
  = Some [(100.5%float, 100, [(0, 0)]%nat)].
Proof. vm_compute. reflexivity. Qed.

Example scenario_E :
  option_map (get_snapshot 1)
    (run [Add (mkOrder 1 true 100 100 1); Add (mkOrder 2 true 99.5 200 2);
          Add (mkOrder 3 true 100 150 3)] empty_book)
  = Some ([mkPriceLevel 100 250], []).
Proof. vm_compute. reflexivity. Qed.

(** The book of [run_basic_test] after its three updates. *)
Example basic_test_levels :
  level_view (bid_levels basic_test_book)
  = [(100%float, 600, [(0, 0); (0, 2)]%nat); (98%float, 300, [(0, 3)]%nat)]
  /\ level_view (ask_levels basic_test_book)
     = [(100.5%float, 100, [(0, 4)]%nat); (101%float, 150, [(0, 6)]%nat);
        (102%float, 200, [(0, 5)]%nat); (103.5%float, 300, [(0, 7)]%nat)]
  /\ (total_orders basic_test_book, total_cancels basic_test_book,
      total_amends basic_test_book) = (9, 2, 2).
Proof. vm_compute. repeat split; reflexivity. Qed.

(** ** The theorems on the worked books *)

(** The empty book and a book with a bid at [0.0] and an ask at the
    largest double have the same best prices: no recogniser of the
    returned values tells an empty side from one with levels. *)
Lemma C2_sentinels_collide :
  reachable empty_book /\ reachable sentinel_book
  /\ bid_levels empty_book = [] /\ ask_levels empty_book = []
  /\ bid_levels sentinel_book <> [] /\ ask_levels sentinel_book <> []
  /\ get_best_prices empty_book = get_best_prices sentinel_book
  /\ ~ (exists is_none,
          signals_absence is_none (fun b => (get_best_prices b).1) bid_levels)
  /\ ~ (exists is_none,
          signals_absence is_none (fun b => (get_best_prices b).2) ask_levels).
Proof.
  assert (E : get_best_prices empty_book = get_best_prices sentinel_book)
    by (vm_compute; reflexivity).
  assert (Nb : bid_levels sentinel_book <> []) by (vm_compute; discriminate).
  assert (Na : ask_levels sentinel_book <> []) by (vm_compute; discriminate).
  repeat split; try assumption; try reflexivity.
  - exact empty_book_reachable.
  - exact sentinel_book_reachable.
  - intros (f & H).
    destruct (H empty_book empty_book_reachable) as [H1 _].
    destruct (H sentinel_book sentinel_book_reachable) as [_ H2].
    cbn beta in *. rewrite <- E in H2. apply Nb, H2, H1. reflexivity.
  - intros (f & H).
    destruct (H empty_book empty_book_reachable) as [H1 _].
    destruct (H sentinel_book sentinel_book_reachable) as [_ H2].
    cbn beta in *. rewrite <- E in H2. apply Na, H2, H1. reflexivity.
Qed.

Lemma C2_witness :
  reachable basic_book
  /\ (bid_levels basic_book <> [] ->
      (exists l, (((get_best_prices basic_book).1, l) : float * Level)
                 ∈ bid_levels basic_book)
      /\ forall k l, (k, l) ∈ bid_levels basic_book ->
                     flt (get_best_prices basic_book).1 k = false).
Proof.
  split; [exact basic_book_reachable|].
  exact (proj1 (proj2 (proj2 (C2_best_prices basic_book basic_book_reachable)))).
Defined.

Lemma C3_witness :
  (order_lookup empty_book !! 7 = None
   /\ cancel_order 7 empty_book = Some (false, empty_book))
  /\ (reachable basic_book /\ is_Some (order_lookup basic_book !! 1002)
      /\ exists b1, cancel_order 1002 basic_book = Some (true, b1)
                    /\ cancel_order 1002 b1 = Some (false, b1)).
Proof.
  split.
  - split; [reflexivity|].
    exact (proj1 (proj1 (C3_unknown_identifier empty_book 7) eq_refl)).
  - assert (H : is_Some (order_lookup basic_book !! 1002)).
    { exists (0, 1)%nat. vm_compute. reflexivity. }
    split; [exact basic_book_reachable|]. split; [exact H|].
    exact (proj2 (C3_unknown_identifier basic_book 1002)
             basic_book_reachable H).
Defined.

Lemma C4_witness :
  reachable basic_book
  /\ order_lookup basic_book !! 2001 = Some (0, 4)%nat
  /\ storage (order_pool basic_book) !! (0, 4)%nat
     = Some (mkOrder 2001 false 101 100 5000000)
  /\ price_changed 101 100.5 = true
  /\ exists b' p',
       amend_order 2001 100.5 100 9500000 basic_book = Some (true, b')
       /\ queue_at (comp_of false) 100.5 (side_of false b')
          = queue_at (comp_of false) 100.5 (side_of false basic_book) ++ [p']
       /\ order_lookup b' !! 2001 = Some p'
       /\ ((0, 4)%nat ∉ queue_at (comp_of false) 101 (side_of false b')).
Proof.
  assert (Hl : order_lookup basic_book !! 2001 = Some (0, 4)%nat)
    by (vm_compute; reflexivity).
  assert (Ho : storage (order_pool basic_book) !! (0, 4)%nat
               = Some (mkOrder 2001 false 101 100 5000000))
    by (vm_compute; reflexivity).
  assert (Hc : price_changed 101 100.5 = true) by (vm_compute; reflexivity).
  repeat (split; [first [exact basic_book_reachable | assumption]|]).
  destruct (C4_price_changing_amend basic_book 2001 100.5 100 9500000
              (0, 4)%nat (mkOrder 2001 false 101 100 5000000)
              basic_book_reachable Hl Ho Hc)
    as (b1 & b' & p' & _ & A & _ & _ & _ & _ & Q & _ & L & _ & _ & G & _).
  exists b', p'. split; [exact A|]. split; [exact Q|]. split; [exact L|exact G].
Defined.



Lemma C6_witness :
  Forall valid_call basic_test_calls
  /\ run basic_test_calls empty_book = Some basic_test_book
  /\ exists arrival,
       run_stamped 0 basic_test_calls empty_book ∅
       = Some (basic_test_book, arrival)
       /\ (forall k l,
            (k, l) ∈ bid_levels basic_test_book ++ ask_levels basic_test_book ->
            forall i j p q,
              orders l !! i = Some p -> orders l !! j = Some q ->
              ((i < j)%nat <-> arrived_before arrival p q))
       /\ exists b1 b2,
            run (basic_test_adds ++ [Cancel 1002; Amend 1003 100 500 9000000])
              empty_book = Some b1
            /\ exec (Amend 2001 100.5 100 9500000) b1 = Some b2
            /\ run [] b2 = Some basic_test_book
            /\ forall id,
                 inserted_id (Amend 2001 100.5 100 9500000) b1 = Some id ->
                 exists p o,
                   order_lookup b2 !! id = Some p
                   /\ storage (order_pool b2) !! p = Some o
                   /\ order_id o = id
                   /\ queue_at (comp_of (is_buy o)) (price o)
                        (side_of (is_buy o) b2)
                      = queue_at (comp_of (is_buy o)) (price o)
                          (side_of (is_buy o) b1) ++ [p]
                   /\ forall arrival1,
                        stamp
                          (length
                             (basic_test_adds
                              ++ [Cancel 1002; Amend 1003 100 500 9000000]))
                          (Amend 2001 100.5 100 9500000) b1 b2 arrival1 !! p
                        = Some
                            (length
                               (basic_test_adds
                                ++ [Cancel 1002;
                                    Amend 1003 100 500 9000000])).
Proof.
  assert (V : Forall valid_call basic_test_calls).
  { unfold basic_test_calls, basic_test_adds. cbn [app]. solve_valid_calls. }
  assert (R : run basic_test_calls empty_book = Some basic_test_book)
    by (vm_compute; reflexivity).
  split; [exact V|]. split; [exact R|].
  destruct (C6_time_priority basic_test_calls basic_test_book V R)
    as (arrival & Rs & F & _ & T).
  exists arrival. split; [exact Rs|]. split; [exact F|].
  exact (T (basic_test_adds ++ [Cancel 1002; Amend 1003 100 500 9000000])
           (Amend 2001 100.5 100 9500000) [] eq_refl).
Defined.

Lemma C7_witness :
  reachable basic_book
  /\ forall i j x y,
       bid_levels basic_book !! i = Some x ->
       bid_levels basic_book !! j = Some y -> (i < j)%nat ->
       flt y.1 x.1 = true /\ (x.1 =? y.1)%float = false.
Proof.
  split; [exact basic_book_reachable|].
  exact (proj1 (C7_price_order basic_book basic_book_reachable)).
Defined.

Lemma C8_witness :
  reachable basic_book
  /\ order_lookup basic_book !! 3001 = None
  /\ not_nan 99
  /\ exists b2,
       cancel_order 3001 (add_order (mkOrder 3001 true 99 50 9000000) basic_book)
       = Some (true, b2)
       /\ level_view (bid_levels b2) = level_view (bid_levels basic_book)
       /\ level_view (ask_levels b2) = level_view (ask_levels basic_book)
       /\ order_lookup b2 = order_lookup basic_book.
Proof.
  assert (Hl : order_lookup basic_book !! 3001 = None)
    by (vm_compute; reflexivity).
  assert (Hn : not_nan 99) by (vm_compute; reflexivity).
  repeat (split; [first [exact basic_book_reachable | assumption]|]).
  exact (C8_add_then_cancel basic_book (mkOrder 3001 true 99 50 9000000)
           basic_book_reachable Hl Hn).
Defined.

Lemma C9_witness :
  reachable basic_book
  /\ order_lookup basic_book !! 1001 = Some (0, 0)%nat
  /\ storage (order_pool basic_book) !! (0, 0)%nat
     = Some (mkOrder 1001 true 100 100 1000000)
  /\ not_nan 105
  /\ order_lookup (add_order (mkOrder 1001 false 105 7 9000000) basic_book)
       !! 1001
     = Some (allocate (order_pool basic_book)).1
  /\ (forall id,
        order_lookup (add_order (mkOrder 1001 false 105 7 9000000) basic_book)
          !! id <> Some (0, 0)%nat).
Proof.
  assert (Hl : order_lookup basic_book !! 1001 = Some (0, 0)%nat)
    by (vm_compute; reflexivity).
  assert (Ho : storage (order_pool basic_book) !! (0, 0)%nat
               = Some (mkOrder 1001 true 100 100 1000000))
    by (vm_compute; reflexivity).
  assert (Hn : not_nan 105) by (vm_compute; reflexivity).
  repeat (split; [first [exact basic_book_reachable | assumption]|]).
  destruct (C9_duplicate_identifier basic_book
              (mkOrder 1001 false 105 7 9000000) (0, 0)%nat
              (mkOrder 1001 true 100 100 1000000)
              basic_book_reachable Hl Ho Hn) as (I1 & _ & _ & _ & I5 & _).
  split; [exact I1|exact I5].
Defined.

Lemma C10_witness :
  order_lookup basic_book !! 2001 = Some (0, 4)%nat
  /\ storage (order_pool basic_book) !! (0, 4)%nat
     = Some (mkOrder 2001 false 101 100 5000000)
  /\ in_u64 (total_orders basic_book + 1)
  /\ in_u64 (total_cancels basic_book + 1)
  /\ in_u64 (total_amends basic_book + 1)
  /\ exists b',
       amend_order 2001 100.5 100 9500000 basic_book = Some (true, b')
       /\ total_amends b' = total_amends basic_book + 1
       /\ total_orders b' = total_orders basic_book + 1
       /\ total_cancels b' = total_cancels basic_book + 1.
Proof.
  assert (Hl : order_lookup basic_book !! 2001 = Some (0, 4)%nat)
    by (vm_compute; reflexivity).
  assert (Ho : storage (order_pool basic_book) !! (0, 4)%nat
               = Some (mkOrder 2001 false 101 100 5000000))
    by (vm_compute; reflexivity).
  assert (H1 : in_u64 (total_orders basic_book + 1))
    by (vm_compute; split; congruence).
  assert (H2 : in_u64 (total_cancels basic_book + 1))
    by (vm_compute; split; congruence).
  assert (H3 : in_u64 (total_amends basic_book + 1))
    by (vm_compute; split; congruence).
  repeat (split; [assumption|]).
  destruct (C10_amend_counters basic_book 2001 100.5 100 9500000
              (0, 4)%nat (mkOrder 2001 false 101 100 5000000) Hl Ho)
    as (b' & A & _ & _ & Ex).
  destruct (Ex H1 H2 H3) as (Ta & Tc).
  exists b'. split; [exact A|]. split; [exact Ta|]. exact Tc.
Defined.

(** ** The index and the queues under fresh identifiers (C1) *)

Lemma add_order_covers o b :
  book_inv b -> not_nan (price o) -> order_lookup b !! order_id o = None ->
  index_covers b -> index_covers (add_order o b).
Proof.
  intros I Hn Hf Cv p Hp. rewrite (add_order_ptrs o b I Hn) in Hp.
  destruct (add_order_index o b) as [-> _].
  apply elem_of_cons in Hp as [->|Hp].
  - exists (order_id o). apply lookup_insert_eq.
  - destruct (Cv p Hp) as (id & Hid). exists id.
    rewrite lookup_insert_ne; [exact Hid|]. intros <-. congruence.
Qed.

Lemma cancel_order_covers id b r b' :
  book_inv b -> cancel_order id b = Some (r, b') ->
  index_covers b -> index_covers b' /\ order_lookup b' !! id = None.
Proof.
  intros I C Cv. destruct (order_lookup b !! id) as [p|] eqn:Hl.
  2:{ rewrite (cancel_order_unknown id b Hl) in C. injection C as _ <-. auto. }
  destruct (inv_index b I id p Hl) as (Hp & o & Ho & _).
  assert (r = true) as ->.
  { rewrite (cancel_order_resting id b p o Hl Ho) in C. congruence. }
  pose proof (cancel_order_ptrs id b p b' I Hl C) as P.
  destruct (cancel_order_sides id b p o b' Hl Ho C) as (_ & _ & El & _).
  pose proof (inv_nodup b I) as N. rewrite P in N.
  apply NoDup_cons in N as [Np _]. rewrite El. split.
  - intros q Hq. destruct (Cv q) as (id' & Hid'); [rewrite P; right; exact Hq|].
    exists id'. rewrite El, lookup_delete_ne; [exact Hid'|].
    intros <-. assert (q = p) by congruence. subst q. contradiction.
  - apply lookup_delete_eq.
Qed.

Lemma exec_covers c b b' :
  book_inv b -> valid_call c -> fresh_call c b -> exec c b = Some b' ->
  index_covers b -> index_covers b'.
Proof.
  intros I V Fc E Cv. destruct c as [o|id|id new_price new_quantity now];
    cbn in E, Fc.
  - injection E as <-. apply add_order_covers; try assumption. apply V.
  - destruct (cancel_order id b) as [[r b1]|] eqn:C; [|discriminate].
    injection E as <-. eapply cancel_order_covers; eassumption.
  - destruct (amend_order id new_price new_quantity now b) as [[r b1]|] eqn:M;
      [|discriminate].
    injection E as <-.
    destruct (order_lookup b !! id) as [p|] eqn:Hl.
    2:{ rewrite (amend_order_unknown _ _ _ _ _ Hl) in M. injection M as _ <-.
        exact Cv. }
    destruct (inv_index b I id p Hl) as (_ & o & Ho & Hid).
    destruct (price_changed (price o) new_price) eqn:Hc.
    + pose proof (cancel_order_resting id b p o Hl Ho) as C.
      rewrite (amend_order_price_path _ _ _ _ _ _ _ _ Hl Ho Hc C) in M.
      injection M as _ <-. set (b1 := mkBook _ _ _ _ _ _ _) in *.
      destruct (cancel_order_covers id b true b1 I C Cv) as [Cv1 Hf].
      change (index_covers (add_order (mkOrder (order_id o) (is_buy o)
                                         new_price new_quantity now) b1)).
      apply add_order_covers; try assumption.
      * eapply cancel_order_inv; eassumption.
      * cbn. apply price_changed_numbers in Hc. tauto.
      * cbn. rewrite Hid. exact Hf.
    + rewrite (amend_order_quantity_path _ _ _ _ _ _ _ Hl Ho Hc) in M.
      injection M as _ <-.
      destruct (amended_in_place_inv b id p o new_quantity I Hl Ho)
        as (_ & P & _).
      intros q Hq. unfold index_covers in Cv.
      change (book_ptrs (bump_amends (amended_in_place b p o new_quantity)))
        with (book_ptrs (amended_in_place b p o new_quantity)) in Hq.
      rewrite P in Hq. destruct (Cv q Hq) as (id' & Hid').
      exists id'. unfold amended_in_place.
      destruct (is_buy o); exact Hid'.
Qed.

Lemma run_covers cs b b' :
  book_inv b -> Forall valid_call cs -> fresh_run cs b ->
  run cs b = Some b' -> index_covers b -> index_covers b'.
Proof.
  revert b. induction cs as [|c cs IH]; intros b I V Fr R Cv; cbn in R.
  - injection R as <-. exact Cv.
  - apply Forall_cons in V as [V1 V2]. destruct Fr as [F1 F2].
    destruct (exec c b) as [b1|] eqn:E; [|discriminate]. cbn in R.
    apply (IH b1); try assumption.
    + eapply exec_inv; eassumption.
    + eapply exec_covers; eassumption.
Qed.

Lemma indexed_quantity_pointers b buy :
  indexed_quantity buy b
  = sumZ (map (side_quantity (storage (order_pool b)) buy)
            (map_to_list (order_lookup b)).*2).
Proof.
  unfold indexed_quantity, indexed_orders.
  induction (map_to_list (order_lookup b)) as [|[id p] l IH]; [reflexivity|].
  rewrite fmap_cons. cbn [map snd].
  change (sumZ (side_quantity (storage (order_pool b)) buy p
                :: map (side_quantity (storage (order_pool b)) buy) l.*2))
    with (side_quantity (storage (order_pool b)) buy p
          + sumZ (map (side_quantity (storage (order_pool b)) buy) l.*2)).
  rewrite <- IH. cbn [omap list_omap snd]. unfold side_quantity.
  destruct (storage (order_pool b) !! p) as [o|]; [|reflexivity].
  destruct (decide (is_buy o = buy)) as [D|D].
  - rewrite filter_cons_True by exact D. reflexivity.
  - rewrite filter_cons_False by exact D. reflexivity.
Qed.

Lemma side_quantity_side comp buy buy' st m :
  side_ok comp buy st m ->
  sumZ (map (side_quantity st buy') (side_ptrs m))
  = if decide (buy = buy') then sumZ (queue_quantities st (side_ptrs m)) else 0.
Proof.
  intros Ok.
  assert (H : forall p, p ∈ side_ptrs m ->
              side_quantity st buy' p
              = if decide (buy = buy') then node_quantity st p else 0).
  { intros p Hp.
    destruct (side_ok_locate comp buy st m p Ok Hp)
      as (_ & _ & _ & _ & o & _ & _ & Ho & Hb & _).
    unfold side_quantity, node_quantity. rewrite Ho. cbn. rewrite Hb.
    reflexivity. }
  unfold queue_quantities. induction (side_ptrs m) as [|p q IH].
  - cbn. destruct (decide (buy = buy')); reflexivity.
  - change (side_quantity st buy' p + sumZ (map (side_quantity st buy') q)
            = if decide (buy = buy')
              then node_quantity st p + sumZ (map (node_quantity st) q)
              else 0).
    rewrite IH by (intros x Hx; apply H; right; exact Hx).
    rewrite (H p) by left. destruct (decide (buy = buy')); reflexivity.
Qed.

Lemma index_pointers_perm b :
  book_inv b -> index_covers b ->
  (map_to_list (order_lookup b)).*2 ≡ₚ book_ptrs b.
Proof.
  intros I Cv. apply NoDup_Permutation.
  - apply NoDup_fmap_2_strong; [|apply NoDup_map_to_list].
    intros [id1 p1] [id2 p2] H1 H2 E. cbn in E. subst p2.
    apply elem_of_map_to_list in H1, H2.
    destruct (inv_index b I id1 p1 H1) as (_ & o1 & Ho1 & <-).
    destruct (inv_index b I id2 p1 H2) as (_ & o2 & Ho2 & <-).
    congruence.
  - apply (inv_nodup b I).
  - intros p. rewrite list_elem_of_fmap. split.
    + intros ([id q] & -> & H). apply elem_of_map_to_list in H.
      apply (inv_index b I id q H).
    + intros Hp. destruct (Cv p Hp) as (id & Hid). exists (id, p).
      split; [reflexivity|]. apply elem_of_map_to_list. exact Hid.
Qed.

Lemma indexed_quantity_side b buy :
  book_inv b -> index_covers b ->
  indexed_quantity buy b
  = sumZ (queue_quantities (storage (order_pool b)) (side_ptrs (side_of buy b))).
Proof.
  intros I Cv. rewrite indexed_quantity_pointers.
  rewrite (sumZ_perm _ _ (Permutation_map _ (index_pointers_perm b I Cv))).
  unfold book_ptrs. rewrite map_app, sumZ_app.
  rewrite (side_quantity_side greater true buy _ _ (inv_bids b I)).
  rewrite (side_quantity_side less false buy _ _ (inv_asks b I)).
  destruct buy; repeat case_decide; try congruence; cbn [side_of]; lia.
Qed.

Lemma side_records_side comp buy st m recs :
  side_ok comp buy st m -> queue_records st (side_ptrs m) = Some recs ->
  Forall (fun o => is_buy o = buy) recs.
Proof.
  intros Ok E. unfold queue_records in E. apply mapM_Some in E.
  assert (H : Forall (fun p => forall o, st !! p = Some o -> is_buy o = buy)
                (side_ptrs m)).
  { apply Forall_forall. intros p Hp o Ho.
    destruct (side_ok_locate comp buy st m p Ok Hp)
      as (_ & _ & _ & _ & o' & _ & _ & Ho' & Hb & _).
    congruence. }
  induction E as [|p o q recs Ho _ IH]; [constructor|].
  apply Forall_cons in H as [H1 H2]. constructor; auto.
Qed.

(** C1, as the code has it.  In every book reached from the empty one by
    calls of [add_order], [cancel_order] and [amend_order], on either side:
    no level has an empty queue; the aggregate of every level is the sum of
    the quantities of the records in its queue modulo [2^64], and the sum
    itself when that is below [2^64]; the aggregates of the side add up,
    modulo [2^64] and exactly when below it, to the sum of the quantities
    of the records queued on the side, which are orders of that side; and
    when no call has added an identifier that was resting, these are the
    orders that the index names. *)
Theorem C1_level_aggregates cs b buy :
  Forall valid_call cs -> run cs empty_book = Some b ->
  (forall k l, (k, l) ∈ side_of buy b ->
     orders l <> []
     /\ exists recs,
          queue_records (storage (order_pool b)) (orders l) = Some recs
          /\ total_quantity l = wrap64 (sumZ (map quantity recs))
          /\ (sumZ (map quantity recs) < u64_modulus ->
              total_quantity l = sumZ (map quantity recs)))
  /\ exists recs,
       queue_records (storage (order_pool b)) (side_ptrs (side_of buy b))
       = Some recs
       /\ Forall (fun o => is_buy o = buy) recs
       /\ wrap64 (sumZ (map (fun kl => total_quantity kl.2) (side_of buy b)))
          = wrap64 (sumZ (map quantity recs))
       /\ (sumZ (map quantity recs) < u64_modulus ->
           sumZ (map (fun kl => total_quantity kl.2) (side_of buy b))
           = sumZ (map quantity recs))
       /\ (fresh_run cs empty_book ->
           indexed_quantity buy b = sumZ (map quantity recs)).
Proof.
  intros V Rn. assert (R : reachable b) by (exists cs; auto).
  pose proof (reachable_quantities b R) as Q.
  apply reachable_inv in R.
  pose proof (side_of_ok b buy R) as Ok. split.
  - intros k l Hkl. destruct Ok as [_ F]. rewrite Forall_forall in F.
    pose proof (F (k, l) Hkl) as L.
    destruct (queue_records_ok _ _ (level_ok_records _ _ _ _ L))
      as (recs & E1 & E2).
    split; [apply L|]. exists recs. split; [assumption|].
    rewrite E2. split; [apply L|]. intros Hlt.
    pose proof (lo_total _ _ _ _ L) as T. cbn in T. rewrite T.
    apply wrap64_small.
    split; [apply queue_quantities_nonneg, Q|exact Hlt].
  - destruct (queue_records_ok _ _ (side_ok_records _ _ _ _ Ok))
      as (recs & E1 & E2).
    exists recs. split; [assumption|]. rewrite E2. repeat split.
    + eapply side_records_side; eassumption.
    + eapply side_ok_total. eassumption.
    + intros Hlt. eapply side_total_exact; eassumption.
    + intros Fr. apply indexed_quantity_side; [exact R|].
      apply (run_covers cs empty_book b book_inv_empty V Fr Rn).
      intros p Hp. apply elem_of_nil in Hp. contradiction.
Qed.

(** Two buy orders of [2^63] units at one price: the aggregate of the level
    is [0], the quantities of its two records add up to [2^64].  Two buy
    orders under one identifier: the bid side aggregates 105 units, the
    one order that the index names has 5. *)
Lemma C1_aggregate_wraps :
  (reachable overflow_book
   /\ exists k l recs,
        (k, l) ∈ bid_levels overflow_book
        /\ queue_records (storage (order_pool overflow_book)) (orders l)
           = Some recs
        /\ total_quantity l = 0
        /\ sumZ (map quantity recs) = 2 ^ 64
        /\ total_quantity l <> sumZ (map quantity recs))
  /\ (reachable duplicate_book
      /\ sumZ (map (fun kl => total_quantity kl.2) (bid_levels duplicate_book))
         = 105
      /\ indexed_quantity true duplicate_book = 5).
Proof.
  split.
  - split; [exact overflow_book_reachable|].
    exists 100%float, (mkLevel 100 0 [(0, 0); (0, 1)]%nat),
      [mkOrder 1 true 100 (2 ^ 63) 1; mkOrder 2 true 100 (2 ^ 63) 2].
    split; [vm_compute; left|]. repeat split; try (vm_compute; congruence).
  - split; [exact duplicate_book_reachable|].
    split; vm_compute; reflexivity.
Qed.


Lemma C1_witness :
  Forall valid_call basic_test_adds
  /\ run basic_test_adds empty_book = Some basic_book
  /\ exists recs,
       queue_records (storage (order_pool basic_book))
         (side_ptrs (bid_levels basic_book)) = Some recs
       /\ wrap64 (sumZ (map (fun kl => total_quantity kl.2)
                          (bid_levels basic_book)))
          = wrap64 (sumZ (map quantity recs))
       /\ indexed_quantity true basic_book = sumZ (map quantity recs).
Proof.
  assert (V : Forall valid_call basic_test_adds).
  { unfold basic_test_adds. solve_valid_calls. }
  assert (R : run basic_test_adds empty_book = Some basic_book)
    by (vm_compute; reflexivity).
  assert (Fr : fresh_run basic_test_adds empty_book)
    by (vm_compute; repeat split; reflexivity).
  split; [exact V|]. split; [exact R|].
  destruct (C1_level_aggregates basic_test_adds basic_book true V R)
    as (_ & recs & E & _ & T & _ & F).
  exists recs. split; [exact E|]. split; [exact T|exact (F Fr)].
Defined.

(** ** The pool under the book *)

Lemma wrap64_sub_r a b : wrap64 (a - wrap64 b) = wrap64 (a - b).
Proof. unfold wrap64. apply Zminus_mod_idemp_r. Qed.

Lemma allocate_accounting mp p mp' :
  allocate mp = (p, mp') ->
  (current_index mp <= BlockSize)%nat -> (1 <= blocks mp)%nat ->
  (current_index mp' <= BlockSize)%nat
  /\ (blocks mp <= blocks mp')%nat
  /\ (p ∈ free_list mp \/ in_block mp' p)
  /\ (issued_count mp' + length (free_list mp)
      = S (issued_count mp + length (free_list mp')))%nat
  /\ (blocks mp' = blocks mp
      \/ (free_list mp = [] /\ current_index mp = BlockSize
          /\ blocks mp' = S (blocks mp))).
Proof.
  unfold allocate, issued_count, in_block. intros A Ci Bl.
  destruct (free_list mp) as [|x rest] eqn:Fl.
  - destruct (BlockSize <=? current_index mp)%nat eqn:Full;
      injection A as <- <-; cbn [blocks current_index free_list allocate_block
                                  fst snd length]; rewrite ?Fl; cbn [length].
    + apply Nat.leb_le in Full. unfold BlockSize in *.
      repeat split; try lia. right. repeat split; lia.
    + apply Nat.leb_gt in Full. unfold BlockSize in *.
      repeat split; try lia.
  - injection A as <- <-. cbn [blocks current_index free_list length].
    repeat split; try lia. left. left.
Qed.

Lemma book_inv_pool_empty : pool_inv empty_book.
Proof.
  split; cbn.
  - unfold BlockSize. lia.
  - intros p [H|H]; apply elem_of_nil in H; contradiction.
  - reflexivity.
  - intros p. rewrite lookup_empty. split.
    + intros [x H]. discriminate.
    + intros H. apply elem_of_nil in H. contradiction.
  - reflexivity.
Qed.

Lemma add_order_pool_inv o b :
  book_inv b -> pool_inv b -> not_nan (price o) -> pool_inv (add_order o b).
Proof.
  intros I Pi Hn.
  pose proof (add_order_ptrs o b I Hn) as P.
  destruct (allocate (order_pool b)) as [p mp'] eqn:A. cbn [fst] in P.
  destruct (add_order_fields o b p mp' A) as (Ep & _ & _ & _ & Eo & Ec & _).
  pose proof (allocate_fresh b p mp' I A) as Fr.
  destruct (allocate_spec _ _ _ A (inv_free_nodup b I) (inv_blocks b I))
    as (St & _ & _ & _ & Sub & _ & _).
  destruct (allocate_accounting _ _ _ A (pi_index b Pi) (inv_blocks b I))
    as (Ci & Bl & Pb & Cnt & _).
  assert (Mono : forall q, in_block (order_pool b) q -> in_block mp' q).
  { unfold in_block. intros q [? ?]. split; lia. }
  split; rewrite ?Ep; cbn [construct storage free_list current_index blocks].
  - exact Ci.
  - intros q Hq. change (in_block mp' q). rewrite P in Hq.
    destruct Hq as [Hq|Hq].
    + apply elem_of_cons in Hq as [->|Hq].
      * destruct Pb as [Hf|Hb]; [|exact Hb].
        apply Mono, (pi_bounds b Pi). auto.
      * apply Mono, (pi_bounds b Pi). auto.
    + apply Mono, (pi_bounds b Pi). right. apply Sub, Hq.
  - change (issued_count (construct p o mp')) with (issued_count mp').
    rewrite P. cbn [length]. pose proof (pi_count b Pi). lia.
  - intros q. rewrite P, St, elem_of_cons.
    destruct (decide (q = p)) as [->|D].
    + rewrite lookup_insert_eq. split; [auto|eauto].
    + rewrite lookup_insert_ne by congruence. rewrite (pi_live b Pi q).
      split; [auto|]. intros [?|?]; [congruence|assumption].
  - rewrite Eo, Ec, P. cbn [length]. rewrite Nat2Z.inj_succ.
    rewrite wrap64_sub_l.
    replace (total_orders b + 1 - total_cancels b)
      with ((total_orders b - total_cancels b) + 1) by lia.
    rewrite <- wrap64_add_l, (pi_counters b Pi), wrap64_add_l.
    f_equal; lia.
Qed.

Lemma cancel_order_pool_inv id b r b' :
  book_inv b -> pool_inv b -> cancel_order id b = Some (r, b') -> pool_inv b'.
Proof.
  intros I Pi C. destruct (order_lookup b !! id) as [p|] eqn:Hl.
  2:{ rewrite (cancel_order_unknown id b Hl) in C. injection C as _ <-.
      exact Pi. }
  destruct (inv_index b I id p Hl) as (Hp & o & Ho & Hid).
  assert (r = true) as ->.
  { rewrite (cancel_order_resting id b p o Hl Ho) in C. congruence. }
  pose proof (cancel_order_ptrs id b p b' I Hl C) as P.
  destruct (cancel_order_sides id b p o b' Hl Ho C) as (_ & _ & _ & Ep).
  pose proof (inv_nodup b I) as N. rewrite P in N.
  apply NoDup_cons in N as [Np _].
  assert (Ec : total_orders b' = total_orders b
               /\ total_cancels b' = wrap64 (total_cancels b + 1)).
  { rewrite (cancel_order_resting id b p o Hl Ho) in C. injection C as <-.
    split; reflexivity. }
  destruct Ec as [Eo Ec].
  split; rewrite ?Ep; cbn [deallocate storage free_list current_index blocks].
  - apply (pi_index b Pi).
  - intros q Hq.
    change (in_block (deallocate p (order_pool b)) q)
      with (in_block (order_pool b) q).
    apply (pi_bounds b Pi). destruct Hq as [Hq|Hq].
    + left. rewrite P. right. exact Hq.
    + apply elem_of_cons in Hq as [->|Hq]; auto.
  - change (issued_count (deallocate p (order_pool b)))
      with (issued_count (order_pool b)).
    pose proof (pi_count b Pi) as K. rewrite P in K. cbn [length] in *. lia.
  - intros q. destruct (decide (q = p)) as [->|D].
    + rewrite lookup_delete_eq. split; [intros [x H]; discriminate|].
      intros H. contradiction.
    + rewrite lookup_delete_ne by congruence. rewrite (pi_live b Pi q), P.
      rewrite elem_of_cons. split; [|auto]. intros [?|?]; [congruence|assumption].
  - rewrite Eo, Ec, wrap64_sub_r.
    pose proof (pi_counters b Pi) as K. rewrite P in K. cbn [length] in K.
    rewrite Nat2Z.inj_succ in K.
    replace (total_orders b - (total_cancels b + 1))
      with ((total_orders b - total_cancels b) - 1) by lia.
    rewrite <- wrap64_sub_l, K, wrap64_sub_l. f_equal; lia.
Qed.

Lemma bump_amends_pool_inv b : pool_inv b -> pool_inv (bump_amends b).
Proof. intros [? ? ? ? ?]. split; assumption. Qed.

Lemma amended_in_place_pool_inv b id p o new_quantity :
  book_inv b -> pool_inv b -> order_lookup b !! id = Some p ->
  storage (order_pool b) !! p = Some o ->
  pool_inv (amended_in_place b p o new_quantity).
Proof.
  intros I Pi Hl Ho.
  destruct (amended_in_place_inv b id p o new_quantity I Hl Ho) as (_ & P & Ep).
  destruct (inv_index b I id p Hl) as (Hp & _).
  assert (Ec : total_orders (amended_in_place b p o new_quantity)
               = total_orders b
               /\ total_cancels (amended_in_place b p o new_quantity)
                  = total_cancels b).
  { unfold amended_in_place. destruct (is_buy o); split; reflexivity. }
  destruct Ec as [Eo Ec].
  split; rewrite ?P, ?Ep, ?Eo, ?Ec;
    cbn [construct storage free_list current_index blocks]; try apply Pi.
  intros q. destruct (decide (q = p)) as [->|D].
  - rewrite lookup_insert_eq. split; [auto|eauto].
  - rewrite lookup_insert_ne by congruence. apply (pi_live b Pi q).
Qed.

Lemma amend_order_pool_inv id new_price new_quantity now b r b' :
  book_inv b -> pool_inv b ->
  amend_order id new_price new_quantity now b = Some (r, b') -> pool_inv b'.
Proof.
  intros I Pi A. destruct (order_lookup b !! id) as [p|] eqn:Hl.
  2:{ rewrite (amend_order_unknown _ _ _ _ _ Hl) in A. injection A as _ <-.
      exact Pi. }
  destruct (inv_index b I id p Hl) as (_ & o & Ho & _).
  destruct (price_changed (price o) new_price) eqn:Hc.
  - pose proof (cancel_order_resting id b p o Hl Ho) as C.
    rewrite (amend_order_price_path _ _ _ _ _ _ _ _ Hl Ho Hc C) in A.
    injection A as _ <-. apply bump_amends_pool_inv, add_order_pool_inv.
    + eapply cancel_order_inv; eassumption.
    + eapply cancel_order_pool_inv; eassumption.
    + cbn. apply price_changed_numbers in Hc. tauto.
  - rewrite (amend_order_quantity_path _ _ _ _ _ _ _ Hl Ho Hc) in A.
    injection A as _ <-. apply bump_amends_pool_inv.
    eapply amended_in_place_pool_inv; eassumption.
Qed.

Lemma exec_pool_inv c b b' :
  book_inv b -> pool_inv b -> valid_call c -> exec c b = Some b' -> pool_inv b'.
Proof.
  intros I Pi V E. destruct c as [o|id|id np nq now]; cbn in E.
  - injection E as <-. apply add_order_pool_inv; try assumption. apply V.
  - destruct (cancel_order id b) as [[r b1]|] eqn:C; [|discriminate].
    injection E as <-. eapply cancel_order_pool_inv; eassumption.
  - destruct (amend_order id np nq now b) as [[r b1]|] eqn:C; [|discriminate].
    injection E as <-. eapply amend_order_pool_inv; eassumption.
Qed.

Lemma run_pool_inv cs b b' :
  book_inv b -> pool_inv b -> Forall valid_call cs -> run cs b = Some b' ->
  pool_inv b'.
Proof.
  revert b. induction cs as [|c cs IH]; intros b I Pi V R; cbn in R.
  - injection R as <-. exact Pi.
  - apply Forall_cons in V as [V1 V2].
    destruct (exec c b) as [b1|] eqn:E; [|discriminate]. cbn in R.
    apply (IH b1); try assumption.
    + eapply exec_inv; eassumption.
    + eapply exec_pool_inv; eassumption.
Qed.

Lemma reachable_pool_inv b : reachable b -> pool_inv b.
Proof.
  intros (cs & V & R).
  exact (run_pool_inv cs empty_book b book_inv_empty book_inv_pool_empty V R).
Qed.

(** ** No call reads a destroyed node *)

(** X1.  [cancel_order] and [amend_order] read the node that the index
    names.  From the empty book, whatever the sequence of calls, that node
    is constructed when it is read: every call of the sequence returns. *)
Theorem X1_calls_read_live_nodes cs :
  Forall valid_call cs ->
  exists b, run cs empty_book = Some b
            /\ forall id p, order_lookup b !! id = Some p ->
                            is_Some (storage (order_pool b) !! p).
Proof.
  intros V. destruct (run_total cs empty_book book_inv_empty V) as (b & R).
  exists b. split; [exact R|]. intros id p Hl.
  pose proof (run_inv cs empty_book b book_inv_empty V R) as I.
  destruct (inv_index b I id p Hl) as (_ & o & Ho & _). eauto.
Qed.

(** ** The index *)

(** X2.  In a reachable book an identifier of the index names a
    constructed record that carries this identifier and stands once in
    the queues of the book: in the queue at its price on the side of its
    [is_buy] flag, and not on the other side.  Two identifiers never name
    one record. *)
Theorem X2_index_names_one_record b id p :
  reachable b -> order_lookup b !! id = Some p ->
  exists o,
    storage (order_pool b) !! p = Some o
    /\ order_id o = id
    /\ not_nan (price o)
    /\ p ∈ queue_at (comp_of (is_buy o)) (price o) (side_of (is_buy o) b)
    /\ (p ∉ side_ptrs (side_of (negb (is_buy o)) b))
    /\ NoDup (book_ptrs b)
    /\ (forall id', order_lookup b !! id' = Some p -> id' = id).
Proof.
  intros R Hl. apply reachable_inv in R.
  destruct (inv_index b R id p Hl) as (Hp & o & Ho & Hid).
  exists o.
  pose proof (side_of_node_buy b p o R Hp Ho) as Hs.
  pose proof (side_of_node b p o R Hp Ho) as Sd.
  pose proof (side_of_ok b (is_buy o) R) as Ok.
  destruct (side_ok_locate _ _ _ _ p Ok Hs)
    as (m1 & k & l & m2 & o2 & Es & Hq & Ho2 & _ & Hn & E).
  assert (o2 = o) as -> by congruence.
  repeat split; try assumption.
  - unfold queue_at. rewrite Es.
    rewrite (map_find_at _ m1 k l m2 (price o)); [exact Hq| |exact Hn|exact E].
    rewrite <- Es. apply Ok.
  - destruct (is_buy o); cbn; tauto.
  - apply (inv_nodup b R).
  - intros id' Hl'. destruct (inv_index b R id' p Hl') as (_ & o' & Ho' & Hid').
    congruence.
Qed.

(** ** What one addition and one cancellation change *)

(** X3.  In a reachable book [add_order] puts the node at the tail of the
    queue at its price on its side and adds its quantity to that aggregate
    (modulo [2^64]); the levels at the other prices, the whole other side,
    every record already resting and the index entries of the other
    identifiers are as before, whatever the prices on the other side:
    nothing is matched. *)
Theorem X3_add_order_effect b o :
  reachable b -> not_nan (price o) ->
  let p := (allocate (order_pool b)).1 in
  let b' := add_order o b in
  let buy := is_buy o in
  let comp := comp_of buy in
  queue_at comp (price o) (side_of buy b')
  = queue_at comp (price o) (side_of buy b) ++ [p]
  /\ aggregate_at comp (price o) (side_of buy b')
     = wrap64 (aggregate_at comp (price o) (side_of buy b) + quantity o)
  /\ (forall k, ~ key_equiv comp k (price o) ->
        map_find comp k (side_of buy b') = map_find comp k (side_of buy b))
  /\ side_of (negb buy) b' = side_of (negb buy) b
  /\ (forall q, q ∈ book_ptrs b ->
        storage (order_pool b') !! q = storage (order_pool b) !! q)
  /\ (forall id, id <> order_id o ->
        order_lookup b' !! id = order_lookup b !! id)
  /\ order_lookup b' !! order_id o = Some p
  /\ storage (order_pool b') !! p = Some o.
Proof.
  intros R Hn p b' buy comp. apply reachable_inv in R.
  destruct (add_order_sides o b) as (As & Ao).
  destruct (add_order_index o b) as (Al & Ast).
  fold p b' buy comp in As, Ao, Al, Ast.
  pose proof (side_of_ok b buy R) as Ok. fold comp in Ok.
  pose proof (comp_of_strict_weak buy) as SW. fold comp in SW.
  destruct (queue_at_add comp (side_of buy b) p o (proj1 Ok) Hn) as (Q1 & Q2).
  assert (Fr : p ∉ book_ptrs b).
  { unfold p. destruct (allocate (order_pool b)) as [q mp'] eqn:A.
    exact (allocate_fresh b q mp' R A). }
  repeat split.
  - rewrite As. exact Q1.
  - rewrite As. exact Q2.
  - intros k N. rewrite As.
    apply (map_find_add_other comp buy _ _ p o k Ok Hn N).
  - exact Ao.
  - intros q Hq. rewrite Ast. apply lookup_insert_ne. intros <-. contradiction.
  - intros id D. rewrite Al. apply lookup_insert_ne. congruence.
  - rewrite Al. apply lookup_insert_eq.
  - rewrite Ast. apply lookup_insert_eq.
Qed.

(** X4.  In a reachable book [cancel_order] of a resting identifier
    answers true and takes the node out of the queue at its price: the
    queue is afterwards the cells that stood before the node followed by
    those that stood behind it, the node is in no queue of the book any
    more and every other node still is.  The level leaves the map when the
    queue becomes empty and its aggregate loses the quantity (modulo
    [2^64]) otherwise; the levels at the other prices and the other side
    are as before; the identifier leaves the index, the object leaves the
    storage and its slot is pushed on the free list. *)
Theorem X4_cancel_order_effect b id p o :
  reachable b ->
  order_lookup b !! id = Some p -> storage (order_pool b) !! p = Some o ->
  let buy := is_buy o in
  let comp := comp_of buy in
  exists b',
    cancel_order id b = Some (true, b')
    /\ queue_at comp (price o) (side_of buy b')
       = list_erase p (queue_at comp (price o) (side_of buy b))
    /\ (list_erase p (queue_at comp (price o) (side_of buy b)) = [] ->
        map_find comp (price o) (side_of buy b') = None)
    /\ (list_erase p (queue_at comp (price o) (side_of buy b)) <> [] ->
        aggregate_at comp (price o) (side_of buy b')
        = wrap64 (aggregate_at comp (price o) (side_of buy b) - quantity o))
    /\ (forall k, ~ key_equiv comp k (price o) ->
          map_find comp k (side_of buy b') = map_find comp k (side_of buy b))
    /\ side_of (negb buy) b' = side_of (negb buy) b
    /\ order_lookup b' = delete id (order_lookup b)
    /\ storage (order_pool b') = delete p (storage (order_pool b))
    /\ free_list (order_pool b') = p :: free_list (order_pool b)
    /\ (p ∉ book_ptrs b')
    /\ (p ∉ queue_at comp (price o) (side_of buy b'))
    /\ (exists q1 q2,
          queue_at comp (price o) (side_of buy b) = q1 ++ p :: q2
          /\ queue_at comp (price o) (side_of buy b') = q1 ++ q2)
    /\ book_ptrs b ≡ₚ p :: book_ptrs b'.
Proof.
  intros R Hl Ho buy comp. apply reachable_inv in R.
  pose proof (cancel_order_resting id b p o Hl Ho) as C.
  set (b' := mkBook _ _ _ _ _ _ _) in C. exists b'.
  destruct (cancel_order_sides id b p o b' Hl Ho C) as (Es & Eo & El & Ep).
  fold buy comp in Es, Eo.
  destruct (inv_index b R id p Hl) as (Hp & _).
  pose proof (side_of_node_buy b p o R Hp Ho) as Hs. fold buy in Hs.
  pose proof (side_of_ok b buy R) as Ok. fold comp in Ok.
  pose proof (comp_of_strict_weak buy) as SW. fold comp in SW.
  destruct (queue_at_remove comp buy _ _ p o Ok Hs Ho) as (Q1 & Q2 & Q3 & Q4).
  assert (Qold : queue_at comp (price o) (side_of buy b')
                 = list_erase p (queue_at comp (price o) (side_of buy b))).
  { rewrite Es. exact Q2. }
  destruct (queue_erased p _ _
              (queue_at_nodup comp (price o) _ (side_of_nodup b buy R))
              Q1 Qold) as (Gone & Split).
  pose proof (cancel_order_ptrs id b p b' R Hl C) as Pm.
  assert (Fr : p ∉ book_ptrs b').
  { pose proof (inv_nodup b R) as N. rewrite Pm in N.
    apply NoDup_cons in N as [N _]. exact N. }
  split; [exact C|]. split; [exact Qold|].
  split; [rewrite Es; exact Q3|]. split; [rewrite Es; exact Q4|].
  split.
  { intros k N. rewrite Es.
    apply (map_find_remove_other comp buy _ _ p o k Ok Hs Ho N). }
  split; [exact Eo|]. split; [exact El|].
  split; [rewrite Ep; reflexivity|]. split; [rewrite Ep; reflexivity|].
  split; [exact Fr|]. split; [exact Gone|]. split; [exact Split|exact Pm].
Qed.

(** ** Slots and blocks *)

Lemma allocate_in_block b :
  book_inv b -> pool_inv b ->
  in_block (allocate (order_pool b)).2 (allocate (order_pool b)).1.
Proof.
  intros I Pi. destruct (allocate (order_pool b)) as [p mp'] eqn:A.
  destruct (allocate_accounting _ _ _ A (pi_index b Pi) (inv_blocks b I))
    as (_ & Bl & [Hf|Hb] & _); [|exact Hb].
  destruct (pi_bounds b Pi p (or_intror Hf)) as [H1 H2].
  split; cbn in *; lia.
Qed.

(** X5.  In a reachable book every slot in use, be it queued, named by
    the index or waiting on the free list, lies in a block that the pool
    has allocated, below the block size; so does the slot that the next
    [allocate] returns. *)
Theorem X5_slots_within_blocks b :
  reachable b ->
  (forall p, p ∈ book_ptrs b \/ p ∈ free_list (order_pool b) ->
             in_block (order_pool b) p)
  /\ (forall id p, order_lookup b !! id = Some p -> in_block (order_pool b) p)
  /\ in_block (allocate (order_pool b)).2 (allocate (order_pool b)).1.
Proof.
  intros R. pose proof (reachable_pool_inv b R) as Pi.
  apply reachable_inv in R. split; [|split].
  - apply (pi_bounds b Pi).
  - intros id p Hl. apply (pi_bounds b Pi). left.
    apply (inv_index b R id p Hl).
  - apply allocate_in_block; assumption.
Qed.

(** X6.  In a reachable book the slots handed out so far are the queued
    ones and the free ones, each once: no slot is lost and none is both
    queued and free. *)
Theorem X6_no_slot_lost b :
  reachable b ->
  NoDup (book_ptrs b ++ free_list (order_pool b))
  /\ (length (book_ptrs b ++ free_list (order_pool b))
      = issued_count (order_pool b))%nat
  /\ forall p, p ∈ book_ptrs b ++ free_list (order_pool b) ->
               issued (order_pool b) p.
Proof.
  intros R. pose proof (reachable_pool_inv b R) as Pi.
  apply reachable_inv in R. split; [|split].
  - apply NoDup_app. split; [apply (inv_nodup b R)|]. split.
    + intros p Hp Hf. exact (inv_free b R p Hf Hp).
    + apply (inv_free_nodup b R).
  - rewrite length_app. apply (pi_count b Pi).
  - intros p Hp. apply elem_of_app in Hp. apply (inv_issued b R p Hp).
Qed.

(** X7.  In a reachable book the constructed nodes are exactly the queued
    ones: a free slot holds no object, and neither does the slot that the
    next [allocate] returns, so the placement construction of [add_order]
    never overwrites a node. *)
Theorem X7_live_nodes_are_queued b :
  reachable b ->
  (forall p, is_Some (storage (order_pool b) !! p) <-> p ∈ book_ptrs b)
  /\ (forall p, p ∈ free_list (order_pool b) ->
                storage (order_pool b) !! p = None)
  /\ storage (order_pool b) !! (allocate (order_pool b)).1 = None.
Proof.
  intros R. pose proof (reachable_pool_inv b R) as Pi.
  apply reachable_inv in R.
  assert (N : forall p, p ∉ book_ptrs b -> storage (order_pool b) !! p = None).
  { intros p Hp. apply eq_None_not_Some. rewrite (pi_live b Pi p). exact Hp. }
  split; [|split].
  - apply (pi_live b Pi).
  - intros p Hf. apply N, (inv_free b R p Hf).
  - apply N. destruct (allocate (order_pool b)) as [p mp'] eqn:A.
    exact (allocate_fresh b p mp' R A).
Qed.

(** X8.  In a reachable book the counter of additions exceeds the counter
    of cancellations by the number of queued records, modulo [2^64]. *)
Theorem X8_counters_balance b :
  reachable b ->
  wrap64 (total_orders b - total_cancels b)
  = wrap64 (Z.of_nat (length (book_ptrs b))).
Proof. intros R. apply (pi_counters b (reachable_pool_inv b R)). Qed.

Lemma amend_order_pool_shape b id new_price new_quantity now p o :
  book_inv b ->
  order_lookup b !! id = Some p -> storage (order_pool b) !! p = Some o ->
  exists b',
    amend_order id new_price new_quantity now b = Some (true, b')
    /\ order_lookup b' !! id = Some p
    /\ blocks (order_pool b') = blocks (order_pool b)
    /\ free_list (order_pool b') = free_list (order_pool b)
    /\ current_index (order_pool b') = current_index (order_pool b).
Proof.
  intros I Hl Ho. destruct (inv_index b I id p Hl) as (_ & o0 & Ho0 & Hid).
  assert (o0 = o) as -> by congruence.
  destruct (price_changed (price o) new_price) eqn:Hc.
  - pose proof (cancel_order_resting id b p o Hl Ho) as C.
    rewrite (amend_order_price_path _ _ _ _ _ _ _ _ Hl Ho Hc C).
    eexists. split; [reflexivity|]. cbn. rewrite Hid.
    split; [apply lookup_insert_eq|]. auto.
  - rewrite (amend_order_quantity_path _ _ _ _ _ _ _ Hl Ho Hc).
    eexists. split; [reflexivity|].
    destruct (amended_in_place_inv b id p o new_quantity I Hl Ho)
      as (_ & _ & Ep).
    cbn [bump_amends order_lookup order_pool]. rewrite Ep. cbn.
    split; [|auto]. unfold amended_in_place. destruct (is_buy o); exact Hl.
Qed.

(** X9.  In a reachable book [amend_order] of a resting identifier never
    asks the pool for a block and leaves the free list as it was: on the
    price-changing path the added node takes the slot that the
    cancellation has just freed, so on both paths the index names the
    same slot as before. *)
Theorem X9_amend_keeps_slot b id new_price new_quantity now p o :
  reachable b ->
  order_lookup b !! id = Some p -> storage (order_pool b) !! p = Some o ->
  exists b',
    amend_order id new_price new_quantity now b = Some (true, b')
    /\ order_lookup b' !! id = Some p
    /\ blocks (order_pool b') = blocks (order_pool b)
    /\ free_list (order_pool b') = free_list (order_pool b)
    /\ current_index (order_pool b') = current_index (order_pool b).
Proof.
  intros R. apply amend_order_pool_shape. apply reachable_inv, R.
Qed.

(** X16.  Blocks are never released, and a call allocates one only when
    it is [add_order] on a book whose free list is empty and whose head
    block is full. *)
Theorem X16_blocks_grow_on_demand b c b' :
  reachable b -> valid_call c -> exec c b = Some b' ->
  blocks (order_pool b') = blocks (order_pool b)
  \/ (blocks (order_pool b') = S (blocks (order_pool b))
      /\ free_list (order_pool b) = []
      /\ current_index (order_pool b) = BlockSize
      /\ exists o, c = Add o).
Proof.
  intros R V E. pose proof (reachable_pool_inv b R) as Pi.
  apply reachable_inv in R.
  destruct c as [o|id|id new_price new_quantity now]; cbn in E.
  - injection E as <-.
    destruct (allocate (order_pool b)) as [p mp'] eqn:A.
    destruct (add_order_fields o b p mp' A) as (Ep & _). rewrite Ep.
    change (blocks (construct p o mp')) with (blocks mp').
    destruct (allocate_accounting _ _ _ A (pi_index b Pi) (inv_blocks b R))
      as (_ & _ & _ & _ & [H|(H1 & H2 & H3)]); [left; exact H|].
    right. eauto.
  - left. unfold cancel_order in E.
    destruct (order_lookup b !! id) as [p|]; [|injection E as <-; reflexivity].
    destruct (storage (order_pool b) !! p) as [o|]; [|discriminate].
    injection E as <-. reflexivity.
  - left. destruct (order_lookup b !! id) as [p|] eqn:Hl.
    + destruct (inv_index b R id p Hl) as (_ & o & Ho & _).
      destruct (amend_order_pool_shape b id new_price new_quantity now p o
                  R Hl Ho) as (b1 & A & _ & Bl & _).
      rewrite A in E. injection E as <-. exact Bl.
    + rewrite (amend_order_unknown _ _ _ _ _ Hl) in E. injection E as <-.
      reflexivity.
Qed.

(** ** The pool alone *)

Lemma allocate_address mp :
  free_list mp = [] -> (current_index mp <= BlockSize)%nat ->
  (1 <= blocks mp)%nat ->
  (allocate mp).1
  = (issued_count mp / BlockSize, issued_count mp mod BlockSize)%nat
  /\ free_list (allocate mp).2 = []
  /\ (1 <= current_index (allocate mp).2 <= BlockSize)%nat
  /\ (1 <= blocks (allocate mp).2)%nat
  /\ issued_count (allocate mp).2 = S (issued_count mp).
Proof.
  intros Fl Ci Bl. unfold allocate, issued_count. rewrite Fl.
  destruct (BlockSize <=? current_index mp)%nat eqn:Full;
    cbn [fst snd blocks current_index free_list allocate_block].
  - apply Nat.leb_le in Full. rewrite Fl.
    assert (E : ((blocks mp - 1) * BlockSize + current_index mp
                 = BlockSize * blocks mp + 0)%nat)
      by (unfold BlockSize in *; lia).
    rewrite E. repeat split; try (unfold BlockSize in *; lia). f_equal.
    + replace (S (blocks mp) - 1)%nat with (blocks mp) by lia.
      apply Nat.div_unique with (r := 0%nat);
        unfold BlockSize; lia.
    + apply Nat.mod_unique with (q := blocks mp);
        unfold BlockSize; lia.
  - apply Nat.leb_gt in Full. rewrite Fl.
    repeat split; try (unfold BlockSize in *; lia). f_equal.
    + apply Nat.div_unique with (r := current_index mp);
        [assumption|]. unfold BlockSize. lia.
    + apply Nat.mod_unique with (q := (blocks mp - 1)%nat);
        [assumption|]. unfold BlockSize. lia.
Qed.

Lemma allocations_addresses n mp :
  free_list mp = [] -> (current_index mp <= BlockSize)%nat ->
  (1 <= blocks mp)%nat ->
  (allocations n mp).1
  = map (fun i => (i / BlockSize, i mod BlockSize)%nat)
      (seq (issued_count mp) n)
  /\ free_list (allocations n mp).2 = []
  /\ (current_index (allocations n mp).2 <= BlockSize)%nat
  /\ (1 <= blocks (allocations n mp).2)%nat
  /\ issued_count (allocations n mp).2 = (issued_count mp + n)%nat
  /\ ((1 <= n)%nat -> (1 <= current_index (allocations n mp).2)%nat).
Proof.
  revert mp. induction n as [|n IH]; intros mp Fl Ci Bl.
  - cbn. repeat split; try assumption; try lia.
  - destruct (allocate_address mp Fl Ci Bl) as (Ea & Ef & Ec & Eb & Ei).
    cbn [allocations]. destruct (allocate mp) as [p mp1] eqn:A.
    cbn [fst snd] in *.
    destruct (IH mp1 Ef (proj2 Ec) Eb) as (Ia & If & Ic & Ib & Ii & In).
    destruct (allocations n mp1) as [ps mp2] eqn:An. cbn [fst snd] in *.
    rewrite Ei in Ia, Ii. repeat split; try assumption; try lia.
    + cbn [seq map]. rewrite Ea, Ia. reflexivity.
    + intros _. destruct n as [|n]; [|apply In; lia].
      cbn in An. injection An as _ <-. lia.
Qed.

(** X18.  A pool that has freed nothing hands out its slots in address
    order: the allocation number [i], counted from zero, returns slot
    [i mod 1024] of block [i / 1024], and a block is allocated only when
    the allocation needs it: after [n] allocations the pool has one block
    for [n = 0] and the blocks up to that of the last slot otherwise. *)
Theorem X18_allocation_addresses n :
  (allocations n pool_new).1
  = map (fun i => (i / BlockSize, i mod BlockSize)%nat) (seq 0 n)
  /\ blocks (allocations n pool_new).2 = S ((n - 1) / BlockSize).
Proof.
  destruct (allocations_addresses n pool_new) as (Ea & Ef & Ec & Eb & Ei & En).
  - reflexivity.
  - cbn. unfold BlockSize. lia.
  - cbn. lia.
  - split; [exact Ea|]. cbn in Ei.
    destruct n as [|n]; [reflexivity|].
    specialize (En ltac:(lia)).
    unfold issued_count in Ei.
    set (mp := (allocations (S n) pool_new).2) in *.
    replace (S n - 1)%nat with n by lia.
    assert (H : (blocks mp - 1 = n / BlockSize)%nat).
    { apply Nat.div_unique with (r := (current_index mp - 1)%nat);
        unfold BlockSize in *; lia. }
    lia.
Qed.

(** ** Snapshots and what is printed *)

Lemma lookup_map_Some {A B} (f : A -> B) (l : list A) i y :
  map f l !! i = Some y <-> exists x, l !! i = Some x /\ y = f x.
Proof.
  revert i. induction l as [|a l IH]; intros i; cbn.
  - split; [discriminate|]. intros (x & H & _). discriminate.
  - destruct i as [|i]; cbn.
    + split.
      * intros H. injection H as <-. eauto.
      * intros (x & H & ->). injection H as ->. reflexivity.
    + apply IH.
Qed.

(** X10.  [get_snapshot] returns, for each side, the first [depth] levels
    in the iteration order of the map, as pairs of the key and the
    aggregate: none for [depth = 0], all of them when [depth] is at least
    their number. *)
Theorem X10_snapshot_depth depth b :
  get_snapshot depth b
  = (take depth (map (fun kl => mkPriceLevel kl.1 (total_quantity kl.2))
                   (bid_levels b)),
     take depth (map (fun kl => mkPriceLevel kl.1 (total_quantity kl.2))
                   (ask_levels b)))
  /\ length (get_snapshot depth b).1 = (depth `min` length (bid_levels b))%nat
  /\ length (get_snapshot depth b).2 = (depth `min` length (ask_levels b))%nat.
Proof.
  rewrite get_snapshot_take. cbn [fst snd].
  rewrite !length_take, !length_map. auto.
Qed.

(** X11.  The snapshot of a reachable book lists the bids by strictly
    descending price and the asks by strictly ascending price; the entry
    number [i] of a side is the level number [i] of the map, with its key
    and its aggregate, and that level has a record in its queue. *)
Theorem X11_snapshot_order depth b :
  reachable b ->
  (forall i j x y,
      (get_snapshot depth b).1 !! i = Some x ->
      (get_snapshot depth b).1 !! j = Some y -> (i < j)%nat ->
      flt (pl_price y) (pl_price x) = true)
  /\ (forall i j x y,
      (get_snapshot depth b).2 !! i = Some x ->
      (get_snapshot depth b).2 !! j = Some y -> (i < j)%nat ->
      flt (pl_price x) (pl_price y) = true)
  /\ (forall i x,
      (get_snapshot depth b).1 !! i = Some x ->
      exists l, bid_levels b !! i = Some (pl_price x, l)
                /\ pl_total_quantity x = total_quantity l
                /\ orders l <> [])
  /\ (forall i x,
      (get_snapshot depth b).2 !! i = Some x ->
      exists l, ask_levels b !! i = Some (pl_price x, l)
                /\ pl_total_quantity x = total_quantity l
                /\ orders l <> []).
Proof.
  intros R. apply reachable_inv in R. rewrite get_snapshot_take. cbn [fst snd].
  assert (L : forall (m : side_map) i x,
             take depth (map (fun kl => mkPriceLevel kl.1 (total_quantity kl.2))
                           m) !! i = Some x ->
             exists l, m !! i = Some (pl_price x, l)
                       /\ pl_total_quantity x = total_quantity l).
  { intros m i x H. apply lookup_take_Some in H as [H _].
    apply lookup_map_Some in H as ([k l] & H & ->). exists l. auto. }
  destruct (inv_bids b R) as [Sb Fb], (inv_asks b R) as [Sa Fa].
  repeat split.
  - intros i j x y Hi Hj Hij.
    destruct (L _ _ _ Hi) as (li & Hi' & _), (L _ _ _ Hj) as (lj & Hj' & _).
    destruct (sorted_map_keys_distinct greater _ i j _ _ Sb Hi' Hj' Hij)
      as [C _]. exact C.
  - intros i j x y Hi Hj Hij.
    destruct (L _ _ _ Hi) as (li & Hi' & _), (L _ _ _ Hj) as (lj & Hj' & _).
    destruct (sorted_map_keys_distinct less _ i j _ _ Sa Hi' Hj' Hij)
      as [C _]. exact C.
  - intros i x Hi. destruct (L _ _ _ Hi) as (l & Hi' & Q).
    exists l. repeat split; try assumption.
    rewrite Forall_forall in Fb.
    apply (lo_nonempty _ _ _ _ (Fb _ (list_elem_of_lookup_2 _ _ _ Hi'))).
  - intros i x Hi. destruct (L _ _ _ Hi) as (l & Hi' & Q).
    exists l. repeat split; try assumption.
    rewrite Forall_forall in Fa.
    apply (lo_nonempty _ _ _ _ (Fa _ (list_elem_of_lookup_2 _ _ _ Hi'))).
Qed.

(** X12.  [print_book] writes the asks of the snapshot in reverse, and a
    spread exactly when the depth is not zero and both sides have levels;
    the spread is then the best ask minus the best bid that
    [get_best_prices] returns.  With depth zero no level and no spread is
    written, whatever the book holds. *)
Theorem X12_print_book_spread depth b :
  shown_asks (print_book depth b) = rev (get_snapshot depth b).2
  /\ shown_bids (print_book depth b) = (get_snapshot depth b).1
  /\ (depth = 0%nat \/ bid_levels b = [] \/ ask_levels b = [] ->
      shown_spread (print_book depth b) = None)
  /\ (depth <> 0%nat -> bid_levels b <> [] -> ask_levels b <> [] ->
      shown_spread (print_book depth b)
      = Some ((get_best_prices b).2 - (get_best_prices b).1)%float)
  /\ (depth = 0%nat ->
      shown_asks (print_book depth b) = []
      /\ shown_bids (print_book depth b) = []).
Proof.
  unfold print_book, get_best_prices, get_snapshot.
  destruct (bid_levels b) as [|[kb lb] mb], (ask_levels b) as [|[ka la] ma];
    destruct depth as [|d]; cbn; repeat split; try reflexivity;
    try congruence; try (intros [?|[?|?]]; congruence).
Qed.

(** ** An amendment whose new price is no number *)

Lemma price_changed_nan old_price new_price :
  is_nan new_price = true -> price_changed old_price new_price = false.
Proof.
  intros H. destruct (price_changed old_price new_price) eqn:E; [|reflexivity].
  apply price_changed_numbers in E as [_ E]. unfold not_nan in E. congruence.
Qed.

Lemma amended_in_place_queues b id p o new_quantity :
  book_inv b -> order_lookup b !! id = Some p ->
  storage (order_pool b) !! p = Some o ->
  queue_view (bid_levels (amended_in_place b p o new_quantity))
  = queue_view (bid_levels b)
  /\ queue_view (ask_levels (amended_in_place b p o new_quantity))
     = queue_view (ask_levels b)
  /\ order_lookup (amended_in_place b p o new_quantity) = order_lookup b.
Proof.
  intros I Hl Ho. destruct (inv_index b I id p Hl) as (Hp & _).
  pose proof (side_of_node_buy b p o I Hp Ho) as Hs.
  pose proof (side_of_ok b (is_buy o) I) as Ok.
  destruct (update_quantity_in_place_shape (comp_of (is_buy o)) (is_buy o)
              _ _ p o new_quantity (order_pool b) Ok Hs Ho)
    as (m1 & k & l & m2 & Es & _ & _ & U).
  unfold amended_in_place. destruct (is_buy o); cbn in *; rewrite U, Es; cbn;
    rewrite !queue_view_app; auto.
Qed.

(** X13.  [amend_order] with a new price that is NaN takes the in-place
    path, as the comparison of the difference with the tolerance is false:
    the call answers true, the record keeps its price and its time stamp
    and takes the new quantity, the keys and the queues of both sides and
    the index are as before, only the counter of amendments moves.  A NaN
    never becomes a key of a side. *)
Theorem X13_amend_nan_price b id new_price new_quantity now p o :
  reachable b ->
  order_lookup b !! id = Some p -> storage (order_pool b) !! p = Some o ->
  is_nan new_price = true ->
  exists b',
    amend_order id new_price new_quantity now b = Some (true, b')
    /\ storage (order_pool b') !! p
       = Some (mkOrder (order_id o) (is_buy o) (price o) new_quantity
                       (timestamp_ns o))
    /\ queue_view (bid_levels b') = queue_view (bid_levels b)
    /\ queue_view (ask_levels b') = queue_view (ask_levels b)
    /\ order_lookup b' = order_lookup b
    /\ total_orders b' = total_orders b
    /\ total_cancels b' = total_cancels b
    /\ total_amends b' = wrap64 (total_amends b + 1)
    /\ (forall k l, (k, l) ∈ bid_levels b' ++ ask_levels b' -> not_nan k).
Proof.
  intros R Hl Ho Hn. apply reachable_inv in R.
  pose proof (price_changed_nan (price o) new_price Hn) as Hc.
  rewrite (amend_order_quantity_path _ _ _ _ _ _ _ Hl Ho Hc).
  eexists. split; [reflexivity|].
  destruct (amended_in_place_inv b id p o new_quantity R Hl Ho)
    as (I' & _ & Ep).
  destruct (amended_in_place_queues b id p o new_quantity R Hl Ho)
    as (Qb & Qa & El).
  cbn [bump_amends order_pool bid_levels ask_levels order_lookup total_orders
         total_cancels total_amends].
  split; [rewrite Ep; cbn; apply lookup_insert_eq|].
  split; [exact Qb|]. split; [exact Qa|]. split; [exact El|].
  split; [unfold amended_in_place; destruct (is_buy o); reflexivity|].
  split; [unfold amended_in_place; destruct (is_buy o); reflexivity|].
  split; [unfold amended_in_place; destruct (is_buy o); reflexivity|].
  intros k l H. apply elem_of_app in H as [H|H].
  - destruct (inv_bids _ I') as [_ F]. rewrite Forall_forall in F.
    apply (lo_key _ _ _ _ (F _ H)).
  - destruct (inv_asks _ I') as [_ F]. rewrite Forall_forall in F.
    apply (lo_key _ _ _ _ (F _ H)).
Qed.

(** ** The destructor *)

Lemma index_pointers_nodup b :
  book_inv b -> NoDup (map_to_list (order_lookup b)).*2.
Proof.
  intros I. apply NoDup_fmap_2_strong; [|apply NoDup_map_to_list].
  intros [id1 p1] [id2 p2] H1 H2 E. cbn in E. subst p2.
  apply elem_of_map_to_list in H1, H2.
  destruct (inv_index b I id1 p1 H1) as (_ & o1 & Ho1 & <-).
  destruct (inv_index b I id2 p1 H2) as (_ & o2 & Ho2 & <-).
  congruence.
Qed.

Lemma index_pointers_queued b p :
  book_inv b ->
  p ∈ (map_to_list (order_lookup b)).*2 ->
  p ∈ book_ptrs b /\ exists id, order_lookup b !! id = Some p.
Proof.
  intros I H. apply list_elem_of_fmap in H as ([id q] & -> & H).
  apply elem_of_map_to_list in H. split; [apply (inv_index b I id q H)|].
  exists id. exact H.
Qed.

Lemma deallocate_all (ips : list (Z * ptr)) mp :
  let mp' := foldl (fun mp (ip : Z * ptr) => deallocate ip.2 mp) mp ips in
  free_list mp' = rev ips.*2 ++ free_list mp
  /\ blocks mp' = blocks mp
  /\ current_index mp' = current_index mp
  /\ forall p, storage mp' !! p
               = if decide (p ∈ ips.*2) then None else storage mp !! p.
Proof.
  revert mp. induction ips as [|[id q] ips IH]; intros mp; cbn.
  - repeat split.
  - destruct (IH (deallocate q mp)) as (Ef & Eb & Ec & Es). cbn in *.
    rewrite Ef, Eb, Ec. repeat split.
    + rewrite <- app_assoc. reflexivity.
    + intros p. rewrite Es.
      destruct (decide (p ∈ ips.*2)) as [H|H].
      * rewrite decide_True by (right; exact H). reflexivity.
      * destruct (decide (p = q)) as [->|D].
        -- rewrite decide_True by left. apply lookup_delete_eq.
        -- rewrite decide_False.
           ++ apply lookup_delete_ne. congruence.
           ++ intros H'. apply elem_of_cons in H' as [?|?]; contradiction.
Qed.

(** X14.  The destructor of a reachable book pushes every slot that the
    index names on the free list once, and no slot that was free already:
    no slot is released twice.  Blocks are kept.  The objects that remain
    are the queued records that the index does not name; there is none
    when every queued record is named. *)
Theorem X14_destructor_releases_once b :
  reachable b ->
  let mp := destroy_book b in
  NoDup (free_list mp)
  /\ free_list mp
     ≡ₚ (map_to_list (order_lookup b)).*2 ++ free_list (order_pool b)
  /\ (forall id p, order_lookup b !! id = Some p ->
        p ∈ free_list mp /\ storage mp !! p = None)
  /\ (forall p, is_Some (storage mp !! p)
                <-> p ∈ book_ptrs b
                    /\ forall id, order_lookup b !! id <> Some p)
  /\ (index_covers b -> storage mp = ∅)
  /\ blocks mp = blocks (order_pool b).
Proof.
  intros R mp. pose proof (reachable_pool_inv b R) as Pi.
  apply reachable_inv in R.
  destruct (deallocate_all (map_to_list (order_lookup b)) (order_pool b))
    as (Ef & Eb & _ & Es).
  fold (destroy_book b) in Ef, Eb, Es. fold mp in Ef, Eb, Es.
  assert (In : forall id p, order_lookup b !! id = Some p ->
                 p ∈ (map_to_list (order_lookup b)).*2).
  { intros id p Hl. apply list_elem_of_fmap. exists (id, p).
    split; [reflexivity|]. apply elem_of_map_to_list. exact Hl. }
  assert (St : forall p, is_Some (storage mp !! p)
                         <-> p ∈ book_ptrs b
                             /\ forall id, order_lookup b !! id <> Some p).
  { intros p. rewrite Es.
    destruct (decide (p ∈ (map_to_list (order_lookup b)).*2)) as [H|H].
    - split; [intros [? ?]; discriminate|].
      intros [_ N]. destruct (index_pointers_queued b p R H) as (_ & id & Hl).
      destruct (N id Hl).
    - rewrite (pi_live b Pi p). split; [|tauto].
      intros Hp. split; [exact Hp|]. intros id Hl. apply H, (In id p Hl). }
  split; [|split; [|split; [|split; [|split]]]].
  - rewrite Ef. apply NoDup_app. split; [|split].
    + rewrite <- Permutation_rev. apply index_pointers_nodup, R.
    + intros p Hp Hf. rewrite <- Permutation_rev in Hp.
      destruct (index_pointers_queued b p R Hp) as (Hq & _).
      exact (inv_free b R p Hf Hq).
    + apply (inv_free_nodup b R).
  - rewrite Ef. apply Permutation_app_tail. symmetry. apply Permutation_rev.
  - intros id p Hl. split.
    + rewrite Ef. apply elem_of_app. left. rewrite <- Permutation_rev.
      apply (In id p Hl).
    + rewrite Es. rewrite decide_True by apply (In id p Hl). reflexivity.
  - exact St.
  - intros Cv. apply map_eq. intros p. rewrite lookup_empty.
    apply eq_None_not_Some. rewrite St. intros [Hp N].
    destruct (Cv p Hp) as (id & Hl). destruct (N id Hl).
  - exact Eb.
Qed.

(** ** The number of orders that is printed *)


(** ** The counters over a run *)

Lemma add_order_counters o b :
  total_orders (add_order o b) = wrap64 (total_orders b + 1)
  /\ total_cancels (add_order o b) = total_cancels b
  /\ total_amends (add_order o b) = total_amends b.
Proof.
  unfold add_order. destruct (allocate (order_pool b)). cbn. auto.
Qed.

Lemma amended_in_place_counters b p o new_quantity :
  total_orders (amended_in_place b p o new_quantity) = total_orders b
  /\ total_cancels (amended_in_place b p o new_quantity) = total_cancels b
  /\ total_amends (amended_in_place b p o new_quantity) = total_amends b.
Proof. unfold amended_in_place. destruct (is_buy o); cbn; auto. Qed.

Lemma inserted_id_amend id new_price new_quantity now b p o :
  order_lookup b !! id = Some p -> storage (order_pool b) !! p = Some o ->
  inserted_id (Amend id new_price new_quantity now) b
  = if price_changed (price o) new_price then Some id else None.
Proof.
  intros Hl Ho. unfold inserted_id. rewrite Hl. cbn [mbind option_bind].
  rewrite Ho. reflexivity.
Qed.

Lemma exec_counters c b b' :
  exec c b = Some b' ->
  in_u64 (total_orders b) -> in_u64 (total_cancels b) ->
  in_u64 (total_amends b) ->
  total_orders b' = wrap64 (total_orders b + Z.of_nat (tally_call c b).1.1)
  /\ total_cancels b'
     = wrap64 (total_cancels b + Z.of_nat (tally_call c b).1.2)
  /\ total_amends b' = wrap64 (total_amends b + Z.of_nat (tally_call c b).2).
Proof.
  intros E Ro Rc Ra.
  assert (Z0 : forall z, in_u64 z -> z = wrap64 (z + 0)).
  { intros z Hz. rewrite Z.add_0_r. symmetry. apply wrap64_small, Hz. }
  destruct c as [o|id|id new_price new_quantity now]; cbn in E.
  - injection E as <-. destruct (add_order_counters o b) as (-> & -> & ->).
    cbn. auto.
  - unfold tally_call, cancel_found.
    destruct (order_lookup b !! id) as [p|] eqn:Hl.
    + destruct (storage (order_pool b) !! p) as [o|] eqn:Ho.
      * rewrite (cancel_order_resting id b p o Hl Ho) in E |- *.
        cbn in E. injection E as <-. cbn. auto.
      * unfold cancel_order in E. rewrite Hl, Ho in E. discriminate.
    + rewrite (cancel_order_unknown id b Hl) in E |- *. cbn in E.
      injection E as <-. cbn. auto.
  - unfold tally_call, amend_found.
    destruct (order_lookup b !! id) as [p|] eqn:Hl.
    + destruct (storage (order_pool b) !! p) as [o|] eqn:Ho.
      * rewrite (inserted_id_amend _ new_price new_quantity now _ _ _ Hl Ho).
        destruct (price_changed (price o) new_price) eqn:Hc.
        -- pose proof (cancel_order_resting id b p o Hl Ho) as C.
           rewrite (amend_order_price_path _ _ _ _ _ _ _ _ Hl Ho Hc C)
             in E |- *.
           cbn [mbind option_bind snd] in E. injection E as <-.
           cbn [bump_amends total_orders total_cancels total_amends fst snd].
           destruct (add_order_counters
                       (mkOrder (order_id o) (is_buy o) new_price new_quantity
                          now)
                       {| order_pool := deallocate p (order_pool b);
                          bid_levels :=
                            if is_buy o
                            then remove_from_side greater (bid_levels b) p o
                            else bid_levels b;
                          ask_levels :=
                            if is_buy o then ask_levels b
                            else remove_from_side less (ask_levels b) p o;
                          order_lookup := delete id (order_lookup b);
                          total_orders := total_orders b;
                          total_cancels := wrap64 (total_cancels b + 1);
                          total_amends := total_amends b |})
             as (-> & -> & ->).
           cbn. auto.
        -- rewrite (amend_order_quantity_path _ _ _ _ _ _ _ Hl Ho Hc)
             in E |- *.
           cbn [mbind option_bind snd] in E. injection E as <-.
           cbn [bump_amends total_orders total_cancels total_amends fst snd].
           destruct (amended_in_place_counters b p o new_quantity)
             as (-> & -> & ->).
           cbn. auto.
      * unfold amend_order in E. rewrite Hl, Ho in E. discriminate.
    + rewrite (amend_order_unknown _ _ _ _ _ Hl) in E |- *. cbn in E.
      injection E as <-. cbn. auto.
Qed.

Lemma run_counters cs b b' :
  run cs b = Some b' ->
  in_u64 (total_orders b) -> in_u64 (total_cancels b) ->
  in_u64 (total_amends b) ->
  total_orders b' = wrap64 (total_orders b + Z.of_nat (tally cs b).1.1)
  /\ total_cancels b' = wrap64 (total_cancels b + Z.of_nat (tally cs b).1.2)
  /\ total_amends b' = wrap64 (total_amends b + Z.of_nat (tally cs b).2).
Proof.
  revert b. induction cs as [|c cs IH]; intros b R Ro Rc Ra; cbn in R |- *.
  - injection R as <-. rewrite !Z.add_0_r, !wrap64_small by assumption. auto.
  - destruct (exec c b) as [b1|] eqn:E; [|discriminate]. cbn in R.
    destruct (exec_counters c b b1 E Ro Rc Ra) as (Eo & Ec & Ea).
    destruct (IH b1 R) as (Io & Ic & Ia);
      try (rewrite ?Eo, ?Ec, ?Ea; apply wrap64_range).
    destruct (tally_call c b) as [[a k] m], (tally cs b1) as [[a' k'] m'].
    cbn [fst snd] in *.
    rewrite Io, Ic, Ia, Eo, Ec, Ea, !wrap64_add_l, !Nat2Z.inj_add, !Z.add_assoc.
    auto.
Qed.

(** X17.  After a run from the empty book the three counters that
    [print_stats] writes are, modulo [2^64]: the number of executions of
    [add_order], those made by price-changing amendments included; the
    number of cancellations that found their identifier, those made by
    price-changing amendments included; and the number of amendments that
    found their identifier.  Calls on unknown identifiers count nowhere. *)
Theorem X17_stats_count_calls cs b :
  run cs empty_book = Some b ->
  print_stats b
  = (wrap64 (Z.of_nat (tally cs empty_book).1.1),
     wrap64 (Z.of_nat (tally cs empty_book).1.2),
     wrap64 (Z.of_nat (tally cs empty_book).2)).
Proof.
  intros R.
  destruct (run_counters cs empty_book b R) as (Eo & Ec & Ea);
    try (cbn; unfold in_u64, u64_modulus; lia).
  unfold print_stats. rewrite Eo, Ec, Ea. reflexivity.
Qed.

(** ** The free list is a stack *)

Lemma allocations_from_free l mp f :
  free_list mp = l ++ f ->
  (allocations (length l) mp).1 = l
  /\ free_list (allocations (length l) mp).2 = f
  /\ blocks (allocations (length l) mp).2 = blocks mp
  /\ current_index (allocations (length l) mp).2 = current_index mp
  /\ storage (allocations (length l) mp).2 = storage mp.
Proof.
  revert mp. induction l as [|p l IH]; intros mp E; cbn.
  - auto.
  - unfold allocate. rewrite E. cbn.
    specialize (IH {| blocks := blocks mp; free_list := l ++ f;
                      current_index := current_index mp;
                      storage := storage mp |} eq_refl).
    destruct (allocations (length l) _) as [ps mp2]. cbn in *.
    destruct IH as (-> & -> & -> & -> & ->). auto.
Qed.

Lemma deallocations_free ps mp :
  free_list (foldl (fun mp p => deallocate p mp) mp ps)
  = rev ps ++ free_list mp
  /\ blocks (foldl (fun mp p => deallocate p mp) mp ps) = blocks mp
  /\ current_index (foldl (fun mp p => deallocate p mp) mp ps)
     = current_index mp.
Proof.
  revert mp. induction ps as [|p ps IH]; intros mp; cbn.
  - auto.
  - destruct (IH (deallocate p mp)) as (-> & -> & ->). cbn.
    rewrite <- app_assoc. auto.
Qed.

(** X19.  The free list is a stack: after the slots [ps] have been
    released in this order, the next allocations return them in the
    reverse order, before any slot that was free earlier and before any
    fresh slot; once they are taken the free list, the number of blocks
    and the index in the head block are as before the releases. *)
Theorem X19_free_list_is_stack ps mp :
  let released := foldl (fun mp p => deallocate p mp) mp ps in
  (allocations (length ps) released).1 = rev ps
  /\ free_list (allocations (length ps) released).2 = free_list mp
  /\ blocks (allocations (length ps) released).2 = blocks mp
  /\ current_index (allocations (length ps) released).2 = current_index mp.
Proof.
  intros released.
  destruct (deallocations_free ps mp) as (Ef & Eb & Ec).
  fold released in Ef, Eb, Ec.
  destruct (allocations_from_free (rev ps) released (free_list mp) Ef)
    as (A1 & A2 & A3 & A4 & _).
  rewrite length_rev in A1, A2, A3, A4.
  rewrite A1, A2, A3, A4, Eb, Ec. auto.
Qed.

(** ** Cancelling every order *)

Lemma side_ptrs_nil comp buy st m :
  side_ok comp buy st m -> side_ptrs m = [] -> m = [].
Proof.
  intros [_ F] E. destruct m as [|kl m]; [reflexivity|].
  apply Forall_cons in F as [[_ N _ _] _].
  unfold side_ptrs in E. cbn in E. apply app_eq_nil in E as [E _]. contradiction.
Qed.

Lemma cancel_order_pool_fields id b r b' :
  cancel_order id b = Some (r, b') ->
  blocks (order_pool b') = blocks (order_pool b)
  /\ current_index (order_pool b') = current_index (order_pool b)
  /\ order_lookup b' !! id = None
  /\ forall id', id' <> id -> order_lookup b' !! id' = order_lookup b !! id'.
Proof.
  intros C. unfold cancel_order in C.
  destruct (order_lookup b !! id) as [p|] eqn:Hl.
  - destruct (storage (order_pool b) !! p) as [o|]; [|discriminate].
    cbn in C. injection C as _ <-. cbn. repeat split.
    + apply lookup_delete_eq.
    + intros id' D. apply lookup_delete_ne. congruence.
  - injection C as _ <-. auto.
Qed.

Lemma cancel_all_empties ids b :
  book_inv b -> pool_inv b -> index_covers b ->
  (forall id, is_Some (order_lookup b !! id) -> id ∈ ids) ->
  exists b',
    run (map Cancel ids) b = Some b'
    /\ bid_levels b' = [] /\ ask_levels b' = []
    /\ order_lookup b' = ∅
    /\ storage (order_pool b') = ∅
    /\ length (free_list (order_pool b')) = issued_count (order_pool b)
    /\ blocks (order_pool b') = blocks (order_pool b).
Proof.
  revert b. induction ids as [|id ids IH]; intros b I Pi Cv D.
  - exists b. split; [reflexivity|].
    assert (E : order_lookup b = ∅).
    { apply map_eq. intros id. rewrite lookup_empty. apply eq_None_not_Some.
      intros H. specialize (D id H). inversion D. }
    assert (P : book_ptrs b = []).
    { destruct (book_ptrs b) as [|p ps] eqn:Ep; [reflexivity|].
      destruct (Cv p) as (id & Hl); [rewrite Ep; left|].
      rewrite E, lookup_empty in Hl. discriminate. }
    pose proof P as P'. unfold book_ptrs in P'.
    apply app_eq_nil in P' as [Pb Pa].
    split; [exact (side_ptrs_nil _ _ _ _ (inv_bids b I) Pb)|].
    split; [exact (side_ptrs_nil _ _ _ _ (inv_asks b I) Pa)|].
    split; [exact E|]. split; [|split; [|reflexivity]].
    + apply map_eq. intros p. rewrite lookup_empty. apply eq_None_not_Some.
      rewrite (pi_live b Pi p), P. intros H. inversion H.
    + pose proof (pi_count b Pi) as Hc. rewrite P in Hc. exact Hc.
  - destruct (cancel_order_total id b I) as (r & b1 & C).
    destruct (cancel_order_pool_fields id b r b1 C) as (Eb & Ec & Ln & Lo).
    destruct (IH b1) as (b' & R & H1 & H2 & H3 & H4 & H5 & H6).
    + eapply cancel_order_inv; eassumption.
    + eapply cancel_order_pool_inv; eassumption.
    + eapply cancel_order_covers; eassumption.
    + intros id' H. destruct (decide (id' = id)) as [->|Ne].
      * rewrite Ln in H. destruct H. discriminate.
      * rewrite (Lo id' Ne) in H. specialize (D id' H).
        apply elem_of_cons in D as [?|?]; [contradiction|assumption].
    + exists b'. cbn. rewrite C. cbn. split; [exact R|].
      unfold issued_count in *. rewrite Eb, Ec in H5. rewrite H6, Eb.
      repeat split; assumption.
Qed.

(** X20.  After a run from the empty book that reused no resting
    identifier, cancelling the identifiers of the index, in any order and
    with whatever other identifiers and repetitions among them, leaves both
    sides and the index empty and no object constructed; every slot handed
    out so far is then on the free list, and the pool keeps its blocks. *)
Theorem X20_cancel_all_returns_slots cs b ids :
  Forall valid_call cs -> fresh_run cs empty_book ->
  run cs empty_book = Some b ->
  (forall id, is_Some (order_lookup b !! id) -> id ∈ ids) ->
  exists b',
    run (map Cancel ids) b = Some b'
    /\ bid_levels b' = [] /\ ask_levels b' = []
    /\ order_lookup b' = ∅
    /\ storage (order_pool b') = ∅
    /\ length (free_list (order_pool b')) = issued_count (order_pool b)
    /\ blocks (order_pool b') = blocks (order_pool b).
Proof.
  intros V Fr R D. apply cancel_all_empties.
  - exact (run_inv cs empty_book b book_inv_empty V R).
  - exact (run_pool_inv cs empty_book b book_inv_empty book_inv_pool_empty V R).
  - apply (run_covers cs empty_book b book_inv_empty V Fr R).
    intros p Hp. inversion Hp.
  - exact D.
Qed.

(** ** The properties of the pool, the index and the printing on the basic book *)

Lemma index_ids_listed (m : gmap Z ptr) id :
  is_Some (m !! id) -> id ∈ (map_to_list m).*1.
Proof.
  intros [p H]. apply list_elem_of_fmap. exists (id, p).
  split; [reflexivity|]. apply elem_of_map_to_list. exact H.
Qed.

Lemma X1_witness :
  Forall valid_call basic_test_calls
  /\ exists b, run basic_test_calls empty_book = Some b
               /\ forall id p, order_lookup b !! id = Some p ->
                               is_Some (storage (order_pool b) !! p).
Proof.
  assert (V : Forall valid_call basic_test_calls).
  { unfold basic_test_calls, basic_test_adds. cbn [app]. solve_valid_calls. }
  split; [exact V|].
  exact (X1_calls_read_live_nodes basic_test_calls V).
Defined.

Lemma X2_witness :
  reachable basic_book
  /\ order_lookup basic_book !! 2001 = Some (0, 4)%nat
  /\ exists o,
       storage (order_pool basic_book) !! (0, 4)%nat = Some o
       /\ order_id o = 2001
       /\ (forall id', order_lookup basic_book !! id' = Some (0, 4)%nat ->
                       id' = 2001).
Proof.
  assert (Hl : order_lookup basic_book !! 2001 = Some (0, 4)%nat)
    by (vm_compute; reflexivity).
  split; [exact basic_book_reachable|]. split; [exact Hl|].
  destruct (X2_index_names_one_record basic_book 2001 (0, 4)%nat
              basic_book_reachable Hl) as (o & Ho & Hid & _ & _ & _ & _ & U).
  exists o. split; [exact Ho|]. split; [exact Hid|exact U].
Defined.

Lemma X3_witness :
  reachable basic_book
  /\ not_nan 99
  /\ queue_at (comp_of true) 99 (side_of true
       (add_order (mkOrder 3001 true 99 50 9000000) basic_book))
     = queue_at (comp_of true) 99 (side_of true basic_book)
       ++ [(allocate (order_pool basic_book)).1]
  /\ side_of (negb true)
       (add_order (mkOrder 3001 true 99 50 9000000) basic_book)
     = side_of (negb true) basic_book.
Proof.
  assert (Hn : not_nan 99) by (vm_compute; reflexivity).
  split; [exact basic_book_reachable|]. split; [exact Hn|].
  pose proof (X3_add_order_effect basic_book
                (mkOrder 3001 true 99 50 9000000)
                basic_book_reachable Hn) as H.
  cbv zeta in H. destruct H as (Q & _ & _ & S & _).
  split; [exact Q|exact S].
Defined.

Lemma X4_witness :
  reachable basic_book
  /\ order_lookup basic_book !! 2001 = Some (0, 4)%nat
  /\ storage (order_pool basic_book) !! (0, 4)%nat
     = Some (mkOrder 2001 false 101 100 5000000)
  /\ exists b',
       cancel_order 2001 basic_book = Some (true, b')
       /\ order_lookup b' = delete 2001 (order_lookup basic_book)
       /\ free_list (order_pool b')
          = (0, 4)%nat :: free_list (order_pool basic_book)
       /\ ((0, 4)%nat ∉ book_ptrs b')
       /\ ((0, 4)%nat ∉ queue_at (comp_of false) 101 (side_of false b')).
Proof.
  assert (Hl : order_lookup basic_book !! 2001 = Some (0, 4)%nat)
    by (vm_compute; reflexivity).
  assert (Ho : storage (order_pool basic_book) !! (0, 4)%nat
               = Some (mkOrder 2001 false 101 100 5000000))
    by (vm_compute; reflexivity).
  repeat (split; [first [exact basic_book_reachable | assumption]|]).
  pose proof (X4_cancel_order_effect basic_book 2001 (0, 4)%nat
                (mkOrder 2001 false 101 100 5000000)
                basic_book_reachable Hl Ho) as H.
  cbv zeta in H.
  destruct H as (b' & C & _ & _ & _ & _ & _ & L & _ & F & N & G & _).
  exists b'. split; [exact C|]. split; [exact L|]. split; [exact F|].
  split; [exact N|exact G].
Defined.

Lemma X5_witness :
  reachable basic_book
  /\ (forall id p, order_lookup basic_book !! id = Some p ->
                   in_block (order_pool basic_book) p)
  /\ in_block (allocate (order_pool basic_book)).2
              (allocate (order_pool basic_book)).1.
Proof.
  split; [exact basic_book_reachable|].
  exact (proj2 (X5_slots_within_blocks basic_book basic_book_reachable)).
Defined.

Lemma X6_witness :
  reachable basic_book
  /\ NoDup (book_ptrs basic_book ++ free_list (order_pool basic_book))
  /\ (length (book_ptrs basic_book ++ free_list (order_pool basic_book))
      = issued_count (order_pool basic_book))%nat.
Proof.
  split; [exact basic_book_reachable|].
  destruct (X6_no_slot_lost basic_book basic_book_reachable) as (N & L & _).
  split; [exact N|exact L].
Defined.

Lemma X7_witness :
  reachable basic_book
  /\ (forall p, is_Some (storage (order_pool basic_book) !! p)
                <-> p ∈ book_ptrs basic_book)
  /\ storage (order_pool basic_book) !! (allocate (order_pool basic_book)).1
     = None.
Proof.
  split; [exact basic_book_reachable|].
  destruct (X7_live_nodes_are_queued basic_book basic_book_reachable)
    as (L & _ & A).
  split; [exact L|exact A].
Defined.

Lemma X8_witness :
  reachable basic_book
  /\ wrap64 (total_orders basic_book - total_cancels basic_book)
     = wrap64 (Z.of_nat (length (book_ptrs basic_book))).
Proof.
  split; [exact basic_book_reachable|].
  exact (X8_counters_balance basic_book basic_book_reachable).
Defined.

Lemma X9_witness :
  reachable basic_book
  /\ order_lookup basic_book !! 2001 = Some (0, 4)%nat
  /\ storage (order_pool basic_book) !! (0, 4)%nat
     = Some (mkOrder 2001 false 101 100 5000000)
  /\ exists b',
       amend_order 2001 100.5 100 9500000 basic_book = Some (true, b')
       /\ order_lookup b' !! 2001 = Some (0, 4)%nat
       /\ blocks (order_pool b') = blocks (order_pool basic_book)
       /\ free_list (order_pool b') = free_list (order_pool basic_book)
       /\ current_index (order_pool b')
          = current_index (order_pool basic_book).
Proof.
  assert (Hl : order_lookup basic_book !! 2001 = Some (0, 4)%nat)
    by (vm_compute; reflexivity).
  assert (Ho : storage (order_pool basic_book) !! (0, 4)%nat
               = Some (mkOrder 2001 false 101 100 5000000))
    by (vm_compute; reflexivity).
  repeat (split; [first [exact basic_book_reachable | assumption]|]).
  exact (X9_amend_keeps_slot basic_book 2001 100.5 100 9500000 (0, 4)%nat
           (mkOrder 2001 false 101 100 5000000) basic_book_reachable Hl Ho).
Defined.

Lemma X11_witness :
  reachable basic_book
  /\ (forall i j x y,
        (get_snapshot 3 basic_book).1 !! i = Some x ->
        (get_snapshot 3 basic_book).1 !! j = Some y -> (i < j)%nat ->
        flt (pl_price y) (pl_price x) = true)
  /\ (forall i j x y,
        (get_snapshot 3 basic_book).2 !! i = Some x ->
        (get_snapshot 3 basic_book).2 !! j = Some y -> (i < j)%nat ->
        flt (pl_price x) (pl_price y) = true).
Proof.
  split; [exact basic_book_reachable|].
  destruct (X11_snapshot_order 3 basic_book basic_book_reachable)
    as (B & A & _).
  split; [exact B|exact A].
Defined.

Lemma X12_witness :
  (10 <> 0)%nat
  /\ bid_levels basic_book <> []
  /\ ask_levels basic_book <> []
  /\ shown_spread (print_book 10 basic_book)
     = Some ((get_best_prices basic_book).2 - (get_best_prices basic_book).1)%float.
Proof.
  assert (Hd : (10 <> 0)%nat) by lia.
  assert (Hb : bid_levels basic_book <> [])
    by (vm_compute; discriminate).
  assert (Ha : ask_levels basic_book <> [])
    by (vm_compute; discriminate).
  repeat (split; [assumption|]).
  destruct (X12_print_book_spread 10 basic_book) as (_ & _ & _ & S & _).
  exact (S Hd Hb Ha).
Defined.

Lemma X13_witness :
  reachable basic_book
  /\ order_lookup basic_book !! 2001 = Some (0, 4)%nat
  /\ storage (order_pool basic_book) !! (0, 4)%nat
     = Some (mkOrder 2001 false 101 100 5000000)
  /\ is_nan nan = true
  /\ exists b',
       amend_order 2001 nan 70 9500000 basic_book = Some (true, b')
       /\ storage (order_pool b') !! (0, 4)%nat
          = Some (mkOrder 2001 false 101 70 5000000)
       /\ queue_view (ask_levels b') = queue_view (ask_levels basic_book)
       /\ total_orders b' = total_orders basic_book.
Proof.
  assert (Hl : order_lookup basic_book !! 2001 = Some (0, 4)%nat)
    by (vm_compute; reflexivity).
  assert (Ho : storage (order_pool basic_book) !! (0, 4)%nat
               = Some (mkOrder 2001 false 101 100 5000000))
    by (vm_compute; reflexivity).
  assert (Hn : is_nan nan = true) by (vm_compute; reflexivity).
  repeat (split; [first [exact basic_book_reachable | assumption]|]).
  destruct (X13_amend_nan_price basic_book 2001 nan 70 9500000 (0, 4)%nat
              (mkOrder 2001 false 101 100 5000000)
              basic_book_reachable Hl Ho Hn)
    as (b' & A & S & _ & Q & _ & T & _).
  exists b'. split; [exact A|]. split; [exact S|]. split; [exact Q|exact T].
Defined.

Lemma X14_witness :
  reachable basic_book
  /\ NoDup (free_list (destroy_book basic_book))
  /\ (forall id p, order_lookup basic_book !! id = Some p ->
        p ∈ free_list (destroy_book basic_book)
        /\ storage (destroy_book basic_book) !! p = None)
  /\ blocks (destroy_book basic_book) = blocks (order_pool basic_book).
Proof.
  split; [exact basic_book_reachable|].
  pose proof (X14_destructor_releases_once basic_book basic_book_reachable)
    as H.
  cbv zeta in H. destruct H as (N & _ & F & _ & _ & B).
  split; [exact N|]. split; [exact F|exact B].
Defined.


Lemma X16_witness :
  reachable basic_book
  /\ valid_call (Add (mkOrder 3001 true 99 50 9000000))
  /\ exec (Add (mkOrder 3001 true 99 50 9000000)) basic_book
     = Some (add_order (mkOrder 3001 true 99 50 9000000) basic_book)
  /\ (blocks (order_pool
                (add_order (mkOrder 3001 true 99 50 9000000) basic_book))
      = blocks (order_pool basic_book)
      \/ (blocks (order_pool
                    (add_order (mkOrder 3001 true 99 50 9000000) basic_book))
          = S (blocks (order_pool basic_book))
          /\ free_list (order_pool basic_book) = []
          /\ current_index (order_pool basic_book) = BlockSize
          /\ exists o, Add (mkOrder 3001 true 99 50 9000000) = Add o)).
Proof.
  assert (V : valid_call (Add (mkOrder 3001 true 99 50 9000000))).
  { repeat split; try (unfold in_u64, u64_modulus; cbn; lia);
      try (vm_compute; congruence). }
  assert (E : exec (Add (mkOrder 3001 true 99 50 9000000)) basic_book
              = Some (add_order (mkOrder 3001 true 99 50 9000000) basic_book))
    by reflexivity.
  split; [exact basic_book_reachable|]. split; [exact V|]. split; [exact E|].
  exact (X16_blocks_grow_on_demand basic_book
           (Add (mkOrder 3001 true 99 50 9000000))
           (add_order (mkOrder 3001 true 99 50 9000000) basic_book)
           basic_book_reachable V E).
Defined.

Lemma X17_witness :
  run basic_test_calls empty_book = Some basic_test_book
  /\ print_stats basic_test_book
     = (wrap64 (Z.of_nat (tally basic_test_calls empty_book).1.1),
        wrap64 (Z.of_nat (tally basic_test_calls empty_book).1.2),
        wrap64 (Z.of_nat (tally basic_test_calls empty_book).2)).
Proof.
  assert (R : run basic_test_calls empty_book = Some basic_test_book)
    by (vm_compute; reflexivity).
  split; [exact R|].
  exact (X17_stats_count_calls basic_test_calls basic_test_book R).
Defined.

Lemma X20_witness :
  Forall valid_call basic_test_adds
  /\ fresh_run basic_test_adds empty_book
  /\ run basic_test_adds empty_book = Some basic_book
  /\ exists b',
       run (map Cancel (map_to_list (order_lookup basic_book)).*1) basic_book
       = Some b'
       /\ bid_levels b' = [] /\ ask_levels b' = []
       /\ order_lookup b' = ∅
       /\ storage (order_pool b') = ∅
       /\ length (free_list (order_pool b'))
          = issued_count (order_pool basic_book)
       /\ blocks (order_pool b') = blocks (order_pool basic_book).
Proof.
  assert (V : Forall valid_call basic_test_adds).
  { unfold basic_test_adds. solve_valid_calls. }
  assert (R : run basic_test_adds empty_book = Some basic_book)
    by (vm_compute; reflexivity).
  assert (Fr : fresh_run basic_test_adds empty_book)
    by (vm_compute; repeat split; reflexivity).
  split; [exact V|]. split; [exact Fr|]. split; [exact R|].
  exact (X20_cancel_all_returns_slots basic_test_adds basic_book
           (map_to_list (order_lookup basic_book)).*1 V Fr R
           (index_ids_listed (order_lookup basic_book))).
Defined.
